(** * CForth: a shallow embedding of the interpreter and its specification

    The development follows [src/include/CForth.h] and [src/src/CForth.cpp].
    C++ objects held through [std::shared_ptr] live in an explicit object
    store ([heap]) and are named by their index, so that two stack slots
    holding the same pointer share one object, as in the source.  The
    namespace-level variables of [CForth.cpp] are the fields of [Globals];
    a function of the source is a computation in the monad [M] over them.

    What is outside the repository is a parameter ([Platform]): the
    arithmetic, printing and parsing of [double], and the address the
    allocator gives an object.

    The blocks guarded by [isDebug()] are part of the model ([when_debug]);
    the properties are stated for the states where [debug_] is [false],
    its initial value. *)

From Stdlib Require Import ZArith Lia String Ascii List Bool DecimalString.
From stdpp Require Import base option list strings gmap.

Local Open Scope string_scope.
Local Open Scope Z_scope.

(** ** Machine integers *)

Definition INT_MAX : Z := 2147483647.
Definition INT_MIN : Z := -2147483648.

(** Conversion to [int]: the value modulo [2^32], read as two's complement.
    Signed arithmetic that leaves the range is undefined in C++; the model
    takes the wrapped value the usual targets compute. *)
Definition to_int (z : Z) : Z := (z + 2147483648) mod 4294967296 - 2147483648.

(** Conversion to [long] (64 bits). *)
Definition to_long (z : Z) : Z :=
  (z + 9223372036854775808) mod 18446744073709551616 - 9223372036854775808.

(** Conversion to [uint] and to [size_t]. *)
Definition to_uint (z : Z) : Z := z mod 4294967296.
Definition to_size_t (z : Z) : Z := z mod 18446744073709551616.

(** [char] is signed on the targets of the source: its value as an [int]. *)
Definition int_of_char (c : ascii) : Z :=
  let n := Z.of_nat (nat_of_ascii c) in if 128 <=? n then n - 256 else n.

(** [char(i)]: the low byte. *)
Definition char_of_int (i : Z) : ascii := ascii_of_nat (Z.to_nat (i mod 256)).

Definition NUL : ascii := "000"%char.
Definition LF : ascii := "010"%char.

(** The C locale's [isspace], [islower], [toupper]. *)
Definition isspace (c : ascii) : bool :=
  let n := nat_of_ascii c in ((9 <=? n) && (n <=? 13))%nat || (n =? 32)%nat.

Definition islower (c : ascii) : bool :=
  let n := nat_of_ascii c in ((97 <=? n) && (n <=? 122))%nat.

Definition toupper (c : ascii) : ascii :=
  if islower c then ascii_of_nat (nat_of_ascii c - 32) else c.

(** [std::string::operator[]]: position [size()] reads the terminating
    NUL; beyond it the access is undefined ([None]). *)
Definition string_at (s : string) (i : nat) : option ascii :=
  match String.get i s with
  | Some c => Some c
  | None => if (i =? String.length s)%nat then Some NUL else None
  end.

(** [std::strchr(chars, c) != nullptr]: the terminator counts as found. *)
Fixpoint strchr (chars : string) (c : ascii) : bool :=
  match chars with
  | EmptyString => Ascii.eqb c NUL
  | String d rest => Ascii.eqb c d || strchr rest c
  end.

(** [std::string::find(char)]. *)
Fixpoint string_find (s : string) (c : ascii) : option nat :=
  match s with
  | EmptyString => None
  | String d rest => if Ascii.eqb c d then Some 0%nat else S <$> string_find rest c
  end.

Definition string_push (s : string) (c : ascii) : string := s ++ String c EmptyString.

(** [os << i] for an [int]. *)
Definition int_print (i : Z) : string := DecimalString.NilZero.string_of_int (Z.to_int i).

(** ** [class State]: success or failure with a message *)

Record State := mkState { valid : bool; msg : string }.

Definition State_success : State := mkState true "".

(** ** [class Word] *)

Record Word := mkWord { word_valid : bool; word_str : string }.

Definition Word_new : Word := mkWord false "".
Definition Word_reset (w : Word) : Word := mkWord false (word_str w).
Definition Word_setValue (str : string) : Word := mkWord true str.
Definition Word_eq (w : Word) (str : string) : bool := String.eqb (word_str w) str.

(** ** [class Line]: text with a read position *)

Record Line := mkLine { str_ : string; pos_ : nat; len_ : nat }.

Definition Line_new (line : string) : Line := mkLine line 0 (String.length line).
Definition Line_clear : Line := mkLine "" 0 0.
Definition Line_setPos (l : Line) (pos : nat) : Line := mkLine (str_ l) pos (len_ l).
Definition Line_addChar (l : Line) (c : ascii) : Line :=
  mkLine (string_push (str_ l) c) (pos_ l) (S (len_ l)).
Definition Line_lookChar (l : Line) : option ascii := string_at (str_ l) (pos_ l).
Definition Line_skipChar (l : Line) : Line := mkLine (str_ l) (S (pos_ l)) (len_ l).
Definition Line_getChar (l : Line) : option (ascii * Line) :=
  c ← Line_lookChar l; Some (c, Line_skipChar l).
Definition Line_lookNextChar (l : Line) (offset : nat) : option ascii :=
  if (pos_ l + offset <=? len_ l)%nat then string_at (str_ l) (pos_ l + offset)
  else Some NUL.
Definition Line_isValid (l : Line) : bool := (pos_ l <? len_ l)%nat.
Definition Line_isSpace (l : Line) : option bool := isspace <$> Line_lookChar l.
Definition Line_isChar (l : Line) (c : ascii) : option bool :=
  (fun d => Ascii.eqb d c) <$> Line_lookChar l.
Definition Line_isOneOf (l : Line) (chars : string) : option bool :=
  strchr chars <$> Line_lookChar l.

(** [while (pos_ < len_ && isSpace()) ++pos_]; at most [len_] rounds. *)
Fixpoint Line_skipSpace_loop (n : nat) (l : Line) : option Line :=
  if Line_isValid l then
    b ← Line_isSpace l;
    if b : bool then
      match n with
      | O => Some l
      | S n' => Line_skipSpace_loop n' (Line_skipChar l)
      end
    else Some l
  else Some l.
Definition Line_skipSpace (l : Line) : option Line := Line_skipSpace_loop (len_ l) l.

Definition Line_insert (l : Line) (str : string) : Line :=
  mkLine (String.substring 0 (pos_ l) (str_ l) ++ str ++
          String.substring (pos_ l) (String.length (str_ l) - pos_ l) (str_ l))
         (pos_ l) (len_ l + String.length str).

(** ** [class File]

    An open stream is the text still to be read and its end-of-file
    indicator; [fp_ = nullptr] is [None]. *)

Record File := mkFile { filename_ : string; fp_ : option (string * bool) }.

Definition File_new (filename : string) : File := mkFile filename None.
Definition File_isValid (f : File) : bool := bool_decide (is_Some (fp_ f)).
Definition File_close (f : File) : File := mkFile (filename_ f) None.

(** The [fgetc] loop of [readLine]: characters up to and including the
    next newline; reading at the end sets the end-of-file indicator. *)
Fixpoint File_readLine_loop (rest : string) (eof : bool) (line : Line)
  : Line * (string * bool) :=
  match rest with
  | EmptyString => (line, (EmptyString, true))
  | String c rest' =>
      if Ascii.eqb c LF then (Line_addChar line c, (rest', eof))
      else File_readLine_loop rest' eof (Line_addChar line c)
  end.

Definition File_readLine (f : File) (line : Line) : bool * File * Line :=
  match fp_ f with
  | None => (false, f, line)
  | Some (rest, eof) =>
      if eof then (false, f, line)
      else let '(line', fp') := File_readLine_loop rest eof Line_clear in
           (true, mkFile (filename_ f) (Some fp'), line')
  end.

(** ** What the program takes from outside the repository *)

(** Abnormal ends: a failed [assert], and the undefined behaviours the
    model detects. *)
Inductive Fault :=
| AssertionFailed
| NullPointer
| OutOfRange
| DivisionFault
| WrongCast.

Class Platform := {
  double : Type;
  double_of_int : Z -> double;
  int_of_double : double -> Z;
  double_nonzero : double -> bool;
  dadd : double -> double -> double;
  dsub : double -> double -> double;
  dmul : double -> double -> double;
  ddiv : double -> double -> double;
  dneg : double -> double;
  dfabs : double -> double;
  dlt : double -> double -> bool;
  double_print : double -> string;
  atof : string -> double;
  object_addr : nat -> Z
}.

(** A platform whose [double] holds integers only and whose objects lie
    16 bytes apart.  The programs run on it below use no real number. *)
Definition integral_platform : Platform := {|
  double := Z;
  double_of_int := fun i => i;
  int_of_double := fun r => r;
  double_nonzero := fun r => negb (r =? 0);
  dadd := Z.add;
  dsub := Z.sub;
  dmul := Z.mul;
  ddiv := Z.quot;
  dneg := Z.opp;
  dfabs := Z.abs;
  dlt := Z.ltb;
  double_print := int_print;
  atof := fun _ => 0;
  object_addr := fun a => 16 * Z.of_nat a
|}.

Section CForth.

Context {platform : Platform}.

(** ** [class Number]: boolean, integer or real *)

Inductive Number :=
| Boolean (b : bool)
| Integer (i : Z)
| Real (r : double).

Definition Number_makeBoolean (b : bool) : Number := Boolean b.
Definition Number_makeInteger (i : Z) : Number := Integer i.
Definition Number_makeReal (r : double) : Number := Real r.

(** [Number()]: integer zero. *)
Definition Number_new : Number := Integer 0.

Definition Number_isBoolean (n : Number) : bool :=
  match n with Boolean _ => true | _ => false end.
Definition Number_isInteger (n : Number) : bool :=
  match n with Integer _ => true | _ => false end.
Definition Number_isReal (n : Number) : bool :=
  match n with Real _ => true | _ => false end.

Definition Number_boolean (n : Number) : bool :=
  match n with
  | Boolean b => b
  | Integer i => negb (i =? 0)
  | Real r => double_nonzero r
  end.

Definition Number_integer (n : Number) : Z :=
  match n with
  | Boolean b => if b then 1 else 0
  | Integer i => i
  | Real r => int_of_double r
  end.

Definition Number_real (n : Number) : double :=
  match n with
  | Real r => r
  | _ => double_of_int (Number_integer n)
  end.

Definition Number_abs (n : Number) : Number :=
  if negb (Number_isReal n) then Number_makeInteger (to_int (Z.abs (Number_integer n)))
  else Number_makeReal (dfabs (Number_real n)).

Definition Number_neg (n : Number) : Number :=
  if negb (Number_isReal n) then Number_makeInteger (to_int (- Number_integer n))
  else Number_makeReal (dneg (Number_real n)).

Definition Number_Not (n : Number) : Number :=
  if Number_isBoolean n then Number_makeBoolean (negb (Number_boolean n))
  else Number_makeInteger (Z.lnot (Number_integer n)).

Definition Number_cmp (n1 n2 : Number) : Z :=
  if negb (Number_isReal n1) && negb (Number_isReal n2) then
    if Number_integer n1 >? Number_integer n2 then 1
    else if Number_integer n1 <? Number_integer n2 then -1
    else 0
  else
    if dlt (Number_real n2) (Number_real n1) then 1
    else if dlt (Number_real n1) (Number_real n2) then -1
    else 0.

Definition Number_inc (n i : Number) : Number :=
  if negb (Number_isReal n) && negb (Number_isReal i)
  then Integer (to_int (Number_integer n + Number_integer i))
  else Real (dadd (Number_real n) (Number_real i)).

(** [os << (isInteger() ? integer() : real())]: both arms of the
    conditional have type [double], so an integer too is written as one. *)
Definition Number_print (n : Number) : string :=
  if Number_isBoolean n then (if Number_boolean n then "TRUE" else "FALSE")
  else double_print (if Number_isInteger n then double_of_int (Number_integer n)
                     else Number_real n).

(** The operation structs of [Number]: one function on [int] and one on
    [double] each.  Integer division traps on a zero divisor and on
    [INT_MIN / -1]. *)
Record Op := mkOp {
  exec_int : Z -> Z -> Fault + Z;
  exec_double : double -> double -> Fault + double
}.

Definition int_div (a b : Z) : Fault + Z :=
  if b =? 0 then inl DivisionFault
  else if (a =? INT_MIN) && (b =? -1) then inl DivisionFault
  else inr (Z.quot a b).

Definition Plus : Op :=
  mkOp (fun a b => inr (to_int (a + b))) (fun a b => inr (dadd a b)).
Definition Minus : Op :=
  mkOp (fun a b => inr (to_int (a - b))) (fun a b => inr (dsub a b)).
Definition Times : Op :=
  mkOp (fun a b => inr (to_int (a * b))) (fun a b => inr (dmul a b)).
Definition Divide : Op :=
  mkOp int_div (fun a b => inr (ddiv a b)).

(** [assert(b != T(0)); int factor = int(a/b); return a - (b*factor);] *)
Definition Mod : Op :=
  mkOp (fun a b =>
          if b =? 0 then inl AssertionFailed
          else match int_div a b with
               | inl f => inl f
               | inr q => let factor := to_int q in inr (to_int (a - to_int (b * factor)))
               end)
       (fun a b =>
          if negb (double_nonzero b) then inl AssertionFailed
          else let factor := to_int (int_of_double (ddiv a b)) in
               inr (dsub a (dmul b (double_of_int factor)))).

Definition Min : Op :=
  mkOp (fun a b => inr (if b <? a then b else a))
       (fun a b => inr (if dlt b a then b else a)).
Definition Max : Op :=
  mkOp (fun a b => inr (if a <? b then b else a))
       (fun a b => inr (if dlt a b then b else a)).

Definition Number_doOp (n1 n2 : Number) (op : Op) : Fault + Number :=
  if negb (Number_isReal n1) && negb (Number_isReal n2) then
    match exec_int op (Number_integer n1) (Number_integer n2) with
    | inl f => inl f
    | inr i => inr (Integer i)
    end
  else
    match exec_double op (Number_real n1) (Number_real n2) with
    | inl f => inl f
    | inr r => inr (Real r)
    end.

Definition Number_plus n1 n2 := Number_doOp n1 n2 Plus.
Definition Number_minus n1 n2 := Number_doOp n1 n2 Minus.
Definition Number_times n1 n2 := Number_doOp n1 n2 Times.
Definition Number_divide n1 n2 := Number_doOp n1 n2 Divide.
Definition Number_mod n1 n2 := Number_doOp n1 n2 Mod.
Definition Number_min n1 n2 := Number_doOp n1 n2 Min.
Definition Number_max n1 n2 := Number_doOp n1 n2 Max.

(** [doAnd], [doOr], [doXor] work on [int]; two booleans are promoted to
    0 and 1 and the result converted back. *)
Definition Number_doBoolOp (n1 n2 : Number) (op : Z -> Z -> Z) : Number :=
  if Number_isBoolean n1 && Number_isBoolean n2 then
    Number_makeBoolean
      (negb (op (if Number_boolean n1 then 1 else 0) (if Number_boolean n2 then 1 else 0) =? 0))
  else Number_makeInteger (op (Number_integer n1) (Number_integer n2)).

Definition Number_And n1 n2 := Number_doBoolOp n1 n2 Z.land.
Definition Number_Or n1 n2 := Number_doBoolOp n1 n2 Z.lor.
Definition Number_Xor n1 n2 := Number_doBoolOp n1 n2 Z.lxor.

(** ** Tokens

    A [TokenP] is a [std::shared_ptr<Token>]: null, or the index of an
    object of the store. *)

Inductive TokenP := null | ptr (a : nat).

Inductive BuiltinType :=
| DUP_BUILTIN | DROP_BUILTIN | SWAP_BUILTIN | OVER_BUILTIN | ROT_BUILTIN
| PICK_BUILTIN | ROLL_BUILTIN | QDUP_BUILTIN | DEPTH_BUILTIN
| POP_RET_BUILTIN | PUSH_RET_BUILTIN | COPY_RET_BUILTIN
| LESS_BUILTIN | EQUAL_BUILTIN | GREATER_BUILTIN | ULESS_BUILTIN | NOT_BUILTIN
| PLUS_BUILTIN | MINUS_BUILTIN | TIMES_BUILTIN | DIVIDE_BUILTIN | MOD_BUILTIN
| DMOD_BUILTIN | PLUS1_BUILTIN | PLUS2_BUILTIN | MULDIV_BUILTIN | MAX_BUILTIN
| MIN_BUILTIN | ABS_BUILTIN | NEGATE_BUILTIN | AND_BUILTIN | OR_BUILTIN
| XOR_BUILTIN
| FETCH_BUILTIN | STORE_BUILTIN | PFETCH_BUILTIN | ADDSTORE_BUILTIN
| MOVE_BUILTIN | FILL_BUILTIN
| DO_BUILTIN | LOOP_BUILTIN | ILOOP_BUILTIN | I_BUILTIN | J_BUILTIN
| LEAVE_BUILTIN | IF_BUILTIN | ELSE_BUILTIN | THEN_BUILTIN | BEGIN_BUILTIN
| UNTIL_BUILTIN | WHILE_BUILTIN | REPEAT_BUILTIN
| EMIT_BUILTIN | PRINTTO_BUILTIN | TYPE_BUILTIN | COUNT_BUILTIN
| TRAILING_BUILTIN | KEY_BUILTIN | EXPECT_BUILTIN | QUERY_BUILTIN | WORD_BUILTIN
| DECIMAL_BUILTIN | PRINT_BUILTIN | PSTACK_BUILTIN
| LOAD_BUILTIN
| DEFINE_BUILTIN | VARIABLE_BUILTIN | CONSTANT_BUILTIN | CREATE_BUILTIN
| COMMA_BUILTIN | DOES_BUILTIN | FORGET_BUILTIN
| ALLOT_BUILTIN
| COMMENT_BUILTIN | HERE_BUILTIN | ABORT_BUILTIN | QUIT_BUILTIN | DEBUG_BUILTIN.

(** The name each builtin class passes to [Builtin]'s constructor. *)
Definition Builtin_name (t : BuiltinType) : string :=
  match t with
  | DUP_BUILTIN => "DUP" | DROP_BUILTIN => "DROP" | SWAP_BUILTIN => "SWAP"
  | OVER_BUILTIN => "OVER" | ROT_BUILTIN => "ROT" | PICK_BUILTIN => "PICK"
  | ROLL_BUILTIN => "ROLL" | QDUP_BUILTIN => "?DUP" | DEPTH_BUILTIN => "DEPTH"
  | POP_RET_BUILTIN => ">R" | PUSH_RET_BUILTIN => "R>" | COPY_RET_BUILTIN => "e@"
  | LESS_BUILTIN => "<" | EQUAL_BUILTIN => "=" | GREATER_BUILTIN => ">"
  | ULESS_BUILTIN => "U<" | NOT_BUILTIN => "NOT"
  | PLUS_BUILTIN => "+" | MINUS_BUILTIN => "-" | TIMES_BUILTIN => "*"
  | DIVIDE_BUILTIN => "/" | MOD_BUILTIN => "MOD" | DMOD_BUILTIN => "/MOD"
  | PLUS1_BUILTIN => "1+" | PLUS2_BUILTIN => "2+" | MULDIV_BUILTIN => "*/"
  | MAX_BUILTIN => "MAX" | MIN_BUILTIN => "MIN" | ABS_BUILTIN => "ABS"
  | NEGATE_BUILTIN => "NEGATE" | AND_BUILTIN => "AND" | OR_BUILTIN => "OR"
  | XOR_BUILTIN => "XOR"
  | FETCH_BUILTIN => "@" | STORE_BUILTIN => "!" | PFETCH_BUILTIN => "?"
  | ADDSTORE_BUILTIN => "+!" | MOVE_BUILTIN => "MOVE" | FILL_BUILTIN => "FILL"
  | DO_BUILTIN => "DO" | LOOP_BUILTIN => "LOOP" | ILOOP_BUILTIN => "+LOOP"
  | I_BUILTIN => "I" | J_BUILTIN => "J" | LEAVE_BUILTIN => "LEAVE"
  | IF_BUILTIN => "IF" | ELSE_BUILTIN => "ELSE" | THEN_BUILTIN => "THEN"
  | BEGIN_BUILTIN => "BEGIN" | UNTIL_BUILTIN => "UNTIL" | WHILE_BUILTIN => "WHILE"
  | REPEAT_BUILTIN => "REPEAT"
  | EMIT_BUILTIN => "EMIT" | PRINTTO_BUILTIN => String "." (String "034" EmptyString)
  | TYPE_BUILTIN => "TYPE" | COUNT_BUILTIN => "COUNT"
  | TRAILING_BUILTIN => "-TRAILING" | KEY_BUILTIN => "KEY"
  | EXPECT_BUILTIN => "EXPECT" | QUERY_BUILTIN => "QUERY" | WORD_BUILTIN => "WORD"
  | DECIMAL_BUILTIN => "DECIMAL" | PRINT_BUILTIN => "." | PSTACK_BUILTIN => "PSTACK"
  | LOAD_BUILTIN => "LOAD"
  | DEFINE_BUILTIN => ":" | VARIABLE_BUILTIN => "VARIABLE"
  | CONSTANT_BUILTIN => "CONSTANT" | CREATE_BUILTIN => "CREATE"
  | COMMA_BUILTIN => "," | DOES_BUILTIN => "DOES>" | FORGET_BUILTIN => "FORGET"
  | ALLOT_BUILTIN => "ALLOT"
  | COMMENT_BUILTIN => "(" | HERE_BUILTIN => "HERE" | ABORT_BUILTIN => "ABORT"
  | QUIT_BUILTIN => "QUIT" | DEBUG_BUILTIN => "DEBUG"
  end.

(** The order of the [defBuiltin] calls in [lookupBuiltin]. *)
Definition all_builtins : list BuiltinType :=
  [ DUP_BUILTIN; DROP_BUILTIN; SWAP_BUILTIN; OVER_BUILTIN; ROT_BUILTIN;
    PICK_BUILTIN; ROLL_BUILTIN; QDUP_BUILTIN; DEPTH_BUILTIN;
    POP_RET_BUILTIN; PUSH_RET_BUILTIN; COPY_RET_BUILTIN;
    LESS_BUILTIN; EQUAL_BUILTIN; GREATER_BUILTIN; ULESS_BUILTIN; NOT_BUILTIN;
    PLUS_BUILTIN; MINUS_BUILTIN; TIMES_BUILTIN; DIVIDE_BUILTIN; MOD_BUILTIN;
    DMOD_BUILTIN; PLUS1_BUILTIN; PLUS2_BUILTIN; MULDIV_BUILTIN; MAX_BUILTIN;
    MIN_BUILTIN; ABS_BUILTIN; NEGATE_BUILTIN; AND_BUILTIN; OR_BUILTIN;
    XOR_BUILTIN;
    FETCH_BUILTIN; STORE_BUILTIN; PFETCH_BUILTIN; ADDSTORE_BUILTIN;
    MOVE_BUILTIN; FILL_BUILTIN;
    DO_BUILTIN; LOOP_BUILTIN; ILOOP_BUILTIN; I_BUILTIN; J_BUILTIN;
    LEAVE_BUILTIN; IF_BUILTIN; ELSE_BUILTIN; THEN_BUILTIN; BEGIN_BUILTIN;
    UNTIL_BUILTIN; WHILE_BUILTIN; REPEAT_BUILTIN;
    EMIT_BUILTIN; PRINTTO_BUILTIN; TYPE_BUILTIN; COUNT_BUILTIN;
    TRAILING_BUILTIN; KEY_BUILTIN; EXPECT_BUILTIN; QUERY_BUILTIN; WORD_BUILTIN;
    DECIMAL_BUILTIN; PRINT_BUILTIN; PSTACK_BUILTIN;
    LOAD_BUILTIN;
    DEFINE_BUILTIN; VARIABLE_BUILTIN; CONSTANT_BUILTIN; CREATE_BUILTIN;
    COMMA_BUILTIN; DOES_BUILTIN; FORGET_BUILTIN;
    ALLOT_BUILTIN;
    COMMENT_BUILTIN; HERE_BUILTIN; ABORT_BUILTIN; QUIT_BUILTIN; DEBUG_BUILTIN ].

Record IfTokens := mkIfTokens { ifTokens : list TokenP; elseTokens : list TokenP }.

Record DoTokens := mkDoTokens {
  do_tokens : list TokenP;
  incToken : bool;
  do_leave : bool
}.

Record BeginTokens := mkBeginTokens {
  begin_tokens : list TokenP;
  whileTokens : list TokenP;
  is_until : bool;
  is_while : bool;
  begin_leave : bool
}.

(** The member a [MOD_BUILTIN_DEF] class adds to [Builtin]. *)
Inductive BuiltinValue :=
| NoValue
| DoValue (v : DoTokens)
| IfValue (v : IfTokens)
| BeginValue (v : BeginTokens)
| StringValue (v : string)
| TokensValue (v : list TokenP).

(** [VALUE()], the default argument of a [MOD_BUILTIN_DEF] constructor. *)
Definition Builtin_default_value (t : BuiltinType) : BuiltinValue :=
  match t with
  | DO_BUILTIN => DoValue (mkDoTokens [] false false)
  | IF_BUILTIN => IfValue (mkIfTokens [] [])
  | BEGIN_BUILTIN => BeginValue (mkBeginTokens [] [] false false false)
  | PRINTTO_BUILTIN | LOAD_BUILTIN | COMMENT_BUILTIN => StringValue ""
  | DOES_BUILTIN => TokensValue []
  | _ => NoValue
  end.

Record Builtin := mkBuiltin { builtinType_ : BuiltinType; value_ : BuiltinValue }.

Record Variable_ := mkVariable {
  var_name : string;
  values_ : list TokenP;
  var_ind : Z;
  constant_ : bool;
  var_execTokens : list TokenP
}.

Record VariableRef := mkVariableRef { var_ : TokenP; ref_ind : Z }.

Record Procedure := mkProcedure { proc_name : string; proc_tokens : list TokenP }.

(** The classes derived from [Token]. *)
Inductive Token :=
| BooleanToken (b_ : bool)
| NumberToken (number_ : Number)
| BuiltinToken (b : Builtin)
| VariableToken (v : Variable_)
| VariableRefToken (r : VariableRef)
| ProcedureToken (p : Procedure).

Definition Token_isBoolean (t : Token) : bool :=
  match t with BooleanToken _ => true | _ => false end.
Definition Token_isNumber (t : Token) : bool :=
  match t with NumberToken _ => true | _ => false end.
Definition Token_isBuiltin (t : Token) : bool :=
  match t with BuiltinToken _ => true | _ => false end.
Definition Token_isVarBase (t : Token) : bool :=
  match t with VariableToken _ | VariableRefToken _ => true | _ => false end.
Definition Token_isProcedure (t : Token) : bool :=
  match t with ProcedureToken _ => true | _ => false end.

(** [VarBase::isConstant] is overridden by [Variable] only. *)
Definition VarBase_isConstant (t : Token) : bool :=
  match t with VariableToken v => constant_ v | _ => false end.

Definition Token_isVariable (t : Token) : bool :=
  match t with VariableToken _ => true | _ => false end.

(** [Token::isVarRef]: a [VarBase] that is not constant. *)
Definition Token_isVarRef (t : Token) : bool :=
  if negb (Token_isVarBase t) then false else negb (VarBase_isConstant t).

(** [isImmutable] is declared by [Token] and overridden by no class. *)
Definition Token_isImmutable (t : Token) : bool := true.

Definition Token_isExecutable (t : Token) : bool :=
  match t with BuiltinToken _ | ProcedureToken _ => true | _ => false end.

Definition Token_isNull (t : Token) : bool :=
  match t with
  | BuiltinToken b => match builtinType_ b with COMMENT_BUILTIN => true | _ => false end
  | _ => false
  end.

Definition Token_isBlock (t : Token) : bool :=
  match t with
  | BuiltinToken b =>
      match builtinType_ b with
      | DO_BUILTIN | IF_BUILTIN | BEGIN_BUILTIN => true
      | _ => false
      end
  | _ => false
  end.

Definition Builtin_hasModifier (b : Builtin) : bool :=
  match builtinType_ b with
  | DO_BUILTIN | IF_BUILTIN | BEGIN_BUILTIN | PRINTTO_BUILTIN | LOAD_BUILTIN
  | DOES_BUILTIN | COMMENT_BUILTIN => true
  | _ => false
  end.

(** ** The globals of [CForth.cpp]

    [heap] is the object store.  A [std::vector] is a list whose last
    element is [back()].  [cout] and [cerr] are what was written to
    [std::cout] and [std::cerr], [cin] what is still to be read from
    [stdin], [files] the contents [fopen] finds, and [HOME] the result of
    [getenv("HOME")]. *)

Inductive ParseState := INTERP_STATE | COMPILE_STATE.

Record Globals := mkGlobals {
  heap : list Token;
  lastError_ : State;
  debug_ : bool;
  ignore_base_ : bool;
  file_ : File;
  lines_ : list Line;
  line_ : Line;
  tokens_ : list TokenP;
  execTokens_ : list TokenP;
  retTokens_ : list TokenP;
  variables_ : gmap string (list TokenP);
  procedures_ : gmap string (list TokenP);
  builtins_ : gmap string TokenP;
  currentVar_ : TokenP;
  wordVar_ : TokenP;
  parseState_ : ParseState;
  parseStateStack_ : list ParseState;
  cout : string;
  cerr : string;
  cin : string;
  files : gmap string string;
  HOME : option string
}.

Definition set_heap (x : list Token) (g : Globals) : Globals :=
  mkGlobals x (lastError_ g) (debug_ g) (ignore_base_ g) (file_ g) (lines_ g) (line_ g)
    (tokens_ g) (execTokens_ g) (retTokens_ g) (variables_ g) (procedures_ g)
    (builtins_ g) (currentVar_ g) (wordVar_ g) (parseState_ g) (parseStateStack_ g)
    (cout g) (cerr g) (cin g) (files g) (HOME g).
Definition set_lastError_ (x : State) (g : Globals) : Globals :=
  mkGlobals (heap g) x (debug_ g) (ignore_base_ g) (file_ g) (lines_ g) (line_ g)
    (tokens_ g) (execTokens_ g) (retTokens_ g) (variables_ g) (procedures_ g)
    (builtins_ g) (currentVar_ g) (wordVar_ g) (parseState_ g) (parseStateStack_ g)
    (cout g) (cerr g) (cin g) (files g) (HOME g).
Definition set_debug_ (x : bool) (g : Globals) : Globals :=
  mkGlobals (heap g) (lastError_ g) x (ignore_base_ g) (file_ g) (lines_ g) (line_ g)
    (tokens_ g) (execTokens_ g) (retTokens_ g) (variables_ g) (procedures_ g)
    (builtins_ g) (currentVar_ g) (wordVar_ g) (parseState_ g) (parseStateStack_ g)
    (cout g) (cerr g) (cin g) (files g) (HOME g).
Definition set_ignore_base_ (x : bool) (g : Globals) : Globals :=
  mkGlobals (heap g) (lastError_ g) (debug_ g) x (file_ g) (lines_ g) (line_ g)
    (tokens_ g) (execTokens_ g) (retTokens_ g) (variables_ g) (procedures_ g)
    (builtins_ g) (currentVar_ g) (wordVar_ g) (parseState_ g) (parseStateStack_ g)
    (cout g) (cerr g) (cin g) (files g) (HOME g).
Definition set_file_ (x : File) (g : Globals) : Globals :=
  mkGlobals (heap g) (lastError_ g) (debug_ g) (ignore_base_ g) x (lines_ g) (line_ g)
    (tokens_ g) (execTokens_ g) (retTokens_ g) (variables_ g) (procedures_ g)
    (builtins_ g) (currentVar_ g) (wordVar_ g) (parseState_ g) (parseStateStack_ g)
    (cout g) (cerr g) (cin g) (files g) (HOME g).
Definition set_lines_ (x : list Line) (g : Globals) : Globals :=
  mkGlobals (heap g) (lastError_ g) (debug_ g) (ignore_base_ g) (file_ g) x (line_ g)
    (tokens_ g) (execTokens_ g) (retTokens_ g) (variables_ g) (procedures_ g)
    (builtins_ g) (currentVar_ g) (wordVar_ g) (parseState_ g) (parseStateStack_ g)
    (cout g) (cerr g) (cin g) (files g) (HOME g).
Definition set_line_ (x : Line) (g : Globals) : Globals :=
  mkGlobals (heap g) (lastError_ g) (debug_ g) (ignore_base_ g) (file_ g) (lines_ g) x
    (tokens_ g) (execTokens_ g) (retTokens_ g) (variables_ g) (procedures_ g)
    (builtins_ g) (currentVar_ g) (wordVar_ g) (parseState_ g) (parseStateStack_ g)
    (cout g) (cerr g) (cin g) (files g) (HOME g).
Definition set_tokens_ (x : list TokenP) (g : Globals) : Globals :=
  mkGlobals (heap g) (lastError_ g) (debug_ g) (ignore_base_ g) (file_ g) (lines_ g)
    (line_ g) x (execTokens_ g) (retTokens_ g) (variables_ g) (procedures_ g)
    (builtins_ g) (currentVar_ g) (wordVar_ g) (parseState_ g) (parseStateStack_ g)
    (cout g) (cerr g) (cin g) (files g) (HOME g).
Definition set_execTokens_ (x : list TokenP) (g : Globals) : Globals :=
  mkGlobals (heap g) (lastError_ g) (debug_ g) (ignore_base_ g) (file_ g) (lines_ g)
    (line_ g) (tokens_ g) x (retTokens_ g) (variables_ g) (procedures_ g) (builtins_ g)
    (currentVar_ g) (wordVar_ g) (parseState_ g) (parseStateStack_ g) (cout g) (cerr g)
    (cin g) (files g) (HOME g).
Definition set_retTokens_ (x : list TokenP) (g : Globals) : Globals :=
  mkGlobals (heap g) (lastError_ g) (debug_ g) (ignore_base_ g) (file_ g) (lines_ g)
    (line_ g) (tokens_ g) (execTokens_ g) x (variables_ g) (procedures_ g) (builtins_ g)
    (currentVar_ g) (wordVar_ g) (parseState_ g) (parseStateStack_ g) (cout g) (cerr g)
    (cin g) (files g) (HOME g).
Definition set_variables_ (x : gmap string (list TokenP)) (g : Globals) : Globals :=
  mkGlobals (heap g) (lastError_ g) (debug_ g) (ignore_base_ g) (file_ g) (lines_ g)
    (line_ g) (tokens_ g) (execTokens_ g) (retTokens_ g) x (procedures_ g) (builtins_ g)
    (currentVar_ g) (wordVar_ g) (parseState_ g) (parseStateStack_ g) (cout g) (cerr g)
    (cin g) (files g) (HOME g).
Definition set_procedures_ (x : gmap string (list TokenP)) (g : Globals) : Globals :=
  mkGlobals (heap g) (lastError_ g) (debug_ g) (ignore_base_ g) (file_ g) (lines_ g)
    (line_ g) (tokens_ g) (execTokens_ g) (retTokens_ g) (variables_ g) x (builtins_ g)
    (currentVar_ g) (wordVar_ g) (parseState_ g) (parseStateStack_ g) (cout g) (cerr g)
    (cin g) (files g) (HOME g).
Definition set_builtins_ (x : gmap string TokenP) (g : Globals) : Globals :=
  mkGlobals (heap g) (lastError_ g) (debug_ g) (ignore_base_ g) (file_ g) (lines_ g)
    (line_ g) (tokens_ g) (execTokens_ g) (retTokens_ g) (variables_ g) (procedures_ g)
    x (currentVar_ g) (wordVar_ g) (parseState_ g) (parseStateStack_ g) (cout g)
    (cerr g) (cin g) (files g) (HOME g).
Definition set_currentVar_ (x : TokenP) (g : Globals) : Globals :=
  mkGlobals (heap g) (lastError_ g) (debug_ g) (ignore_base_ g) (file_ g) (lines_ g)
    (line_ g) (tokens_ g) (execTokens_ g) (retTokens_ g) (variables_ g) (procedures_ g)
    (builtins_ g) x (wordVar_ g) (parseState_ g) (parseStateStack_ g) (cout g) (cerr g)
    (cin g) (files g) (HOME g).
Definition set_wordVar_ (x : TokenP) (g : Globals) : Globals :=
  mkGlobals (heap g) (lastError_ g) (debug_ g) (ignore_base_ g) (file_ g) (lines_ g)
    (line_ g) (tokens_ g) (execTokens_ g) (retTokens_ g) (variables_ g) (procedures_ g)
    (builtins_ g) (currentVar_ g) x (parseState_ g) (parseStateStack_ g) (cout g)
    (cerr g) (cin g) (files g) (HOME g).
Definition set_parseState_ (x : ParseState) (g : Globals) : Globals :=
  mkGlobals (heap g) (lastError_ g) (debug_ g) (ignore_base_ g) (file_ g) (lines_ g)
    (line_ g) (tokens_ g) (execTokens_ g) (retTokens_ g) (variables_ g) (procedures_ g)
    (builtins_ g) (currentVar_ g) (wordVar_ g) x (parseStateStack_ g) (cout g) (cerr g)
    (cin g) (files g) (HOME g).
Definition set_parseStateStack_ (x : list ParseState) (g : Globals) : Globals :=
  mkGlobals (heap g) (lastError_ g) (debug_ g) (ignore_base_ g) (file_ g) (lines_ g)
    (line_ g) (tokens_ g) (execTokens_ g) (retTokens_ g) (variables_ g) (procedures_ g)
    (builtins_ g) (currentVar_ g) (wordVar_ g) (parseState_ g) x (cout g) (cerr g)
    (cin g) (files g) (HOME g).
Definition set_cout (x : string) (g : Globals) : Globals :=
  mkGlobals (heap g) (lastError_ g) (debug_ g) (ignore_base_ g) (file_ g) (lines_ g)
    (line_ g) (tokens_ g) (execTokens_ g) (retTokens_ g) (variables_ g) (procedures_ g)
    (builtins_ g) (currentVar_ g) (wordVar_ g) (parseState_ g) (parseStateStack_ g) x
    (cerr g) (cin g) (files g) (HOME g).
Definition set_cerr (x : string) (g : Globals) : Globals :=
  mkGlobals (heap g) (lastError_ g) (debug_ g) (ignore_base_ g) (file_ g) (lines_ g)
    (line_ g) (tokens_ g) (execTokens_ g) (retTokens_ g) (variables_ g) (procedures_ g)
    (builtins_ g) (currentVar_ g) (wordVar_ g) (parseState_ g) (parseStateStack_ g)
    (cout g) x (cin g) (files g) (HOME g).
Definition set_cin (x : string) (g : Globals) : Globals :=
  mkGlobals (heap g) (lastError_ g) (debug_ g) (ignore_base_ g) (file_ g) (lines_ g)
    (line_ g) (tokens_ g) (execTokens_ g) (retTokens_ g) (variables_ g) (procedures_ g)
    (builtins_ g) (currentVar_ g) (wordVar_ g) (parseState_ g) (parseStateStack_ g)
    (cout g) (cerr g) x (files g) (HOME g).
Definition set_files (x : gmap string string) (g : Globals) : Globals :=
  mkGlobals (heap g) (lastError_ g) (debug_ g) (ignore_base_ g) (file_ g) (lines_ g)
    (line_ g) (tokens_ g) (execTokens_ g) (retTokens_ g) (variables_ g) (procedures_ g)
    (builtins_ g) (currentVar_ g) (wordVar_ g) (parseState_ g) (parseStateStack_ g)
    (cout g) (cerr g) (cin g) x (HOME g).
Definition set_HOME (x : option string) (g : Globals) : Globals :=
  mkGlobals (heap g) (lastError_ g) (debug_ g) (ignore_base_ g) (file_ g) (lines_ g)
    (line_ g) (tokens_ g) (execTokens_ g) (retTokens_ g) (variables_ g) (procedures_ g)
    (builtins_ g) (currentVar_ g) (wordVar_ g) (parseState_ g) (parseStateStack_ g)
    (cout g) (cerr g) (cin g) (files g) x.

(** The state at program start: the initialisers of the globals. *)
Definition Globals_init (input : string) (fs : gmap string string) (home : option string)
  : Globals :=
  mkGlobals [] (mkState false "Unknown Error") false false
            (File_new "") [] (Line_new "")
            [] [] []
            ∅ ∅ ∅ null null
            INTERP_STATE []
            "" "" input fs home.

(** ** Computations

    A call returns normally, leaves by an exception ([abortSignal],
    [quitSignal]), ends the program abnormally, or exhausts the bound the
    model puts on loops and recursion. *)

Inductive Signal := abortSignal | quitSignal.

Inductive Outcome (A : Type) :=
| Ret (a : A) (g : Globals)
| Throw (e : Signal) (g : Globals)
| Abend (f : Fault)
| NoFuel.
Arguments Ret {A} a g.
Arguments Throw {A} e g.
Arguments Abend {A} f.
Arguments NoFuel {A}.

Definition M (A : Type) : Type := Globals -> Outcome A.

Definition ret {A} (a : A) : M A := fun g => Ret a g.

Definition bind {A B} (m : M A) (k : A -> M B) : M B :=
  fun g =>
    match m g with
    | Ret a g' => k a g'
    | Throw e g' => Throw e g'
    | Abend f => Abend f
    | NoFuel => NoFuel
    end.

Definition throw {A} (e : Signal) : M A := fun g => Throw e g.
Definition abend {A} (f : Fault) : M A := fun _ => Abend f.
Definition nofuel {A} : M A := fun _ => NoFuel.
Definition get : M Globals := fun g => Ret g g.
Definition gets {A} (f : Globals -> A) : M A := fun g => Ret (f g) g.
Definition modify (f : Globals -> Globals) : M unit := fun g => Ret tt (f g).

(** [try { m } catch (...) { }] *)
Definition catch_all (m : M unit) : M unit :=
  fun g =>
    match m g with
    | Throw _ g' => Ret tt g'
    | o => o
    end.

(** A value whose absence is undefined behaviour. *)
Definition defined {A} (f : Fault) (o : option A) : M A :=
  match o with Some a => ret a | None => abend f end.

Definition no_fault {A} (r : Fault + A) : M A :=
  match r with inl f => abend f | inr a => ret a end.

#[local] Instance M_ret : MRet M := @ret.
#[local] Instance M_bind : MBind M := fun A B k m => bind m k.

(** [State::error]: records the failure in [lastError_] and returns it. *)
Definition State_error (m : string) : M State :=
  let st := mkState false m in
  modify (set_lastError_ st);; ret st.

Definition State_lastError : M State := gets lastError_.

(** [if (! f(...)) return State::lastError();] for an [f] with an output
    parameter, and for one without. *)
Definition checked {A} (m : M (State * A)) (k : A -> M State) : M State :=
  r ← m; if valid r.1 then k r.2 else State_lastError.

Definition checked_ (m : M State) (k : M State) : M State :=
  st ← m; if valid st then k else State_lastError.

Notation "'check' x ← m ; k" := (checked m (fun x => k))
  (at level 20, x name, m at level 100, k at level 200, only parsing).
Notation "'ensure' m ; k" := (checked_ m k)
  (at level 20, m at level 100, k at level 200, only parsing).

(** *** The object store *)

(** [std::make_shared]: a new object. *)
Definition alloc (t : Token) : M TokenP :=
  g ← get;
  modify (set_heap (heap g ++ [t]));; ret (ptr (length (heap g))).

(** [*p]: a null pointer has no object. *)
Definition deref (p : TokenP) : M Token :=
  match p with
  | null => abend NullPointer
  | ptr a => g ← get; defined NullPointer (heap g !! a)
  end.

(** Assignment to the object behind [p]. *)
Definition update (p : TokenP) (t : Token) : M unit :=
  match p with
  | null => abend NullPointer
  | ptr a => modify (fun g => set_heap (<[a := t]> (heap g)) g)
  end.

(** [static_pointer_cast] to a class the object does not have is
    undefined. *)
Definition as_Number (t : Token) : M Number :=
  match t with NumberToken n => ret n | _ => abend WrongCast end.
Definition as_Boolean (t : Token) : M bool :=
  match t with BooleanToken b => ret b | _ => abend WrongCast end.
Definition as_Builtin (t : Token) : M Builtin :=
  match t with BuiltinToken b => ret b | _ => abend WrongCast end.
Definition as_Variable (t : Token) : M Variable_ :=
  match t with VariableToken v => ret v | _ => abend WrongCast end.
Definition as_Procedure (t : Token) : M Procedure :=
  match t with ProcedureToken p => ret p | _ => abend WrongCast end.

(** *** [std::vector] *)

(** [v[i]] for an index computed in [size_t]; outside the vector the
    access is undefined. *)
Definition vec_at {A} (v : list A) (i : Z) : option A :=
  if (0 <=? i) then v !! Z.to_nat i else None.

(** [v[i] = x] *)
Definition vec_set {A} (v : list A) (i : Z) (x : A) : option (list A) :=
  if (0 <=? i) && (i <? Z.of_nat (length v)) then Some (<[Z.to_nat i := x]> v) else None.

Definition vec_back {A} (v : list A) : option A := last v.

Definition vec_pop_back {A} (v : list A) : option (list A) :=
  match v with [] => None | _ => Some (removelast v) end.

Definition vec_push_back {A} (v : list A) (x : A) : list A := (v ++ [x])%list.

Definition vec_size {A} (v : list A) : Z := Z.of_nat (length v).

(** A function with an output parameter that fails: the parameter keeps
    the value [d] it had. *)
Definition failed {A} (d : A) (m : M State) : M (State * A) :=
  st ← m; ret (st, d).

Definition lastError {A} (d : A) : M (State * A) := failed d State_lastError.

Definition success {A} (a : A) : M (State * A) := ret (State_success, a).

(** *** The standard output *)

Definition write (str : string) : M unit :=
  modify (fun g => set_cout (cout g ++ str) g).

Definition endl : string := String LF EmptyString.

Definition quote : string := String "034" EmptyString.

(** *** Variables and references to them *)

(** [Variable::indValue] and [Variable::value]. *)
Definition Variable_indValue (v : Variable_) (ind : Z) : TokenP :=
  if (0 <=? ind) && (ind <? to_int (vec_size (values_ v)))
  then default null (values_ v !! Z.to_nat ind)
  else null.

Definition Variable_value (v : Variable_) : TokenP := Variable_indValue v (var_ind v).

(** [Variable::setIndValue]: [None] when the index is refused. *)
Definition Variable_setIndValue (v : Variable_) (ind : Z) (value : TokenP)
  : option Variable_ :=
  if (ind <? 0) || (ind >=? to_int (vec_size (values_ v))) then None
  else Some (mkVariable (var_name v) (<[Z.to_nat ind := value]> (values_ v))
                        (var_ind v) (constant_ v) (var_execTokens v)).

Definition Variable_length (v : Variable_) : Z :=
  to_int (to_size_t (vec_size (values_ v) - var_ind v)).

Definition Variable_addValue (v : Variable_) (token : TokenP) : Variable_ :=
  mkVariable (var_name v) (vec_push_back (values_ v) token)
             (var_ind v) (constant_ v) (var_execTokens v).

(** The virtual functions of [VarBase].  A [VariableRef] forwards to the
    object behind [var_]; [d] bounds the length of such a chain. *)
Fixpoint VarBase_indValue_at (d : nat) (p : TokenP) (ind : Z) : M TokenP :=
  t ← deref p;
  match t with
  | VariableToken v => ret (Variable_indValue v ind)
  | VariableRefToken r =>
      match d with
      | O => nofuel
      | S d' => VarBase_indValue_at d' (var_ r) (to_int (ref_ind r + ind))
      end
  | _ => abend WrongCast
  end.

Fixpoint VarBase_setIndValue_at (d : nat) (p : TokenP) (ind : Z) (value : TokenP)
  : M bool :=
  t ← deref p;
  match t with
  | VariableToken v =>
      match Variable_setIndValue v ind value with
      | Some v' => update p (VariableToken v');; ret true
      | None => ret false
      end
  | VariableRefToken r =>
      match d with
      | O => nofuel
      | S d' => VarBase_setIndValue_at d' (var_ r) (to_int (ref_ind r + ind)) value
      end
  | _ => abend WrongCast
  end.

Fixpoint VarBase_length_at (d : nat) (p : TokenP) : M Z :=
  t ← deref p;
  match t with
  | VariableToken v => ret (Variable_length v)
  | VariableRefToken r =>
      match d with
      | O => nofuel
      | S d' => n ← VarBase_length_at d' (var_ r); ret (to_int (n - ref_ind r))
      end
  | _ => abend WrongCast
  end.

Fixpoint VarBase_addr_at (d : nat) (p : TokenP) : M Z :=
  t ← deref p;
  match t, p with
  | VariableToken v, ptr a => ret (to_long (object_addr a + var_ind v))
  | VariableRefToken r, _ =>
      match d with
      | O => nofuel
      | S d' => n ← VarBase_addr_at d' (var_ r); ret (to_long (n + ref_ind r))
      end
  | _, _ => abend WrongCast
  end.

Fixpoint VarBase_name_at (d : nat) (p : TokenP) : M string :=
  t ← deref p;
  match t with
  | VariableToken v => ret (var_name v)
  | VariableRefToken r =>
      match d with
      | O => nofuel
      | S d' => VarBase_name_at d' (var_ r)
      end
  | _ => abend WrongCast
  end.

(** [indexVar(var, ind)]: a new reference; [Variable] refers to the [var]
    it is given, [VariableRef] asks the object behind [var_]. *)
Fixpoint VarBase_indexVar_at (d : nat) (p var : TokenP) (ind : Z) : M TokenP :=
  t ← deref p;
  match t with
  | VariableToken v =>
      alloc (VariableRefToken (mkVariableRef var (to_int (ind + var_ind v))))
  | VariableRefToken r =>
      match d with
      | O => nofuel
      | S d' => VarBase_indexVar_at d' (var_ r) (var_ r) (to_int (ind + ref_ind r))
      end
  | _ => abend WrongCast
  end.

(** A chain of distinct objects is no longer than the store. *)
Definition depth : M nat := gets (fun g => length (heap g)).

Definition VarBase_indValue (p : TokenP) (ind : Z) : M TokenP :=
  d ← depth; VarBase_indValue_at d p ind.
Definition VarBase_setIndValue (p : TokenP) (ind : Z) (value : TokenP) : M bool :=
  d ← depth; VarBase_setIndValue_at d p ind value.
Definition VarBase_length (p : TokenP) : M Z := d ← depth; VarBase_length_at d p.
Definition VarBase_addr (p : TokenP) : M Z := d ← depth; VarBase_addr_at d p.
Definition VarBase_name (p : TokenP) : M string := d ← depth; VarBase_name_at d p.
Definition VarBase_indexVar (p var : TokenP) (ind : Z) : M TokenP :=
  d ← depth; VarBase_indexVar_at d p var ind.

Definition VarBase_ind (p : TokenP) : M Z :=
  t ← deref p;
  match t with
  | VariableToken v => ret (var_ind v)
  | VariableRefToken r => ret (ref_ind r)
  | _ => abend WrongCast
  end.

Definition VarBase_setInd (p : TokenP) (ind : Z) : M unit :=
  t ← deref p;
  match t with
  | VariableToken v =>
      update p (VariableToken (mkVariable (var_name v) (values_ v) ind
                                          (constant_ v) (var_execTokens v)))
  | VariableRefToken r => update p (VariableRefToken (mkVariableRef (var_ r) ind))
  | _ => abend WrongCast
  end.

(** [value()] and [setValue()]: [Variable] uses its own [ind_], a
    [VariableRef] its offset into [var_]. *)
Definition VarBase_value (p : TokenP) : M TokenP :=
  t ← deref p;
  match t with
  | VariableToken v => ret (Variable_value v)
  | VariableRefToken r => VarBase_indValue (var_ r) (ref_ind r)
  | _ => abend WrongCast
  end.

Definition VarBase_setValue (p : TokenP) (value : TokenP) : M bool :=
  t ← deref p;
  match t with
  | VariableToken v => VarBase_setIndValue p (var_ind v) value
  | VariableRefToken r => VarBase_setIndValue (var_ r) (ref_ind r) value
  | _ => abend WrongCast
  end.

(** *** The number base *)

(** [lookupVariable]: the most recent variable of the name. *)
Definition lookupVariable (name : string) (g : Globals) : option TokenP :=
  match variables_ g !! name with
  | None => None
  | Some vars => last vars
  end.

(** [Variable::getInteger]: the output is zeroed before the test. *)
Definition Variable_getInteger (var : TokenP) : M (bool * Z) :=
  t ← deref var; v ← as_Variable t;
  vt ← deref (Variable_value v);
  if negb (Token_isNumber vt) then ret (false, 0)
  else n ← as_Number vt; ret (true, Number_integer n).

Definition Variable_setInteger (var : TokenP) (i : Z) : M unit :=
  token ← alloc (NumberToken (Number_makeInteger i));
  VarBase_setValue var token;; ret tt.

Definition getBase : M Z :=
  g ← get;
  if ignore_base_ g then ret 10 else
  match lookupVariable "BASE" g with
  | None => ret 10
  | Some var =>
      r ← Variable_getInteger var;
      if negb r.1 then ret r.2
      else ret (Z.min (Z.max r.2 2) 36)
  end.

Definition base_chars : string := "0123456789ABCDEFGHIJKLMNOPQRSTUVWXYZ".

Definition base_chars_size : Z := Z.of_nat (String.length base_chars).

(** [base_chars[i]] for an [int] index: converted to [size_t], so a
    negative index is far outside the string. *)
Definition base_chars_at (i : Z) : option ascii :=
  if 0 <=? i then string_at base_chars (Z.to_nat i) else None.

(** [isBaseChar(c, base, &value)]: the digit value when [c] is a digit
    of the base. *)
Definition isBaseChar (c : ascii) (base : Z) : option Z :=
  if (base <? 2) || (base >? to_int base_chars_size) then None else
  let c1 := if islower c then toupper c else c in
  match string_find base_chars c1 with
  | None => None
  | Some pos => if to_int (Z.of_nat pos) >=? base then None else Some (Z.of_nat pos)
  end.

Definition Line_isBaseChar (l : Line) (base : Z) : option bool :=
  (fun c => bool_decide (is_Some (isBaseChar c base))) <$> Line_lookChar l.

(** The loop of [toBaseInteger] over the characters left, with the
    running value in a [long]: the value, or the message of the error. *)
Fixpoint toBaseInteger_loop (str : string) (base : Z) (integer : Z) : string + Z :=
  match str with
  | EmptyString => inr integer
  | String c rest =>
      match isBaseChar c base with
      | None => inl "Invalid Char"
      | Some value =>
          let integer1 := to_long (to_long (base * integer) + value) in
          if negb (Z.quot (to_long (integer1 - value)) base =? integer)
          then inl "Overflow"
          else toBaseInteger_loop rest base integer1
      end
  end.

Definition toBaseInteger_pure (str : string) (base : Z) : string + Z :=
  if (base <? 2) || (base >? to_int base_chars_size) then inl "Invalid Base" else
  match toBaseInteger_loop str base 0 with
  | inl m => inl m
  | inr integer =>
      if (integer >? INT_MAX) || (integer <? INT_MIN) then inl "Overflow"
      else inr integer
  end.

Definition toBaseInteger (str : string) (base : Z) : M (State * Z) :=
  match toBaseInteger_pure str base with
  | inl m => failed 0 (State_error m)
  | inr integer => success integer
  end.

(** The [while (integer >= base)] loop of [toBaseString]; every round at
    least halves [integer], so the 32 rounds allowed are never used up
    for an [int]. *)
Fixpoint toBaseString_loop (k : nat) (base integer : Z) (str : string)
  : option (Z * string) :=
  if integer >=? base then
    match k with
    | O => None
    | S k' =>
        let n := Z.rem integer base in
        c ← base_chars_at n;
        toBaseString_loop k' base (Z.quot integer base) (String c str)
    end
  else Some (integer, str).

(** [toBaseString]: [None] when [base_chars] is indexed outside its
    range. *)
Definition toBaseString (base integer : Z) : option string :=
  if (base <? 2) || (base >? to_int base_chars_size) then Some "" else
  let str := "" in
  let '(str, integer) :=
    if integer <? 0 then (string_push str "-"%char, to_int (- integer))
    else (str, integer) in
  '(integer, str) ← toBaseString_loop 32 base integer str;
  c ← base_chars_at integer;
  Some (String c str).

Fixpoint toUpper (str : string) : string :=
  match str with
  | EmptyString => EmptyString
  | String c rest => String (toupper c) (toUpper rest)
  end.

(** *** Printing *)

(** [NumberToken::print] *)
Definition NumberToken_print (n : Number) : M unit :=
  base ← getBase;
  if negb (base =? 10) && Number_isInteger n then
    str ← defined OutOfRange (toBaseString base (Number_integer n)); write str
  else write (Number_print n).

(** [for (auto token : tokens) { token->print(os); os << " "; }] *)
Fixpoint print_each (print : TokenP -> M unit) (tokens : list TokenP) : M unit :=
  match tokens with
  | [] => ret tt
  | token :: rest => print token;; write " ";; print_each print rest
  end.

(** The [print] of the builtin classes. *)
Definition Builtin_print (print : TokenP -> M unit) (b : Builtin) : M unit :=
  match builtinType_ b, value_ b with
  | DO_BUILTIN, DoValue v =>
      write "DO ";; print_each print (do_tokens v);;
      if incToken v then write "+LOOP" else write "LOOP"
  | IF_BUILTIN, IfValue v =>
      write "IF ";; print_each print (ifTokens v);;
      (if negb (bool_decide (elseTokens v = [])) then
         write "ELSE ";; print_each print (elseTokens v)
       else ret tt);;
      write "THEN"
  | BEGIN_BUILTIN, BeginValue v =>
      write "BEGIN ";;
      if is_until v then
        print_each print (begin_tokens v);; write "UNTIL"
      else
        print_each print (whileTokens v);; write "WHILE";;
        print_each print (begin_tokens v);; write "REPEAT"
  | PRINTTO_BUILTIN, StringValue text =>
      write ("." ++ quote ++ " ");; write text;; write quote
  | LOAD_BUILTIN, StringValue filename =>
      write ("LOAD " ++ quote);; write filename;; write quote
  | DOES_BUILTIN, TokensValue v =>
      write "DOES> ";; print_each print v
  | COMMENT_BUILTIN, StringValue text =>
      write "( ";; write text;; write ")"
  | t, _ => write (Builtin_name t)
  end.

(** [Token::print], virtual; [d] bounds the nesting of the tokens printed. *)
Fixpoint Token_print_at (d : nat) (token : TokenP) : M unit :=
  match d with
  | O => nofuel
  | S d' =>
      t ← deref token;
      match t with
      | BooleanToken b => write (if b then "TRUE" else "FALSE")
      | NumberToken n => NumberToken_print n
      | BuiltinToken b => Builtin_print (Token_print_at d') b
      | VariableToken v =>
          if constant_ v then Token_print_at d' (Variable_value v)
          else write ("$" ++ var_name v)
      | VariableRefToken r =>
          Token_print_at d' (var_ r);;
          write ("[" ++ int_print (ref_ind r) ++ "]")
      | ProcedureToken p =>
          write (": " ++ proc_name p ++ " ");;
          print_each (Token_print_at d') (proc_tokens p);;
          write ";"
      end
  end.

Definition Token_print (token : TokenP) : M unit :=
  d ← depth; Token_print_at (S d) token.

(** [for (auto token : tokens) { os << " "; token->print(os); }] *)
Fixpoint print_each_after (tokens : list TokenP) : M unit :=
  match tokens with
  | [] => ret tt
  | token :: rest => write " ";; Token_print token;; print_each_after rest
  end.

(** *** Diagnostics *)

(** [IgnoreBase ib;] at the head of a block: the constructor sets
    [ignore_base_] and the destructor clears it when the block is left,
    also by an exception. *)
Definition IgnoreBase {A} (block : M A) : M A := fun g =>
  match block (set_ignore_base_ true g) with
  | Ret a g' => Ret a (set_ignore_base_ false g')
  | Throw e g' => Throw e (set_ignore_base_ false g')
  | o => o
  end.

Definition isDebug : M bool := gets debug_.

(** [if (isDebug()) { ... }] *)
Definition when_debug (block : M unit) : M unit :=
  d ← isDebug; if (d : bool) then block else ret tt.

(** The diagnostic of most functions: a label, a token, a new line, with
    the base ignored. *)
Definition debug_token (label : string) (token : TokenP) : M unit :=
  when_debug (IgnoreBase (write label;; Token_print token;; write endl)).

(** The diagnostic of [parseFile] and [parseLine]: the parameter stack,
    when it is not empty. *)
Definition debug_stack : M unit :=
  d ← isDebug; g ← get;
  if (d : bool) && negb (bool_decide (tokens_ g = [])) then
    IgnoreBase (print_each Token_print (tokens_ g);; write endl)
  else ret tt.

(** *** The dictionary *)

(** [defineVariable(name)]: [variables_[name]] is created empty when the
    name is new. *)
Definition defineVariable (name : string) : M TokenP :=
  var ← alloc (VariableToken (mkVariable name [] 0 false []));
  modify (fun g =>
    set_variables_
      (<[name := vec_push_back (default [] (variables_ g !! name)) var]> (variables_ g)) g);;
  when_debug (IgnoreBase (write "Define Var: ";; write name;; write endl));;
  ret var.

Definition Variable_addValue_at (var token : TokenP) : M unit :=
  t ← deref var; v ← as_Variable t;
  update var (VariableToken (Variable_addValue v token)).

Definition defineVariable_token (name : string) (token : TokenP) : M TokenP :=
  var ← defineVariable name;
  Variable_addValue_at var token;;
  ret var.

Definition defineVariable_int (name : string) (i : Z) : M TokenP :=
  token ← alloc (NumberToken (Number_makeInteger i));
  defineVariable_token name token.

Definition forgetVariable (name : string) : M bool :=
  g ← get;
  match variables_ g !! name with
  | None => ret false
  | Some [] => ret false
  | Some vars =>
      modify (set_variables_ (<[name := removelast vars]> (variables_ g)));;
      when_debug (IgnoreBase (write "Forget Var: ";; write name;; write endl));;
      ret true
  end.

Definition defineProcedure (name : string) (tokens : list TokenP) : M TokenP :=
  proc ← alloc (ProcedureToken (mkProcedure name tokens));
  modify (fun g =>
    set_procedures_
      (<[name := vec_push_back (default [] (procedures_ g !! name)) proc]> (procedures_ g)) g);;
  debug_token "Define Procedure " proc;;
  ret proc.

Definition forgetProcedure (name : string) : M bool :=
  g ← get;
  match procedures_ g !! name with
  | None => ret false
  | Some [] => ret false
  | Some procs =>
      modify (set_procedures_ (<[name := removelast procs]> (procedures_ g)));;
      when_debug (IgnoreBase (write "Forget Procedure";; write name;; write endl));;
      ret true
  end.

Definition lookupProcedure (name : string) (g : Globals) : option TokenP :=
  match procedures_ g !! name with
  | None => None
  | Some procs => last procs
  end.

(** [addBlockToken]: a procedure is expanded, a null token dropped. *)
Definition addBlockToken (tokens : list TokenP) (token : TokenP) : M (list TokenP) :=
  t ← deref token;
  match t with
  | ProcedureToken p => ret (tokens ++ proc_tokens p)%list
  | _ => if negb (Token_isNull t) then ret (vec_push_back tokens token) else ret tokens
  end.

Definition getWordVar : M TokenP :=
  g ← get;
  match wordVar_ g with
  | null =>
      var ← alloc (VariableToken (mkVariable "WORD" [] 0 false []));
      modify (set_wordVar_ var);; ret var
  | p => ret p
  end.

(** *** The parameter stack *)

Definition pushToken (token : TokenP) : M unit :=
  debug_token "Push: " token;;
  modify (fun g => set_tokens_ (vec_push_back (tokens_ g) token) g).

(** [Token::dup]: defined by [NumberToken], [VariableRef] and the classes
    of [MOD_BUILTIN_DEF]; the base class asserts. *)
Definition Token_dup (token : TokenP) : M TokenP :=
  t ← deref token;
  match t with
  | NumberToken n => alloc (NumberToken n)
  | VariableRefToken r => alloc (VariableRefToken (mkVariableRef (var_ r) (ref_ind r)))
  | BuiltinToken b =>
      if Builtin_hasModifier b then alloc (BuiltinToken (mkBuiltin (builtinType_ b) (value_ b)))
      else abend AssertionFailed
  | _ => abend AssertionFailed
  end.

Definition pushDupToken (token : TokenP) : M unit :=
  t ← deref token;
  dtoken ← (if negb (Token_isImmutable t) then Token_dup token else ret token);
  modify (fun g => set_tokens_ (vec_push_back (tokens_ g) dtoken) g).

Definition pushBoolean (b : bool) : M unit :=
  token ← alloc (BooleanToken b); pushToken token.

Definition pushInteger (i : Z) : M unit :=
  token ← alloc (NumberToken (Number_makeInteger i)); pushToken token.

Definition pushNumber (n : Number) : M unit :=
  token ← alloc (NumberToken n); pushToken token.

Definition peekToken : M (State * TokenP) :=
  g ← get;
  if bool_decide (tokens_ g = []) then st ← State_error "STACK EMPTY"; ret (st, null)
  else token ← defined OutOfRange (vec_back (tokens_ g));
       debug_token "Peek: " token;;
       ret (State_success, token).

Definition peekToken_n (n : Z) : M (State * TokenP) :=
  g ← get;
  let nt := vec_size (tokens_ g) in
  if n <=? 0 then st ← State_error "Invalid index"; ret (st, null)
  else if n >? to_int nt then st ← State_error "Stack too small"; ret (st, null)
  else token ← defined OutOfRange (vec_at (tokens_ g) (to_size_t (nt - n)));
       debug_token ("Peek(" ++ int_print n ++ ") : ") token;;
       ret (State_success, token).

Definition popToken : M (State * TokenP) :=
  g ← get;
  if bool_decide (tokens_ g = []) then st ← State_error "STACK EMPTY"; ret (st, null)
  else token ← defined OutOfRange (vec_back (tokens_ g));
       v ← defined OutOfRange (vec_pop_back (tokens_ g));
       modify (set_tokens_ v);;
       debug_token "Pop: " token;;
       ret (State_success, token).

(** [for (n1 = ...; n1 < nt; ++n1) tokens_[n1] = tokens_[n1 + 1];] with
    [n1] a [uint] and [nt] a [size_t]; [k] bounds the rounds left. *)
Fixpoint shift_down (k : nat) (n1 nt : Z) : M unit :=
  if n1 <? nt then
    match k with
    | O => nofuel
    | S k' =>
        g ← get;
        x ← defined OutOfRange (vec_at (tokens_ g) (to_uint (n1 + 1)));
        v ← defined OutOfRange (vec_set (tokens_ g) n1 x);
        modify (set_tokens_ v);;
        shift_down k' (to_uint (n1 + 1)) nt
    end
  else ret tt.

Definition popToken_n (n : Z) : M (State * TokenP) :=
  g ← get;
  let nt := vec_size (tokens_ g) in
  if n <=? 0 then st ← State_error "Invalid index"; ret (st, null)
  else if n >? to_int nt then st ← State_error "Stack too small"; ret (st, null)
  else token ← defined OutOfRange (vec_at (tokens_ g) (to_size_t (nt - n)));
       shift_down (length (tokens_ g)) (to_uint (to_size_t (nt - n))) nt;;
       g' ← get;
       v ← defined OutOfRange (vec_pop_back (tokens_ g'));
       modify (set_tokens_ v);;
       debug_token ("Pop(" ++ int_print n ++ ") : ") token;;
       ret (State_success, token).

(** [popTokens(token1, token2)]: the top goes to [token2]. *)
Definition popTokens : M (State * (TokenP * TokenP)) :=
  r2 ← popToken;
  if negb (valid r2.1) then lastError (null, r2.2) else
  r1 ← popToken;
  if negb (valid r1.1) then lastError (r1.2, r2.2) else
  success (r1.2, r2.2).

Definition popTokens3 : M (State * (TokenP * TokenP * TokenP)) :=
  r3 ← popToken;
  if negb (valid r3.1) then lastError (null, null, r3.2) else
  r2 ← popToken;
  if negb (valid r2.1) then lastError (null, r2.2, r3.2) else
  r1 ← popToken;
  if negb (valid r1.1) then lastError (r1.2, r2.2, r3.2) else
  success (r1.2, r2.2, r3.2).

Definition popBoolean : M (State * bool) :=
  r ← popToken;
  if negb (valid r.1) then lastError false else
  t ← deref r.2;
  if Token_isNumber t then
    n ← as_Number t; success (negb (Number_integer n =? 0))
  else if Token_isBoolean t then
    b ← as_Boolean t; success b
  else failed false (State_error "must be integer or boolean").

Definition tokenToNumber (token : TokenP) : M (State * Number) :=
  t ← deref token;
  token ← (if Token_isVarBase t then
             if VarBase_isConstant t then VarBase_value token else ret token
           else ret token);
  t ← deref token;
  if negb (Token_isNumber t) then failed Number_new (State_error "must be number")
  else n ← as_Number t; success n.

Definition popNumber : M (State * Number) :=
  r ← popToken;
  if negb (valid r.1) then lastError Number_new else
  r ← tokenToNumber r.2;
  if negb (valid r.1) then lastError r.2 else
  success r.2.

Definition popBoolOrNumber : M (State * Number) :=
  r ← popToken;
  if negb (valid r.1) then lastError Number_new else
  let token := r.2 in
  t ← deref token;
  token ← (if Token_isVarBase t then
             if VarBase_isConstant t then VarBase_value token else ret token
           else ret token);
  t ← deref token;
  if Token_isNumber t then n ← as_Number t; success n
  else if Token_isBoolean t then b ← as_Boolean t; success (Number_makeBoolean b)
  else failed Number_new (State_error "must be integer or boolean").

(** [popNumbers(n1, n2)]: the top goes to [n2]. *)
Definition popNumbers : M (State * (Number * Number)) :=
  r2 ← popNumber;
  if negb (valid r2.1) then lastError (Number_new, r2.2) else
  r1 ← popNumber;
  if negb (valid r1.1) then lastError (r1.2, r2.2) else
  success (r1.2, r2.2).

Definition popBoolOrNumbers : M (State * (Number * Number)) :=
  r2 ← popBoolOrNumber;
  if negb (valid r2.1) then lastError (Number_new, r2.2) else
  r1 ← popBoolOrNumber;
  if negb (valid r1.1) then lastError (r1.2, r2.2) else
  success (r1.2, r2.2).

Definition popNumbers3 : M (State * (Number * Number * Number)) :=
  r3 ← popNumber;
  if negb (valid r3.1) then lastError (Number_new, Number_new, r3.2) else
  r2 ← popNumber;
  if negb (valid r2.1) then lastError (Number_new, r2.2, r3.2) else
  r1 ← popNumber;
  if negb (valid r1.1) then lastError (r1.2, r2.2, r3.2) else
  success (r1.2, r2.2, r3.2).

(** [popVarBase], [popVarRef], [popVariable], [popProcedure]: pop, then
    test the kind of the token. *)
Definition popKind (kind : Token -> bool) (m : string) : M (State * TokenP) :=
  r ← popToken;
  if negb (valid r.1) then lastError null else
  t ← deref r.2;
  if negb (kind t) then failed null (State_error m)
  else success r.2.

Definition popVarBase := popKind Token_isVarBase "must be base variable".
Definition popVarRef := popKind Token_isVarRef "must be ref variable".
Definition popVariable := popKind Token_isVariable "must be variable".
Definition popProcedure := popKind Token_isProcedure "must be procedure".

Definition clearTokens : M unit := modify (set_tokens_ []).
Definition clearRetTokens : M unit := modify (set_retTokens_ []).
Definition clearExecTokens : M unit := modify (set_execTokens_ []).

(** *** Reading a number *)

(** [while (line.isValid() && line.isBaseChar(base)) str += line.getChar();] *)
Fixpoint read_base_chars (k : nat) (base : Z) (line : Line) (str : string)
  : option (Line * string) :=
  if Line_isValid line then
    b ← Line_isBaseChar line base;
    if b : bool then
      match k with
      | O => Some (line, str)
      | S k' =>
          '(c, line) ← Line_getChar line;
          read_base_chars k' base line (string_push str c)
      end
    else Some (line, str)
  else Some (line, str).

(** [a && b] where [b] reads the line. *)
Definition valid_and (line : Line) (b : option bool) : option bool :=
  if Line_isValid line then b else Some false.

(** What [readNumberToken] finds on the line: the line to restore and the
    message, or the sign, the digits read and whether they are a real. *)
Definition scanNumber (base : Z) (line : Line)
  : option (Line * (string + (Z * string * bool))) :=
  let pos := pos_ line in
  let str := "" in
  let sign := 1 in
  signed ← Line_isOneOf line "+-";
  '(sign, line) ← (if signed : bool then
                     '(c, line) ← Line_getChar line;
                     Some (if Ascii.eqb c "-" then -1 else 1, line)
                   else Some (sign, line));
  digit ← Line_isBaseChar line base;
  if negb digit then Some (Line_setPos line pos, inl "Not a number") else
  '(line, str) ← read_base_chars (len_ line) base line str;
  let real := false in
  dot ← valid_and line (Line_isChar line ".");
  '(line, str, real) ← (if dot : bool then
                          '(c, line) ← Line_getChar line;
                          '(line, str) ← read_base_chars (len_ line) base line (string_push str c);
                          Some (line, str, true)
                        else Some (line, str, real));
  e ← valid_and line (Line_isOneOf line "Ee");
  '(line, str, real) ← (if e : bool then
                          c ← Line_lookNextChar line 1;
                          if bool_decide (is_Some (isBaseChar c base)) then
                            '(c, line) ← Line_getChar line;
                            '(line, str) ← read_base_chars (len_ line) base line (string_push str c);
                            Some (line, str, true)
                          else Some (line, str, real)
                        else Some (line, str, real));
  rest ← valid_and line (negb <$> Line_isSpace line);
  if rest : bool then Some (Line_setPos line pos, inl "Not a number")
  else Some (line, inr (sign, str, real)).

Definition readNumberToken_line (line : Line) : M (State * (TokenP * Line)) :=
  let pos := pos_ line in
  base ← getBase;
  r ← defined OutOfRange (scanNumber base line);
  let line := r.1 in
  match r.2 with
  | inl m => failed (null, line) (State_error m)
  | inr (sign, str, real) =>
      if negb real then
        r ← toBaseInteger str base;
        if negb (valid r.1) then lastError (null, Line_setPos line pos)
        else token ← alloc (NumberToken (Number_makeInteger (to_int (to_long (sign * r.2)))));
             success (token, line)
      else
        let r := atof str in
        token ← alloc (NumberToken (Number_makeReal (dmul (double_of_int sign) r)));
        success (token, line)
  end.

(** [readNumberToken(std::string &, NumberTokenP &)] *)
Definition readNumberToken (word : string) : M (State * TokenP) :=
  r ← readNumberToken_line (Line_new word);
  ret (r.1, r.2.1).

(** *** Comparing and stepping tokens *)

(** [Token::cmp], virtual: numbers by value, variables by address. *)
Definition Token_cmp (self token : TokenP) : M (State * Z) :=
  t1 ← deref self;
  t2 ← deref token;
  match t1 with
  | NumberToken n1 =>
      if Token_isNumber t2 then n2 ← as_Number t2; success (Number_cmp n1 n2)
      else failed 0 (State_error "cmp not supported")
  | VariableToken _ | VariableRefToken _ =>
      if Token_isVarBase t2 then
        p1 ← VarBase_addr self;
        p2 ← VarBase_addr token;
        success (if p1 >? p2 then 1 else if p1 <? p2 then -1 else 0)
      else failed 0 (State_error "cmp not supported")
  | _ => failed 0 (State_error "cmp not supported")
  end.

(** [Token::inc], virtual: the object itself is changed. *)
Definition Token_inc (self : TokenP) (n : Number) : M State :=
  t ← deref self;
  match t with
  | NumberToken number => update self (NumberToken (Number_inc number n));; ret State_success
  | VariableToken _ | VariableRefToken _ =>
      ind ← VarBase_ind self;
      VarBase_setInd self (to_int (ind + Number_integer n));; ret State_success
  | _ => State_error "inc not supported"
  end.

(** ** The builtins

    Each [exec] below is the member function of the class of that name. *)

(** [tokens_[i]], [tokens_[i] = x] and [tokens_.pop_back()]. *)
Definition tokens_at (i : Z) : M TokenP :=
  g ← get; defined OutOfRange (vec_at (tokens_ g) i).

Definition tokens_set (i : Z) (x : TokenP) : M unit :=
  g ← get; v ← defined OutOfRange (vec_set (tokens_ g) i x); modify (set_tokens_ v).

Definition tokens_back : M TokenP :=
  g ← get; defined OutOfRange (vec_back (tokens_ g)).

Definition tokens_pop_back : M unit :=
  g ← get; v ← defined OutOfRange (vec_pop_back (tokens_ g)); modify (set_tokens_ v).

Definition tokens_size : M Z := gets (fun g => vec_size (tokens_ g)).

Definition tokens_empty : M bool := gets (fun g => bool_decide (tokens_ g = [])).

(** *** Stack manipulation *)

Definition DupBuiltin_exec : M State :=
  e ← tokens_empty;
  if e : bool then State_error "STACK EMPTY" else
  token ← tokens_back;
  pushDupToken token;;
  debug_token "Dup: " token;;
  ret State_success.

Definition DropBuiltin_exec : M State :=
  e ← tokens_empty;
  if e : bool then State_error "STACK EMPTY" else
  when_debug (IgnoreBase (write "Drop: ";; token ← tokens_back; Token_print token;;
                          write endl));;
  tokens_pop_back;;
  ret State_success.

Definition SwapBuiltin_exec : M State :=
  n ← tokens_size;
  if n <? 2 then State_error "STACK EMPTY" else
  when_debug (IgnoreBase (write "Swap: ";; a ← tokens_at (n - 1); Token_print a;;
                          write " ";; b ← tokens_at (n - 2); Token_print b;;
                          write endl));;
  a ← tokens_at (n - 1);
  b ← tokens_at (n - 2);
  tokens_set (n - 1) b;;
  tokens_set (n - 2) a;;
  ret State_success.

Definition OverBuiltin_exec : M State :=
  nt ← tokens_size;
  if nt <? 2 then State_error "STACK UNDERFLOW" else
  token ← tokens_at (nt - 2);
  pushDupToken token;;
  debug_token "Over: " token;;
  ret State_success.

Definition RotBuiltin_exec : M State :=
  nt ← tokens_size;
  if nt <? 3 then State_error "STACK UNDERFLOW" else
  token ← tokens_at (nt - 3);
  x ← tokens_at (nt - 2);
  tokens_set (nt - 3) x;;
  y ← tokens_at (nt - 1);
  tokens_set (nt - 2) y;;
  tokens_set (nt - 1) token;;
  debug_token "Rot: " token;;
  ret State_success.

Definition PickBuiltin_exec : M State :=
  check n ← popNumber;
  if negb (Number_isInteger n) then State_error "Must be integer" else
  let i := Number_integer n in
  check token ← peekToken_n i;
  pushDupToken token;;
  ret State_success.

Definition RollBuiltin_exec : M State :=
  check n ← popNumber;
  if negb (Number_isInteger n) then State_error "Must be integer" else
  let i := Number_integer n in
  nt ← tokens_size;
  if i >? to_int nt then State_error "STACK UNDERFLOW" else
  token ← tokens_at (to_size_t (nt - i));
  g ← get;
  shift_down (length (tokens_ g)) (to_uint (to_size_t (nt - i))) nt;;
  tokens_pop_back;;
  modify (fun g => set_tokens_ (vec_push_back (tokens_ g) token) g);;
  debug_token ("Roll(" ++ int_print i ++ ") : ") token;;
  ret State_success.

Definition QDupBuiltin_exec : M State :=
  check n ← popNumber;
  (if negb (Number_integer n =? 0) then pushNumber n else ret tt);;
  ret State_success.

Definition DepthBuiltin_exec : M State :=
  nt ← tokens_size;
  pushInteger (to_int nt);;
  ret State_success.

Definition PopRetBuiltin_exec : M State :=
  check token ← popToken;
  modify (fun g => set_retTokens_ (vec_push_back (retTokens_ g) token) g);;
  ret State_success.

Definition PushRetBuiltin_exec : M State :=
  g ← get;
  if bool_decide (retTokens_ g = []) then State_error "STACK EMPTY" else
  token ← defined OutOfRange (vec_back (retTokens_ g));
  v ← defined OutOfRange (vec_pop_back (retTokens_ g));
  modify (set_retTokens_ v);;
  pushToken token;;
  ret State_success.

Definition CopyRetBuiltin_exec : M State :=
  g ← get;
  if bool_decide (retTokens_ g = []) then State_error "STACK EMPTY" else
  token ← defined OutOfRange (vec_back (retTokens_ g));
  pushToken token;;
  ret State_success.

(** *** Comparison *)

Definition cmpOp : M (State * Z) :=
  r ← popNumbers;
  if negb (valid r.1) then lastError 0 else
  d ← no_fault (Number_minus r.2.1 r.2.2);
  success (Number_integer d).

Definition ucmpOp : M (State * Z) :=
  r ← popNumbers;
  if negb (valid r.1) then lastError 0 else
  let i1 := to_uint (Number_integer r.2.1) in
  let i2 := to_uint (Number_integer r.2.2) in
  success (if i1 >? i2 then 1 else if i1 <? i2 then -1 else 0).

Definition LessBuiltin_exec : M State :=
  check cmp ← cmpOp; pushBoolean (cmp <? 0);; ret State_success.

Definition EqualBuiltin_exec : M State :=
  check cmp ← cmpOp; pushBoolean (cmp =? 0);; ret State_success.

Definition GreaterBuiltin_exec : M State :=
  check cmp ← cmpOp; pushBoolean (cmp >? 0);; ret State_success.

Definition ULessBuiltin_exec : M State :=
  check cmp ← ucmpOp; pushBoolean (cmp <? 0);; ret State_success.

Definition NotBuiltin_exec : M State :=
  check n ← popBoolOrNumber; pushNumber (Number_Not n);; ret State_success.

(** *** Arithmetic and logic *)

(** [+] and [-]: a reference in either of the two top slots is moved by
    the integer in the other. *)
Definition PlusMinus_exec (op : Op) (offset : Z -> Z) : M State :=
  nt ← tokens_size;
  if nt <? 2 then State_error "STACK UNDERFLOW" else
  t2 ← (p ← tokens_at (nt - 2); deref p);
  if Token_isVarRef t2 then
    check n ← popNumber;
    check var ← popVarRef;
    ref ← VarBase_indexVar var var (offset (Number_integer n));
    pushToken ref;; ret State_success
  else
    t1 ← (p ← tokens_at (nt - 1); deref p);
    if Token_isVarRef t1 then
      check var ← popVarRef;
      check n ← popNumber;
      ref ← VarBase_indexVar var var (offset (Number_integer n));
      pushToken ref;; ret State_success
    else
      check n ← popNumbers;
      r ← no_fault (Number_doOp n.1 n.2 op);
      pushNumber r;; ret State_success.

Definition PlusBuiltin_exec : M State := PlusMinus_exec Plus (fun i => i).
Definition MinusBuiltin_exec : M State := PlusMinus_exec Minus (fun i => to_int (- i)).

Definition binary_exec (op : Op) : M State :=
  check n ← popNumbers;
  r ← no_fault (Number_doOp n.1 n.2 op);
  pushNumber r;; ret State_success.

Definition TimesBuiltin_exec : M State := binary_exec Times.
Definition DivideBuiltin_exec : M State := binary_exec Divide.
Definition ModBuiltin_exec : M State := binary_exec Mod.
Definition MaxBuiltin_exec : M State := binary_exec Max.
Definition MinBuiltin_exec : M State := binary_exec Min.

Definition DModBuiltin_exec : M State :=
  check n ← popNumbers;
  r ← no_fault (Number_mod n.1 n.2);
  pushNumber r;;
  q ← no_fault (Number_divide n.1 n.2);
  pushNumber q;; ret State_success.

(** [1+] and [2+] *)
Definition PlusN_exec (k : Z) : M State :=
  e ← tokens_empty;
  if e : bool then State_error "STACK UNDERFLOW" else
  nt ← tokens_size;
  token ← tokens_at (nt - 1);
  tokens_pop_back;;
  t ← deref token;
  if Token_isVarRef t then
    ref ← VarBase_indexVar token token k;
    pushToken ref;; ret State_success
  else
    check n ← tokenToNumber token;
    r ← no_fault (Number_plus n (Number_makeInteger k));
    pushNumber r;; ret State_success.

Definition Plus1Builtin_exec : M State := PlusN_exec 1.
Definition Plus2Builtin_exec : M State := PlusN_exec 2.

Definition MulDivBuiltin_exec : M State :=
  check n ← popNumbers3;
  m ← no_fault (Number_times n.1.1 n.1.2);
  r ← no_fault (Number_divide m n.2);
  pushNumber r;; ret State_success.

Definition AbsBuiltin_exec : M State :=
  check n ← popNumber; pushNumber (Number_abs n);; ret State_success.

Definition NegateBuiltin_exec : M State :=
  check n ← popNumber; pushNumber (Number_neg n);; ret State_success.

Definition AndBuiltin_exec : M State :=
  check n ← popBoolOrNumbers; pushNumber (Number_And n.1 n.2);; ret State_success.

Definition OrBuiltin_exec : M State :=
  check n ← popBoolOrNumbers; pushNumber (Number_Or n.1 n.2);; ret State_success.

Definition XorBuiltin_exec : M State :=
  check n ← popBoolOrNumbers; pushNumber (Number_Xor n.1 n.2);; ret State_success.

(** *** Memory *)

Definition FetchBuiltin_exec : M State :=
  e ← tokens_empty;
  if e : bool then State_error "STACK UNDERFLOW" else
  var ← tokens_back;
  tokens_pop_back;;
  t ← deref var;
  if negb (Token_isVarRef t) then State_error "Not a variable" else
  token ← VarBase_value var;
  match token with
  | null => State_error "invalid variable"
  | _ => modify (fun g => set_tokens_ (vec_push_back (tokens_ g) token) g);;
         when_debug (IgnoreBase (write "Fetch ";; Token_print var;; write " = ";;
                                 Token_print token;; write endl));;
         ret State_success
  end.

Definition StoreBuiltin_exec : M State :=
  nt ← tokens_size;
  if nt <? 2 then State_error "STACK UNDERFLOW" else
  token1 ← tokens_at (nt - 1);
  token2 ← tokens_at (nt - 2);
  tokens_pop_back;;
  tokens_pop_back;;
  t1 ← deref token1;
  if negb (Token_isVarRef t1) then State_error "Not a variable" else
  ok ← VarBase_setValue token1 token2;
  if negb ok then State_error "invalid variable" else
  when_debug (IgnoreBase (write "Store ";; Token_print token1;; write " = ";;
                          Token_print token2;; write endl));;
  ret State_success.

Definition PFetchBuiltin_exec : M State :=
  check var ← popVarRef;
  token ← VarBase_value var;
  match token with
  | null => State_error "invalid variable"
  | _ => Token_print token;; write " ";; ret State_success
  end.

Definition AddStoreBuiltin_exec : M State :=
  check var ← popVariable;
  check n ← popNumber;
  token ← VarBase_value var;
  match token with
  | null => State_error "invalid variable"
  | _ =>
      t ← deref token;
      if negb (Token_isNumber t) then State_error "var must be number" else
      vn ← as_Number t;
      sum ← no_fault (Number_plus vn n);
      value ← alloc (NumberToken sum);
      VarBase_setValue var value;;
      when_debug (IgnoreBase (name ← VarBase_name var;
                              write ("Set " ++ name ++ " = ");;
                              write (Number_print n);; write endl));;
      ret State_success
  end.

(** [for (int i = 0; i < n; ++i) body(i)], with the bound taken from
    [count]; the results of the calls are not looked at. *)
Fixpoint for_upto (count : nat) (i : Z) (body : Z -> M unit) : M unit :=
  match count with
  | O => ret tt
  | S count' => body i;; for_upto count' (i + 1) body
  end.

Definition MoveBuiltin_exec : M State :=
  check n ← popNumber;
  check var2 ← popVarRef;
  check var1 ← popVarRef;
  for_upto (Z.to_nat (Number_integer n)) 0
    (fun i => x ← VarBase_indValue var1 i; VarBase_setIndValue var2 i x;; ret tt);;
  ret State_success.

Definition FillBuiltin_exec : M State :=
  check token ← popToken;
  check n ← popNumber;
  check var ← popVarRef;
  for_upto (Z.to_nat (Number_integer n)) 0
    (fun i => VarBase_setIndValue var i token;; ret tt);;
  ret State_success.

(** *** The return stack inside loops *)

Definition IBuiltin_exec : M State :=
  g ← get;
  let n := vec_size (retTokens_ g) in
  if n <? 2 then State_error "Not in DO" else
  token ← defined OutOfRange (vec_at (retTokens_ g) (n - 2));
  pushToken token;;
  ret State_success.

Definition JBuiltin_exec : M State :=
  g ← get;
  let n := vec_size (retTokens_ g) in
  if n <? 4 then State_error "Not in double nested DO" else
  token ← defined OutOfRange (vec_at (retTokens_ g) (n - 4));
  pushToken token;;
  ret State_success.

(** [LEAVE]: the innermost [DO] or [BEGIN] being run gets its flag set. *)
Fixpoint LeaveBuiltin_loop (execs : list TokenP) : M State :=
  match execs with
  | [] => State_error "Leave not inside do"
  | execToken :: below =>
      t ← deref execToken;
      if negb (Token_isBuiltin t) then LeaveBuiltin_loop below else
      b ← as_Builtin t;
      match builtinType_ b, value_ b with
      | DO_BUILTIN, DoValue v =>
          update execToken
            (BuiltinToken (mkBuiltin DO_BUILTIN
               (DoValue (mkDoTokens (do_tokens v) (incToken v) true))));;
          ret State_success
      | BEGIN_BUILTIN, BeginValue v =>
          update execToken
            (BuiltinToken (mkBuiltin BEGIN_BUILTIN
               (BeginValue (mkBeginTokens (begin_tokens v) (whileTokens v)
                                          (is_until v) (is_while v) true))));;
          ret State_success
      | DO_BUILTIN, _ | BEGIN_BUILTIN, _ => abend WrongCast
      | _, _ => LeaveBuiltin_loop below
      end
  end.

Definition LeaveBuiltin_exec : M State :=
  g ← get; LeaveBuiltin_loop (rev (execTokens_ g)).

(** ** Reading the input *)

(** A read of [line_] through one of [Line]'s members. *)
Definition line_read {A} (f : Line -> option A) : M A :=
  g ← get; defined OutOfRange (f (line_ g)).

Definition line_getChar : M ascii :=
  r ← line_read Line_getChar; modify (set_line_ r.2);; ret r.1.

Definition line_skipSpace : M unit :=
  l ← line_read Line_skipSpace; modify (set_line_ l).

Definition line_isValid : M bool := gets (fun g => Line_isValid (line_ g)).

(** The loop of [fillBuffer] over the file: a call of [readLine] that
    succeeds uses up a character of the file or sets its end-of-file
    indicator, which bounds the rounds by [k]. *)
Fixpoint fillBuffer_file (k : nat) : M bool :=
  v ← line_isValid;
  if v : bool then ret true else
  match k with
  | O => nofuel
  | S k' =>
      g ← get;
      let '(ok, file, line) := File_readLine (file_ g) (line_ g) in
      modify (fun g => set_line_ line (set_file_ file g));;
      if negb ok then ret false else
      line_skipSpace;;
      fillBuffer_file k'
  end.

(** The loop of [fillBuffer] over [lines_]; a round pops one line. *)
Fixpoint fillBuffer_lines (k : nat) : M bool :=
  v ← line_isValid;
  if v : bool then ret true else
  g ← get;
  if bool_decide (lines_ g = []) then ret false else
  match k with
  | O => nofuel
  | S k' =>
      line ← defined OutOfRange (vec_back (lines_ g));
      lines ← defined OutOfRange (vec_pop_back (lines_ g));
      modify (fun g => set_lines_ lines (set_line_ line g));;
      line_skipSpace;;
      fillBuffer_lines k'
  end.

Definition fillBuffer : M bool :=
  v ← line_isValid;
  (if v : bool then line_skipSpace else ret tt);;
  g ← get;
  if File_isValid (file_ g) then
    fillBuffer_file (match fp_ (file_ g) with
                     | Some (rest, _) => String.length rest + 2
                     | None => 0
                     end)
  else fillBuffer_lines (length (lines_ g)).

(** [while (line.isValid() && ! line.isSpace()) str += line.getChar();] *)
Fixpoint read_nonspace (k : nat) (line : Line) (str : string) : option (Line * string) :=
  if Line_isValid line then
    b ← Line_isSpace line;
    if negb b then
      match k with
      | O => Some (line, str)
      | S k' =>
          '(c, line) ← Line_getChar line;
          read_nonspace k' line (string_push str c)
      end
    else Some (line, str)
  else Some (line, str).

(** [readWord(Line &, Word &)] *)
Definition readWord_line (line : Line) : option (Line * Word) :=
  let str := "" in
  '(c, line) ← Line_getChar line;
  let str := string_push str c in
  '(line, str) ← read_nonspace (len_ line) line str;
  let word := Word_setValue str in
  line ← Line_skipSpace line;
  Some (line, word).

(** [readWord(Word &)] *)
Definition readWord : M (bool * Word) :=
  let word := Word_reset Word_new in
  ok ← fillBuffer;
  if negb ok then ret (false, word) else
  r ← line_read readWord_line;
  modify (set_line_ r.1);;
  ret (true, r.2).

(** [word.value()] asserts that the word is valid. *)
Definition Word_value (w : Word) : M string :=
  if word_valid w then ret (word_str w) else abend AssertionFailed.

(** [fgetc(stdin)] converted to [char]: end of input reads as [char(EOF)]. *)
Definition stdin_getc : M ascii :=
  g ← get;
  match cin g with
  | EmptyString => ret (char_of_int (-1))
  | String c rest => modify (set_cin rest);; ret c
  end.

(** *** Input and output builtins *)

Definition EmitBuiltin_exec : M State :=
  check n ← popNumber;
  write (String (char_of_int (Number_integer n)) EmptyString);;
  ret State_success.

Definition PrintToBuiltin_exec (text : string) : M State :=
  write text;; ret State_success.

(** [while (line_.isValid() && ! line_.isChar(c)) text += line_.getChar();] *)
Fixpoint read_until (k : nat) (c : ascii) (line : Line) (str : string)
  : option (Line * string) :=
  if Line_isValid line then
    b ← Line_isChar line c;
    if negb b then
      match k with
      | O => Some (line, str)
      | S k' =>
          '(d, line) ← Line_getChar line;
          read_until k' c line (string_push str d)
      end
    else Some (line, str)
  else Some (line, str).

(** The [readModifier] of [PrintToBuiltin] and [CommentBuiltin]: the text
    up to the closing character [c]. *)
Definition text_readModifier (c : ascii) : M (State * string) :=
  ok ← fillBuffer;
  if negb ok then failed "" (State_error "Missing char") else
  first ← line_getChar;
  let text := String first EmptyString in
  r ← line_read (fun line => read_until (len_ line) c line text);
  modify (set_line_ r.1);;
  closing ← line_read (fun line => Line_isChar line c);
  (if closing : bool then modify (fun g => set_line_ (Line_skipChar (line_ g)) g) else ret tt);;
  success r.2.

Definition TypeBuiltin_exec : M State :=
  check n ← popNumber;
  check var ← popVarRef;
  for_upto (Z.to_nat (Number_integer n)) 0
    (fun i =>
       token ← VarBase_indValue var i;
       t ← deref token;
       if Token_isNumber t then
         m ← as_Number t; write (String (char_of_int (Number_integer m)) EmptyString)
       else ret tt);;
  ret State_success.

Definition KeyBuiltin_exec : M State :=
  c ← stdin_getc;
  pushInteger (int_of_char c);;
  ret State_success.

(** The loop of [EXPECT]: it stops at a newline. *)
Fixpoint ExpectBuiltin_loop (count : nat) (i : Z) (var : TokenP) : M unit :=
  match count with
  | O => ret tt
  | S count' =>
      c ← stdin_getc;
      if Ascii.eqb c LF then ret tt else
      token ← alloc (NumberToken (Number_makeInteger (int_of_char c)));
      VarBase_setIndValue var i token;;
      ExpectBuiltin_loop count' (i + 1) var
  end.

Definition ExpectBuiltin_exec : M State :=
  check n ← popNumber;
  check var ← popVarRef;
  ExpectBuiltin_loop (Z.to_nat (Number_integer n)) 0 var;;
  ret State_success.

(** The loop of [QUERY]: a newline ends it once a character was read. *)
Fixpoint QueryBuiltin_loop (count : nat) (str : string) : M string :=
  match count with
  | O => ret str
  | S count' =>
      c ← stdin_getc;
      if negb (bool_decide (str = "")) && Ascii.eqb c LF then ret str
      else QueryBuiltin_loop count' (string_push str c)
  end.

Definition QueryBuiltin_exec : M State :=
  str ← QueryBuiltin_loop 80 "";
  modify (fun g => set_line_ (Line_insert (line_ g) str) g);;
  ret State_success.

(** [Variable::allot] *)
Fixpoint Variable_allot (n : nat) (var : TokenP) : M unit :=
  match n with
  | O => ret tt
  | S n' =>
      token ← alloc (NumberToken (Number_makeInteger 0));
      Variable_addValue_at var token;;
      Variable_allot n' var
  end.

(** [for (size_t i = 1; i <= len; ++i) wordVar_->setIndValue(i, str[i - 1])] *)
Fixpoint WordBuiltin_store (str : string) (i : Z) (var : TokenP) : M unit :=
  match str with
  | EmptyString => ret tt
  | String c rest =>
      token ← alloc (NumberToken (Number_makeInteger (int_of_char c)));
      VarBase_setIndValue var (to_int i) token;;
      WordBuiltin_store rest (i + 1) var
  end.

Definition WordBuiltin_exec : M State :=
  wordVar ← getWordVar;
  modify (set_wordVar_ wordVar);;
  check n ← popNumber;
  ok ← fillBuffer;
  if negb ok then State_error "Missing char" else
  let lastC := char_of_int (Number_integer n) in
  first ← line_getChar;
  r ← line_read (fun line => read_until (len_ line) lastC line (String first EmptyString));
  modify (set_line_ r.1);;
  let str := r.2 in
  closing ← line_read (fun line => Line_isChar line lastC);
  (if closing : bool then line_getChar;; ret tt else ret tt);;
  when_debug (write ("Word: '" ++ str ++ "'");; write endl);;
  let len := Z.of_nat (String.length str) in
  length ← VarBase_length wordVar;
  (if length <? to_int (len + 1)
   then Variable_allot (Z.to_nat (to_int (to_size_t (len + 1 - length)))) wordVar
   else ret tt);;
  token ← alloc (NumberToken (Number_makeInteger (to_int len)));
  VarBase_setIndValue wordVar 0 token;;
  WordBuiltin_store str 1 wordVar;;
  pushToken wordVar;;
  ret State_success.

Definition CountBuiltin_exec : M State :=
  check var ← popVarRef;
  ref ← VarBase_indexVar var var 1;
  pushToken ref;;
  len ← VarBase_indValue var 0;
  pushToken len;;
  ret State_success.

(** The loop of [-TRAILING]: down from [i] while the cell holds a space. *)
Fixpoint TrailingBuiltin_loop (k : nat) (i : Z) (var : TokenP) : M Z :=
  if i >=? 0 then
    match k with
    | O => nofuel
    | S k' =>
        token ← VarBase_indValue var i;
        t ← deref token;
        if negb (Token_isNumber t) then ret i else
        m ← as_Number t;
        if negb (isspace (char_of_int (Number_integer m))) then ret i
        else TrailingBuiltin_loop k' (i - 1) var
    end
  else ret i.

Definition TrailingBuiltin_exec : M State :=
  check n ← popNumber;
  check var ← popVarRef;
  let i := to_int (Number_integer n - 1) in
  i ← TrailingBuiltin_loop (Z.to_nat (i + 1)) i var;
  pushToken var;;
  pushNumber (Number_makeInteger (to_int (i + 1)));;
  ret State_success.

(** *** Number output *)

Definition DecimalBuiltin_exec : M State :=
  g ← get;
  (match lookupVariable "BASE" g with
   | None => var ← defineVariable_int "BASE" 10; ret tt
   | Some var => ret tt
   end);;
  ret State_success.

Definition PrintBuiltin_exec : M State :=
  r ← popToken;
  if negb (valid r.1) then
    write ("0" ++ endl);;
    State_lastError
  else
    let token := r.2 in
    t ← deref token;
    token ← (if Token_isVariable t then
               v ← as_Variable t;
               if constant_ v then ret (Variable_value v) else ret token
             else ret token);
    Token_print token;;
    write " ";;
    ret State_success.

Fixpoint PStackBuiltin_loop (tokens : list TokenP) (first : bool) : M unit :=
  match tokens with
  | [] => ret tt
  | token :: rest =>
      (if first then ret tt else write " ");;
      Token_print token;;
      PStackBuiltin_loop rest false
  end.

Definition PStackBuiltin_exec : M State :=
  g ← get;
  PStackBuiltin_loop (tokens_ g) true;;
  ret State_success.

(** *** Defining words that read one name *)

Definition VariableBuiltin_exec : M State :=
  r ← readWord;
  if negb r.1 then State_error "Missing word" else
  name ← Word_value r.2;
  var ← defineVariable_int name 0;
  modify (set_currentVar_ var);;
  ret State_success.

Definition Variable_setConstant (var : TokenP) (constant : bool) : M unit :=
  t ← deref var; v ← as_Variable t;
  update var (VariableToken (mkVariable (var_name v) (values_ v) (var_ind v)
                                        constant (var_execTokens v))).

Definition Variable_setExecTokens (var : TokenP) (execTokens : list TokenP) : M unit :=
  t ← deref var; v ← as_Variable t;
  update var (VariableToken (mkVariable (var_name v) (values_ v) (var_ind v)
                                        (constant_ v) execTokens)).

Definition ConstantBuiltin_exec : M State :=
  check token ← popToken;
  r ← readWord;
  if negb r.1 then State_error "Missing word" else
  name ← Word_value r.2;
  var ← defineVariable_token name token;
  Variable_setConstant var true;;
  ret State_success.

Definition CreateBuiltin_exec : M State :=
  r ← readWord;
  if negb r.1 then State_error "Missing word" else
  name ← Word_value r.2;
  var ← defineVariable name;
  modify (set_currentVar_ var);;
  ret State_success.

Definition CommaBuiltin_exec : M State :=
  e ← tokens_empty;
  if e : bool then State_error "STACK EMPTY" else
  token ← tokens_back;
  tokens_pop_back;;
  g ← get;
  match currentVar_ g with
  | null => State_error "No current variable"
  | var =>
      Variable_addValue_at var token;;
      when_debug (Token_print var;; write " , ";; Token_print token;; write endl);;
      ret State_success
  end.

Definition DoesBuiltin_exec (tokens : list TokenP) : M State :=
  g ← get;
  match currentVar_ g with
  | null => State_error "No current variable"
  | var => Variable_setExecTokens var tokens;; ret State_success
  end.

Definition ForgetBuiltin_exec : M State :=
  r ← readWord;
  if negb r.1 then State_error "Missing word" else
  name ← Word_value r.2;
  g ← get;
  match lookupVariable name g with
  | Some var =>
      forgotten ← forgetVariable name;
      if forgotten : bool then State_error "Unknown variable" else ret State_success
  | None =>
      match lookupProcedure name g with
      | Some proc =>
          forgotten ← forgetProcedure name;
          if forgotten : bool then State_error "Unknown procedure" else ret State_success
      | None => State_error "Unknown word"
      end
  end.

Definition AllotBuiltin_exec : M State :=
  check n ← popNumber;
  g ← get;
  match currentVar_ g with
  | null => State_error "No current variable"
  | var => Variable_allot (Z.to_nat (Number_integer n)) var;; ret State_success
  end.

(** *** Miscellaneous *)

Definition CommentBuiltin_exec : M State := ret State_success.

Definition HereBuiltin_exec : M State :=
  wordVar ← getWordVar;
  modify (set_wordVar_ wordVar);;
  pushToken wordVar;;
  ret State_success.

Definition AbortBuiltin_exec : M State :=
  clearRetTokens;; clearExecTokens;; clearTokens;;
  throw abortSignal.

Definition QuitBuiltin_exec : M State :=
  clearRetTokens;; clearExecTokens;;
  throw quitSignal.

Definition setDebug (debug : bool) : M unit := modify (set_debug_ debug).

Definition DebugBuiltin_exec : M State :=
  check n ← popNumber;
  setDebug (negb (Number_integer n =? 0));;
  ret State_success.

(** ** The word resolver *)

(** [struct SetParseState]: the constructor before [m], the destructor
    when [m] is left, normally or by an exception. *)
Definition SetParseState {A} (state : ParseState) (m : M A) : M A :=
  fun g =>
    let enter :=
      set_parseState_ state
        (set_parseStateStack_ (vec_push_back (parseStateStack_ g) (parseState_ g)) g) in
    let leave g' :=
      set_parseStateStack_ (removelast (parseStateStack_ g'))
        (set_parseState_ (default INTERP_STATE (vec_back (parseStateStack_ g'))) g') in
    match m enter with
    | Ret a g' => Ret a (leave g')
    | Throw e g' => Throw e (leave g')
    | o => o
    end.

(** [addBuiltin]: [builtins_[builtin->name()] = builtin]. *)
Definition addBuiltin (builtin : TokenP) : M unit :=
  t ← deref builtin; b ← as_Builtin t;
  modify (fun g => set_builtins_ (<[Builtin_name (builtinType_ b) := builtin]> (builtins_ g)) g).

Definition defBuiltin (t : BuiltinType) : M unit :=
  builtin ← alloc (BuiltinToken (mkBuiltin t (Builtin_default_value t)));
  addBuiltin builtin.

Fixpoint defBuiltins (ts : list BuiltinType) : M unit :=
  match ts with
  | [] => ret tt
  | t :: rest => defBuiltin t;; defBuiltins rest
  end.

(** [lookupBuiltin]: the table is filled at the first call. *)
Definition lookupBuiltin (str : string) : M (option TokenP) :=
  g ← get;
  (if bool_decide (builtins_ g = ∅) then defBuiltins all_builtins else ret tt);;
  g ← get;
  ret (builtins_ g !! toUpper str).

Section Resolver.

(** The resolver reaches itself through the [readModifier] of a block;
    [parseWord] is that inner call and [k] bounds the words a block may
    hold. *)
Variable parseWord : Word -> M (State * TokenP).

Fixpoint DoBuiltin_readModifier_loop (k : nat) (v : DoTokens) : M (State * DoTokens) :=
  match k with
  | O => nofuel
  | S k' =>
      r ← readWord;
      if negb r.1 then failed v (State_error "Unterminated DO") else
      let word := r.2 in
      if Word_eq word "LOOP" then success v
      else if Word_eq word "+LOOP" then success (mkDoTokens (do_tokens v) true (do_leave v))
      else
        r ← parseWord word;
        if negb (valid r.1) then lastError v else
        tokens ← addBlockToken (do_tokens v) r.2;
        DoBuiltin_readModifier_loop k' (mkDoTokens tokens (incToken v) (do_leave v))
  end.

Fixpoint IfBuiltin_readModifier_loop (k : nat) (in_else : bool) (v : IfTokens)
  : M (State * IfTokens) :=
  match k with
  | O => nofuel
  | S k' =>
      r ← readWord;
      if negb r.1 then failed v (State_error "Unterminated IF") else
      let word := r.2 in
      if Word_eq word "ELSE" then IfBuiltin_readModifier_loop k' true v
      else if Word_eq word "THEN" then success v
      else
        r ← parseWord word;
        if negb (valid r.1) then lastError v else
        if negb in_else then
          tokens ← addBlockToken (ifTokens v) r.2;
          IfBuiltin_readModifier_loop k' in_else (mkIfTokens tokens (elseTokens v))
        else
          tokens ← addBlockToken (elseTokens v) r.2;
          IfBuiltin_readModifier_loop k' in_else (mkIfTokens (ifTokens v) tokens)
  end.

Fixpoint BeginBuiltin_readModifier_loop (k : nat) (v : BeginTokens)
  : M (State * BeginTokens) :=
  match k with
  | O => nofuel
  | S k' =>
      r ← readWord;
      if negb r.1 then failed v (State_error "Unterminated BEGIN") else
      let word := r.2 in
      if Word_eq word "UNTIL" then
        success (mkBeginTokens (begin_tokens v) (whileTokens v) true false (begin_leave v))
      else if Word_eq word "REPEAT" then
        if negb (is_while v) then failed v (State_error "Missing WHILE")
        else success v
      else if Word_eq word "WHILE" then
        BeginBuiltin_readModifier_loop k'
          (mkBeginTokens [] (begin_tokens v) false true (begin_leave v))
      else
        r ← parseWord word;
        if negb (valid r.1) then lastError v else
        tokens ← addBlockToken (begin_tokens v) r.2;
        BeginBuiltin_readModifier_loop k'
          (mkBeginTokens tokens (whileTokens v) (is_until v) (is_while v) (begin_leave v))
  end.

Fixpoint DoesBuiltin_readModifier_loop (k : nat) (tokens : list TokenP)
  : M (State * list TokenP) :=
  match k with
  | O => nofuel
  | S k' =>
      ok ← fillBuffer;
      if negb ok then failed tokens (State_error "Missing char") else
      pos ← gets (fun g => pos_ (line_ g));
      r ← readWord;
      if negb r.1 then failed tokens (State_error "Missing word") else
      let word := r.2 in
      if Word_eq word ";" then
        modify (fun g => set_line_ (Line_setPos (line_ g) pos) g);;
        success tokens
      else
        r ← parseWord word;
        if negb (valid r.1) then lastError tokens else
        tokens ← addBlockToken tokens r.2;
        DoesBuiltin_readModifier_loop k' tokens
  end.

Definition LoadBuiltin_readModifier : M (State * string) :=
  ok ← fillBuffer;
  if negb ok then failed "" (State_error "Missing char") else
  r ← readWord;
  if negb r.1 then failed "" (State_error "Missing word") else
  filename ← Word_value r.2;
  success filename.

(** [Builtin::readModifier], virtual: the member of the object behind
    [builtin] is what the loop leaves, also when it fails. *)
Definition Builtin_readModifier (k : nat) (builtin : TokenP) : M State :=
  t ← deref builtin; b ← as_Builtin t;
  let store v st := update builtin (BuiltinToken (mkBuiltin (builtinType_ b) v));; ret st in
  match builtinType_ b, value_ b with
  | DO_BUILTIN, DoValue v =>
      r ← SetParseState COMPILE_STATE (DoBuiltin_readModifier_loop k v);
      store (DoValue r.2) r.1
  | IF_BUILTIN, IfValue v =>
      r ← SetParseState COMPILE_STATE (IfBuiltin_readModifier_loop k false v);
      store (IfValue r.2) r.1
  | BEGIN_BUILTIN, BeginValue v =>
      r ← SetParseState COMPILE_STATE
            (BeginBuiltin_readModifier_loop k
               (mkBeginTokens (begin_tokens v) (whileTokens v) false false (begin_leave v)));
      store (BeginValue r.2) r.1
  | DOES_BUILTIN, TokensValue v =>
      r ← SetParseState COMPILE_STATE (DoesBuiltin_readModifier_loop k v);
      store (TokensValue r.2) r.1
  | PRINTTO_BUILTIN, StringValue _ =>
      r ← text_readModifier "034";
      if valid r.1 then store (StringValue r.2) r.1 else ret r.1
  | COMMENT_BUILTIN, StringValue _ =>
      r ← text_readModifier ")";
      if valid r.1 then store (StringValue r.2) r.1 else ret r.1
  | LOAD_BUILTIN, StringValue _ =>
      r ← LoadBuiltin_readModifier;
      if valid r.1 then store (StringValue r.2) r.1 else ret r.1
  | _, _ => ret State_success
  end.

End Resolver.

(** [parseWord]: a variable, a procedure, a builtin, a number, in this
    order. *)
Fixpoint parseWord (fuel : nat) (word : Word) : M (State * TokenP) :=
  match fuel with
  | O => nofuel
  | S fuel' =>
      str ← Word_value word;
      g ← get;
      match lookupVariable str g with
      | Some var =>
          t ← deref var;
          if VarBase_isConstant t then value ← VarBase_value var; success value
          else success var
      | None =>
          match lookupProcedure str g with
          | Some proc => success proc
          | None =>
              found ← lookupBuiltin str;
              match found with
              | Some builtin =>
                  t ← deref builtin; b ← as_Builtin t;
                  if Builtin_hasModifier b then
                    builtin ← Token_dup builtin;
                    st ← Builtin_readModifier (parseWord fuel') fuel' builtin;
                    if negb (valid st) then lastError null else success builtin
                  else success builtin
              | None =>
                  r ← readNumberToken str;
                  if valid r.1 then success r.2
                  else failed null (State_error (str ++ " ?"))
              end
          end
      end
  end.

(** ** The executor *)

(** [File::open] *)
Definition File_open (f : File) : M (State * File) :=
  let f := File_close f in
  g ← get;
  match files g !! filename_ f with
  | None => failed f (State_error ("Failed to open'" ++ filename_ f ++ "'"))
  | Some text => success (mkFile (filename_ f) (Some (text, false)))
  end.

Section Executor.

(** The executor reaches itself through procedures, blocks and loaded
    files; [execToken] is that inner call, [k] bounds the rounds of a loop
    and the depth of the resolver. *)
Variable execToken : TokenP -> M State.

(** [for (auto token : tokens) if (! execToken(token)) return State::lastError();] *)
Fixpoint exec_each (tokens : list TokenP) : M State :=
  match tokens with
  | [] => ret State_success
  | token :: rest => ensure execToken token; exec_each rest
  end.

(** [Variable::execTokens] *)
Definition Variable_execTokens (var : TokenP) : M State :=
  t ← deref var; v ← as_Variable t;
  e ← tokens_empty;
  (if negb e then
     when_debug (IgnoreBase (write "DOES>";; print_each_after (var_execTokens v);;
                             write endl))
   else ret tt);;
  exec_each (var_execTokens v).

(** [Procedure::exec] *)
Definition Procedure_exec (p : Procedure) : M State := exec_each (proc_tokens p).

(** The [leave] flag of the block behind [self]. *)
Definition block_leave (self : TokenP) : M bool :=
  t ← deref self; b ← as_Builtin t;
  match value_ b with
  | DoValue v => ret (do_leave v)
  | BeginValue v => ret (begin_leave v)
  | _ => abend WrongCast
  end.

Definition block_set_leave (self : TokenP) (leave : bool) : M unit :=
  t ← deref self; b ← as_Builtin t;
  match value_ b with
  | DoValue v =>
      update self (BuiltinToken (mkBuiltin (builtinType_ b)
                     (DoValue (mkDoTokens (do_tokens v) (incToken v) leave))))
  | BeginValue v =>
      update self (BuiltinToken (mkBuiltin (builtinType_ b)
                     (BeginValue (mkBeginTokens (begin_tokens v) (whileTokens v)
                                                (is_until v) (is_while v) leave))))
  | _ => abend WrongCast
  end.

(** The body of a [DO] or [BEGIN]: it is left when a token fails and when
    [LEAVE] has set the flag. *)
Fixpoint exec_body (self : TokenP) (tokens : list TokenP) : M State :=
  match tokens with
  | [] => ret State_success
  | token :: rest =>
      ensure execToken token;
      leave ← block_leave self;
      if leave : bool then ret State_success else exec_body self rest
  end.

(** The [for (;;)] of [DoBuiltin::exec1]. *)
Fixpoint DoBuiltin_loop (k : nat) (self : TokenP) (v : DoTokens) (up : bool)
    (inc : Number) (startToken endToken : TokenP) : M State :=
  match k with
  | O => nofuel
  | S k' =>
      check cmp ← Token_cmp endToken startToken;
      if (if up then cmp <=? 0 else cmp >=? 0) then ret State_success else
      ensure exec_body self (do_tokens v);
      leave ← block_leave self;
      if leave : bool then ret State_success else
      check inc ← (if incToken v then popNumber else success inc);
      ensure Token_inc startToken inc;
      DoBuiltin_loop k' self v up inc startToken endToken
  end.

Definition DoBuiltin_exec1 (k : nat) (self : TokenP) (v : DoTokens)
    (startToken endToken : TokenP) : M State :=
  check cmp ← Token_cmp endToken startToken;
  let up := cmp >? 0 in
  let inc := Number_makeInteger 1 in
  block_set_leave self false;;
  DoBuiltin_loop k self v up inc startToken endToken.

Definition DoBuiltin_exec (k : nat) (self : TokenP) (v : DoTokens) : M State :=
  check r ← popTokens;
  let '(endToken, startToken) := r in
  startToken ← Token_dup startToken;
  modify (fun g => set_retTokens_ (vec_push_back (retTokens_ g) startToken) g);;
  modify (fun g => set_retTokens_ (vec_push_back (retTokens_ g) endToken) g);;
  ensure DoBuiltin_exec1 k self v startToken endToken;
  g ← get;
  v1 ← defined OutOfRange (vec_pop_back (retTokens_ g));
  v2 ← defined OutOfRange (vec_pop_back v1);
  modify (set_retTokens_ v2);;
  ret State_success.

Definition IfBuiltin_exec (v : IfTokens) : M State :=
  check b ← popBoolean;
  if b : bool then exec_each (ifTokens v) else exec_each (elseTokens v).

(** The two [for (;;)] of [BeginBuiltin::exec]. *)
Fixpoint BeginBuiltin_until_loop (k : nat) (self : TokenP) (v : BeginTokens) : M State :=
  match k with
  | O => nofuel
  | S k' =>
      ensure exec_body self (begin_tokens v);
      leave ← block_leave self;
      if leave : bool then ret State_success else
      check b ← popBoolean;
      if b : bool then ret State_success else
      BeginBuiltin_until_loop k' self v
  end.

Fixpoint BeginBuiltin_while_loop (k : nat) (self : TokenP) (v : BeginTokens) : M State :=
  match k with
  | O => nofuel
  | S k' =>
      ensure exec_body self (whileTokens v);
      leave ← block_leave self;
      if leave : bool then ret State_success else
      check b ← popBoolean;
      if b : bool then ret State_success else
      ensure exec_body self (begin_tokens v);
      leave ← block_leave self;
      if leave : bool then ret State_success else
      BeginBuiltin_while_loop k' self v
  end.

Definition BeginBuiltin_exec (k : nat) (self : TokenP) (v : BeginTokens) : M State :=
  block_set_leave self false;;
  if is_until v then BeginBuiltin_until_loop k self v
  else BeginBuiltin_while_loop k self v.

(** The loop of [DefineBuiltin::exec], up to the closing semicolon. *)
Fixpoint DefineBuiltin_loop (k : nat) (tokens : list TokenP) : M (State * list TokenP) :=
  match k with
  | O => nofuel
  | S k' =>
      r ← readWord;
      if negb r.1 then failed tokens (State_error "Missing word") else
      let word := r.2 in
      if Word_eq word ";" then success tokens else
      r ← parseWord k' word;
      if negb (valid r.1) then lastError tokens else
      tokens ← addBlockToken tokens r.2;
      DefineBuiltin_loop k' tokens
  end.

Definition DefineBuiltin_exec (k : nat) : M State :=
  SetParseState COMPILE_STATE
    (r ← readWord;
     if negb r.1 then State_error "Missing word" else
     let name := r.2 in
     check tokens ← DefineBuiltin_loop k [];
     name ← Word_value name;
     defineProcedure name tokens;;
     ret State_success).

Definition parseToken (k : nat) : M (State * TokenP) :=
  r ← readWord;
  if negb r.1 then success null else
  r ← parseWord k r.2;
  if negb (valid r.1) then lastError r.2 else
  success r.2.

(** The [for (;;)] of [parseTokens]. *)
Fixpoint parseTokens (k : nat) : M State :=
  match k with
  | O => nofuel
  | S k' =>
      ok ← fillBuffer;
      if negb ok then ret State_success else
      check token ← parseToken k';
      match token with
      | null => ret State_success
      | _ => ensure execToken token; parseTokens k'
      end
  end.

(** [try { if (! parseTokens()) return State::lastError(); } catch (...) { }]:
    [Some] is the early return. *)
Definition try_parseTokens (k : nat) : M (option State) :=
  fun g =>
    match parseTokens k g with
    | Ret st g' => if negb (valid st) then Ret (Some (lastError_ g')) g' else Ret None g'
    | Throw _ g' => Ret None g'
    | Abend f => Abend f
    | NoFuel => NoFuel
    end.

Definition parseFile (k : nat) (filename : string) : M State :=
  modify (set_file_ (File_new filename));;
  g ← get;
  r ← File_open (file_ g);
  modify (set_file_ r.2);;
  if negb (valid r.1) then State_lastError else
  early ← try_parseTokens k;
  match early with
  | Some st => ret st
  | None =>
      debug_stack;;
      write ("ok" ++ endl);;
      modify (fun g => set_file_ (File_close (file_ g)) g);;
      ret State_success
  end.

Definition parseLine (k : nat) (line : Line) : M State :=
  modify (fun g => set_lines_ (vec_push_back (lines_ g) line) g);;
  early ← try_parseTokens k;
  match early with
  | Some st => ret st
  | None => debug_stack;; ret State_success
  end.

Definition LoadBuiltin_exec (k : nat) (filename : string) : M State :=
  st ← parseFile k filename;
  if negb (valid st) then ret State_success else ret State_success.

(** [Builtin::exec], virtual. *)
Definition Builtin_exec (k : nat) (self : TokenP) (b : Builtin) : M State :=
  match builtinType_ b, value_ b with
  | DUP_BUILTIN, _ => DupBuiltin_exec
  | DROP_BUILTIN, _ => DropBuiltin_exec
  | SWAP_BUILTIN, _ => SwapBuiltin_exec
  | OVER_BUILTIN, _ => OverBuiltin_exec
  | ROT_BUILTIN, _ => RotBuiltin_exec
  | PICK_BUILTIN, _ => PickBuiltin_exec
  | ROLL_BUILTIN, _ => RollBuiltin_exec
  | QDUP_BUILTIN, _ => QDupBuiltin_exec
  | DEPTH_BUILTIN, _ => DepthBuiltin_exec
  | POP_RET_BUILTIN, _ => PopRetBuiltin_exec
  | PUSH_RET_BUILTIN, _ => PushRetBuiltin_exec
  | COPY_RET_BUILTIN, _ => CopyRetBuiltin_exec
  | LESS_BUILTIN, _ => LessBuiltin_exec
  | EQUAL_BUILTIN, _ => EqualBuiltin_exec
  | GREATER_BUILTIN, _ => GreaterBuiltin_exec
  | ULESS_BUILTIN, _ => ULessBuiltin_exec
  | NOT_BUILTIN, _ => NotBuiltin_exec
  | PLUS_BUILTIN, _ => PlusBuiltin_exec
  | MINUS_BUILTIN, _ => MinusBuiltin_exec
  | TIMES_BUILTIN, _ => TimesBuiltin_exec
  | DIVIDE_BUILTIN, _ => DivideBuiltin_exec
  | MOD_BUILTIN, _ => ModBuiltin_exec
  | DMOD_BUILTIN, _ => DModBuiltin_exec
  | PLUS1_BUILTIN, _ => Plus1Builtin_exec
  | PLUS2_BUILTIN, _ => Plus2Builtin_exec
  | MULDIV_BUILTIN, _ => MulDivBuiltin_exec
  | MAX_BUILTIN, _ => MaxBuiltin_exec
  | MIN_BUILTIN, _ => MinBuiltin_exec
  | ABS_BUILTIN, _ => AbsBuiltin_exec
  | NEGATE_BUILTIN, _ => NegateBuiltin_exec
  | AND_BUILTIN, _ => AndBuiltin_exec
  | OR_BUILTIN, _ => OrBuiltin_exec
  | XOR_BUILTIN, _ => XorBuiltin_exec
  | FETCH_BUILTIN, _ => FetchBuiltin_exec
  | STORE_BUILTIN, _ => StoreBuiltin_exec
  | PFETCH_BUILTIN, _ => PFetchBuiltin_exec
  | ADDSTORE_BUILTIN, _ => AddStoreBuiltin_exec
  | MOVE_BUILTIN, _ => MoveBuiltin_exec
  | FILL_BUILTIN, _ => FillBuiltin_exec
  | DO_BUILTIN, DoValue v => DoBuiltin_exec k self v
  | I_BUILTIN, _ => IBuiltin_exec
  | J_BUILTIN, _ => JBuiltin_exec
  | LEAVE_BUILTIN, _ => LeaveBuiltin_exec
  | IF_BUILTIN, IfValue v => IfBuiltin_exec v
  | BEGIN_BUILTIN, BeginValue v => BeginBuiltin_exec k self v
  | LOOP_BUILTIN, _ | ILOOP_BUILTIN, _ | ELSE_BUILTIN, _ | THEN_BUILTIN, _
  | UNTIL_BUILTIN, _ | WHILE_BUILTIN, _ | REPEAT_BUILTIN, _ => ret State_success
  | EMIT_BUILTIN, _ => EmitBuiltin_exec
  | PRINTTO_BUILTIN, StringValue text => PrintToBuiltin_exec text
  | TYPE_BUILTIN, _ => TypeBuiltin_exec
  | COUNT_BUILTIN, _ => CountBuiltin_exec
  | TRAILING_BUILTIN, _ => TrailingBuiltin_exec
  | KEY_BUILTIN, _ => KeyBuiltin_exec
  | EXPECT_BUILTIN, _ => ExpectBuiltin_exec
  | QUERY_BUILTIN, _ => QueryBuiltin_exec
  | WORD_BUILTIN, _ => WordBuiltin_exec
  | DECIMAL_BUILTIN, _ => DecimalBuiltin_exec
  | PRINT_BUILTIN, _ => PrintBuiltin_exec
  | PSTACK_BUILTIN, _ => PStackBuiltin_exec
  | LOAD_BUILTIN, StringValue filename => LoadBuiltin_exec k filename
  | DEFINE_BUILTIN, _ => DefineBuiltin_exec k
  | VARIABLE_BUILTIN, _ => VariableBuiltin_exec
  | CONSTANT_BUILTIN, _ => ConstantBuiltin_exec
  | CREATE_BUILTIN, _ => CreateBuiltin_exec
  | COMMA_BUILTIN, _ => CommaBuiltin_exec
  | DOES_BUILTIN, TokensValue tokens => DoesBuiltin_exec tokens
  | FORGET_BUILTIN, _ => ForgetBuiltin_exec
  | ALLOT_BUILTIN, _ => AllotBuiltin_exec
  | COMMENT_BUILTIN, _ => CommentBuiltin_exec
  | HERE_BUILTIN, _ => HereBuiltin_exec
  | ABORT_BUILTIN, _ => AbortBuiltin_exec
  | QUIT_BUILTIN, _ => QuitBuiltin_exec
  | DEBUG_BUILTIN, _ => DebugBuiltin_exec
  | _, _ => abend WrongCast
  end.

(** [Token::exec], virtual. *)
Definition Token_exec (k : nat) (token : TokenP) : M State :=
  t ← deref token;
  match t with
  | BuiltinToken b => Builtin_exec k token b
  | ProcedureToken p => Procedure_exec p
  | _ => State_error "Not implemented"
  end.

End Executor.

(** [execToken]: an executable token is run, with a block entered in
    [execTokens_] meanwhile; any other token is pushed, and a variable
    then runs the tokens of its [DOES>]. *)
Fixpoint execToken (fuel : nat) (token : TokenP) : M State :=
  match fuel with
  | O => nofuel
  | S fuel' =>
      t ← deref token;
      if Token_isExecutable t then
        debug_token "Exec: " token;;
        if Token_isBlock t then
          modify (fun g => set_execTokens_ (vec_push_back (execTokens_ g) token) g);;
          state ← Token_exec (execToken fuel') fuel' token;
          g ← get;
          v ← defined OutOfRange (vec_pop_back (execTokens_ g));
          modify (set_execTokens_ v);;
          ret state
        else Token_exec (execToken fuel') fuel' token
      else
        pushToken token;;
        if Token_isVariable t then
          modify (set_currentVar_ token);;
          ensure Variable_execTokens (execToken fuel') token;
          ret State_success
        else ret State_success
  end.

(** ** The session *)

Definition run_parseLine (fuel : nat) (line : string) : M State :=
  parseLine (execToken fuel) fuel (Line_new line).

Definition run_parseFile (fuel : nat) (filename : string) : M State :=
  parseFile (execToken fuel) fuel filename.

(** The loop of [init] over the lines of the start-up file. *)
Fixpoint init_loop (fuel : nat) (k : nat) (file : File) (line : Line) : M State :=
  match k with
  | O => nofuel
  | S k' =>
      let '(ok, file, line) := File_readLine file line in
      if negb ok then ret State_success else
      ensure parseLine (execToken fuel) fuel line;
      init_loop fuel k' file line
  end.

Definition init (fuel : nat) : M State :=
  var ← defineVariable_int "BASE" 10;
  g ← get;
  match HOME g with
  | None => ret State_success
  | Some env =>
      let filename := env ++ "/.CForth" in
      r ← File_open (File_new filename);
      if negb (valid r.1) then ret State_success else
      init_loop fuel (match fp_ r.2 with
                      | Some (rest, _) => String.length rest + 2
                      | None => 0
                      end) r.2 (Line_new "")
  end.

(** ** The driver of [CForthTest.cpp] *)

Definition report_lastError : M unit :=
  g ← get; modify (set_cerr (cerr g ++ msg (lastError_ g) ++ endl)).

Definition processFile (fuel : nat) (filename : string) : M unit :=
  st ← run_parseFile fuel filename;
  if negb (valid st) then report_lastError else ret tt.

Fixpoint processFiles (fuel : nat) (filenames : list string) : M unit :=
  match filenames with
  | [] => ret tt
  | filename :: rest => processFile fuel filename;; processFiles fuel rest
  end.

(** The interactive loop, over the lines the prompt returns. *)
Fixpoint interact (fuel : nat) (lines : list string) : M unit :=
  match lines with
  | [] => ret tt
  | line :: rest =>
      if String.eqb line "bye" then ret tt else
      st ← run_parseLine fuel line;
      (if negb (valid st) then report_lastError else ret tt);;
      interact fuel rest
  end.

(** [main], after its arguments are read: the flags [-debug] and
    [-no_init], the file names, and the lines typed when there is none. *)
Definition main (fuel : nat) (debug no_init : bool) (filenames lines : list string) : M Z :=
  setDebug debug;;
  (if negb no_init then init fuel;; ret tt else ret tt);;
  (if negb (bool_decide (filenames = [])) then processFiles fuel filenames
   else interact fuel lines);;
  ret 0.

(** ** Vocabulary of the properties *)

(** The variable [BASE] is defined and its current cell holds the number
    [n]. *)
Definition BASE_holds (g : Globals) (n : Number) : Prop :=
  exists a var b,
    lookupVariable "BASE" g = Some (ptr a) /\
    heap g !! a = Some (VariableToken var) /\
    Variable_value var = ptr b /\
    heap g !! b = Some (NumberToken n).

(** The number behind a parameter-stack slot, when it holds one. *)
Definition number_at (g : Globals) (p : TokenP) : option Number :=
  match p with
  | null => None
  | ptr a => match heap g !! a with Some (NumberToken n) => Some n | _ => None end
  end.

(** What [?DUP] leaves of a stack [st ++ [top]] whose top holds the
    integer [n]. *)
Definition after_QDup (g : Globals) (st : list TokenP) (n : Z) : Globals :=
  if n =? 0 then set_tokens_ st g
  else set_tokens_ (st ++ [ptr (length (heap g))])
         (set_heap (heap g ++ [NumberToken (Integer n)]) (set_tokens_ st g)).

(** Inside a [DO] loop: the return stack ends in the index and the limit,
    the index object holds [i], the limit object holds [limit], the
    [DO] object [self] has body [tokens], counts by one and has its
    [leave] flag down, and the diagnostics are off. *)
Definition in_loop (self index_ limit_ : nat) (tokens rs : list TokenP) (limit i : Z)
    (g : Globals) : Prop :=
  retTokens_ g = (rs ++ [ptr index_; ptr limit_])%list /\
  heap g !! index_ = Some (NumberToken (Integer i)) /\
  heap g !! limit_ = Some (NumberToken (Integer limit)) /\
  heap g !! self =
    Some (BuiltinToken (mkBuiltin DO_BUILTIN (DoValue (mkDoTokens tokens false false)))) /\
  debug_ g = false.

(** The step [LOOP] makes: the index object goes up by one. *)
Definition step_index (index_ : nat) (g : Globals) : Globals :=
  match heap g !! index_ with
  | Some (NumberToken n) =>
      set_heap (<[index_ := NumberToken (Number_inc n (Number_makeInteger 1))]> (heap g)) g
  | _ => g
  end.

(** The globals when the first round of a [DO] starts: the two operands
    are popped, the copy of the start is the new object at the end of the
    store, the return stack has it and the limit on top, and the [leave]
    flag of the [DO] object is down. *)
Definition loop_entry (self limit_ : nat) (tokens st rs : list TokenP) (start : Z)
    (g : Globals) : Globals :=
  set_heap
    (<[self := BuiltinToken (mkBuiltin DO_BUILTIN (DoValue (mkDoTokens tokens false false)))]>
       (heap g ++ [NumberToken (Integer start)])%list)
    (set_retTokens_ (rs ++ [ptr (length (heap g)); ptr limit_]) (set_tokens_ st g)).

(** A digit of the base [b]: one of the first [b] characters of
    [base_chars]. *)
Definition is_digit (b : Z) (c : ascii) : Prop :=
  exists d, 0 <= d < b /\ base_chars_at d = Some c.

Fixpoint all_digits (b : Z) (p : string) : Prop :=
  match p with
  | EmptyString => True
  | String c rest => is_digit b c /\ all_digits b rest
  end.

(** The value of a string of digits read from the left, starting from
    [acc]. *)
Fixpoint digits_value (b : Z) (p : string) (acc : Z) : Z :=
  match p with
  | EmptyString => acc
  | String c rest => digits_value b rest (acc * b + default 0 (isBaseChar c b))
  end.

(** The [d]-th character of [base_chars] is no lower-case letter, is found
    at [d], and is neither a sign, nor a space, nor the point. *)
Definition digit_check (d : nat) : bool :=
  match base_chars_at (Z.of_nat d) with
  | Some c =>
      negb (Ascii.eqb c ".") && negb (isspace c) && negb (strchr "+-" c)
      && bool_decide (string_find base_chars c = Some d) && negb (islower c)
  | None => false
  end.

(** ** Concrete runs *)

(** The globals a computation ends with; the initial ones when it ends
    abnormally. *)
Definition globals_of {A} (o : Outcome A) : Globals :=
  match o with
  | Ret _ g => g
  | Throw _ g => g
  | _ => Globals_init "" ∅ None
  end.

(** The value a computation returns, when it returns. *)
Definition value_of {A} (o : Outcome A) : option A :=
  match o with
  | Ret a _ => Some a
  | _ => None
  end.

(** An interactive session: [main] without arguments on an empty file
    system, with the lines typed at the prompt. *)
Definition session (lines : list string) : Outcome Z :=
  main 1000 false false [] lines (Globals_init "" ∅ None).

(** Globals that hold the objects [objects] and the parameter stack
    [stack], and are otherwise initial. *)
Definition stack_state (objects : list Token) (stack : list TokenP) : Globals :=
  set_tokens_ stack (set_heap objects (Globals_init "" ∅ None)).

(** A variable [X] of two cells, a reference to its second cell, and a
    number. *)
Definition reference_objects : list Token :=
  [ VariableToken (mkVariable "X" [ptr 3; ptr 3] 0 false []);
    VariableRefToken (mkVariableRef (ptr 0) 1);
    NumberToken (Integer 4);
    NumberToken (Integer 0) ].

(** [X] is defined and is the next word of the input. *)
Definition before_forget : Globals :=
  set_line_ (Line_new "X") (globals_of (session ["VARIABLE X"])).

(** A [DO] object with a body of one token, the limit 3 and the start 0. *)
Definition loop_objects : list Token :=
  [ BuiltinToken (mkBuiltin DO_BUILTIN (DoValue (mkDoTokens [null] false false)));
    NumberToken (Integer 3);
    NumberToken (Integer 0) ].

End CForth.

Arguments Ret {platform A} a g.
Arguments Throw {platform A} e g.
Arguments Abend {platform A} f.
Arguments NoFuel {platform A}.

(** * Properties *)

(** ** Running a computation whose first step is known *)

Section Steps.

Context {platform : Platform}.

#[local] Existing Instance M_ret.
#[local] Existing Instance M_bind.

Lemma bind_Ret {A B} (m : M A) (k : A -> M B) (g g' : Globals) (a : A) :
  m g = Ret a g' -> (m ≫= k) g = k a g'.
Proof. intros H. unfold mbind, M_bind, bind. rewrite H. reflexivity. Qed.

Lemma bind_Abend {A B} (m : M A) (k : A -> M B) (g : Globals) (f : Fault) :
  m g = Abend f -> (m ≫= k) g = Abend f.
Proof. intros H. unfold mbind, M_bind, bind. rewrite H. reflexivity. Qed.

Lemma checked_Ret {A} (m : M (State * A)) (k : A -> M State) (g g' : Globals) (a : A) :
  m g = Ret (State_success, a) g' -> checked m k g = k a g'.
Proof. intros H. unfold checked. rewrite (bind_Ret _ _ _ _ _ H). reflexivity. Qed.

Lemma checked__Ret (m : M State) (k : M State) (g g' : Globals) :
  m g = Ret State_success g' -> checked_ m k g = k g'.
Proof. intros H. unfold checked_. rewrite (bind_Ret _ _ _ _ _ H). reflexivity. Qed.

Lemma defined_Some {A} (f : Fault) (a : A) (g : Globals) : defined f (Some a) g = Ret a g.
Proof. reflexivity. Qed.

Lemma modify_eq (f : Globals -> Globals) (g : Globals) : modify f g = Ret tt (f g).
Proof. reflexivity. Qed.

Lemma ret_eq {A} (a : A) (g : Globals) : ret a g = Ret a g.
Proof. reflexivity. Qed.

Lemma get_eq (g : Globals) : get g = Ret g g.
Proof. reflexivity. Qed.

(** With [debug_] off a diagnostic block does nothing. *)
Lemma when_debug_off (block : M unit) (g : Globals) :
  debug_ g = false -> when_debug block g = Ret tt g.
Proof.
  intros H. unfold when_debug, isDebug, mbind, M_bind, bind, gets. rewrite H. reflexivity.
Qed.

Lemma debug_token_off (label : string) (token : TokenP) (g : Globals) :
  debug_ g = false -> debug_token label token g = Ret tt g.
Proof. apply when_debug_off. Qed.

End Steps.

(** [munfold] opens the plumbing of the monad; [step H] runs the first
    call of the goal by the equation [H] that tells its outcome. *)
Ltac munfold :=
  unfold mbind, mret, M_bind, M_ret, bind, ret, get, gets, modify, defined, no_fault, abend,
         nofuel, throw, failed, success, lastError, checked, checked_, State_lastError,
         State_error in *.

Ltac step H := first
  [ rewrite (checked_Ret _ _ _ _ _ H)
  | rewrite (checked__Ret _ _ _ _ H)
  | rewrite (bind_Ret _ _ _ _ _ H)
  | rewrite (bind_Abend _ _ _ _ H) ];
  cbv beta; cbn [fst snd valid negb State_success].

Section Properties.

Context {platform : Platform}.

#[local] Existing Instance M_ret.
#[local] Existing Instance M_bind.

(** ** Vectors that end in a known element *)

Lemma snoc_nonempty {A} (l : list A) (x : A) :
  bool_decide ((l ++ [x])%list = []) = false.
Proof. apply bool_decide_eq_false. destruct l; discriminate. Qed.

Lemma vec_back_snoc {A} (l : list A) (x : A) : vec_back (l ++ [x])%list = Some x.
Proof. unfold vec_back. apply last_snoc. Qed.

Lemma vec_pop_back_snoc {A} (l : list A) (x : A) : vec_pop_back (l ++ [x])%list = Some l.
Proof.
  unfold vec_pop_back. destruct (l ++ [x])%list eqn:E.
  - destruct l; discriminate.
  - rewrite <- E. f_equal. apply removelast_last.
Qed.

Lemma vec_size_snoc {A} (l : list A) (x : A) : vec_size (l ++ [x])%list = vec_size l + 1.
Proof. unfold vec_size. rewrite length_app. simpl. lia. Qed.

Lemma vec_at_size_snoc {A} (l : list A) (x : A) : vec_at (l ++ [x])%list (vec_size l) = Some x.
Proof.
  unfold vec_at, vec_size. destruct (Z.leb_spec 0 (Z.of_nat (length l))); [|lia].
  rewrite Nat2Z.id. apply list_lookup_middle. reflexivity.
Qed.

Lemma vec_at_app_l {A} (l l' : list A) (i : Z) :
  0 <= i < vec_size l -> vec_at (l ++ l')%list i = vec_at l i.
Proof.
  unfold vec_at, vec_size. intros H. destruct (Z.leb_spec 0 i); [|lia].
  apply lookup_app_l. lia.
Qed.

(** ** Popping and pushing *)

Lemma popToken_snoc (g : Globals) st p :
  debug_ g = false ->
  tokens_ g = (st ++ [p])%list ->
  popToken g = Ret (State_success, p) (set_tokens_ st g).
Proof.
  intros Hd H. unfold popToken.
  step (get_eq g). rewrite H, snoc_nonempty, vec_back_snoc, vec_pop_back_snoc.
  step (defined_Some OutOfRange p g). step (defined_Some OutOfRange st g).
  step (modify_eq (set_tokens_ st) g).
  step (debug_token_off "Pop: " p (set_tokens_ st g) Hd). reflexivity.
Qed.

Lemma popToken_empty (g : Globals) :
  tokens_ g = [] ->
  popToken g = Ret (mkState false "STACK EMPTY", null)
                   (set_lastError_ (mkState false "STACK EMPTY") g).
Proof. intros H. unfold popToken. munfold. rewrite H. reflexivity. Qed.

Lemma deref_eq (g : Globals) a t : heap g !! a = Some t -> deref (ptr a) g = Ret t g.
Proof. intros H. unfold deref. munfold. rewrite H. reflexivity. Qed.

(** A number token that is not behind a constant converts to its number. *)
Lemma tokenToNumber_number (g : Globals) a n :
  heap g !! a = Some (NumberToken n) ->
  tokenToNumber (ptr a) g = Ret (State_success, n) g.
Proof.
  intros H. unfold tokenToNumber.
  step (deref_eq g a _ H). cbn [Token_isVarBase].
  unfold mret, M_ret. step (eq_refl (ret (ptr a) g)).
  step (deref_eq g a _ H). reflexivity.
Qed.

Lemma popNumber_snoc (g : Globals) st a n :
  debug_ g = false ->
  tokens_ g = (st ++ [ptr a])%list ->
  heap g !! a = Some (NumberToken n) ->
  popNumber g = Ret (State_success, n) (set_tokens_ st g).
Proof.
  intros Hd Ht Hh. unfold popNumber.
  step (popToken_snoc g st (ptr a) Hd Ht).
  step (tokenToNumber_number (set_tokens_ st g) a n Hh). reflexivity.
Qed.

Lemma popNumbers_snoc (g : Globals) st a1 a2 n1 n2 :
  debug_ g = false ->
  tokens_ g = (st ++ [ptr a1; ptr a2])%list ->
  heap g !! a1 = Some (NumberToken n1) ->
  heap g !! a2 = Some (NumberToken n2) ->
  popNumbers g = Ret (State_success, (n1, n2)) (set_tokens_ st g).
Proof.
  intros Hd Ht H1 H2. unfold popNumbers.
  assert (Ht' : tokens_ g = ((st ++ [ptr a1]) ++ [ptr a2])%list)
    by (rewrite Ht, <- app_assoc; reflexivity).
  step (popNumber_snoc g _ a2 n2 Hd Ht' H2).
  step (popNumber_snoc (set_tokens_ (st ++ [ptr a1]) g) st a1 n1 Hd eq_refl H1).
  reflexivity.
Qed.

Lemma pushToken_eq (g : Globals) p :
  debug_ g = false ->
  pushToken p g = Ret tt (set_tokens_ (tokens_ g ++ [p]) g).
Proof.
  intros Hd. unfold pushToken. step (debug_token_off "Push: " p g Hd). reflexivity.
Qed.

Lemma pushNumber_eq (g : Globals) n :
  debug_ g = false ->
  pushNumber n g =
    Ret tt (set_tokens_ (tokens_ g ++ [ptr (length (heap g))])
              (set_heap (heap g ++ [NumberToken n]) g)).
Proof.
  intros Hd. unfold pushNumber.
  step (eq_refl (alloc (NumberToken n) g)).
  apply (pushToken_eq (set_heap (heap g ++ [NumberToken n]) g) _ Hd).
Qed.

Lemma tokens_empty_snoc (g : Globals) st p :
  tokens_ g = (st ++ [p])%list -> tokens_empty g = Ret false g.
Proof. intros H. unfold tokens_empty. munfold. rewrite H, snoc_nonempty. reflexivity. Qed.

Lemma tokens_size_eq (g : Globals) : tokens_size g = Ret (vec_size (tokens_ g)) g.
Proof. reflexivity. Qed.

Lemma tokens_back_snoc (g : Globals) st p :
  tokens_ g = (st ++ [p])%list -> tokens_back g = Ret p g.
Proof. intros H. unfold tokens_back. munfold. rewrite H, vec_back_snoc. reflexivity. Qed.

Lemma tokens_at_eq (g : Globals) i x :
  vec_at (tokens_ g) i = Some x -> tokens_at i g = Ret x g.
Proof. intros H. unfold tokens_at. munfold. rewrite H. reflexivity. Qed.

(** ** The print builtin on an empty stack *)

(** C10: when [.] runs on an empty parameter stack it writes "0" and a
    newline to the standard output and returns the error "STACK EMPTY";
    the parameter stack is still empty afterwards. *)
Theorem print_on_empty_stack (g : Globals) :
  tokens_ g = [] ->
  exists g',
    PrintBuiltin_exec g = Ret (mkState false "STACK EMPTY") g' /\
    cout g' = cout g ++ "0" ++ endl /\
    lastError_ g' = mkState false "STACK EMPTY" /\
    tokens_ g' = [].
Proof.
  intros H.
  exists (set_cout (cout g ++ "0" ++ endl) (set_lastError_ (mkState false "STACK EMPTY") g)).
  split; [|repeat split; cbn; assumption].
  unfold PrintBuiltin_exec. step (popToken_empty g H). reflexivity.
Qed.

(** ** [MOD] by zero *)

(** C6: with two integers on the stack and zero on top, [MOD] neither
    returns a failed [State] nor pushes a value: the assertion of
    [Number::Mod] fails and the program ends there. *)
Theorem mod_by_zero_asserts (g : Globals) st a1 a2 (i : Z) :
  debug_ g = false ->
  tokens_ g = (st ++ [ptr a1; ptr a2])%list ->
  heap g !! a1 = Some (NumberToken (Integer i)) ->
  heap g !! a2 = Some (NumberToken (Integer 0)) ->
  ModBuiltin_exec g = Abend AssertionFailed.
Proof.
  intros Hd Ht H1 H2. unfold ModBuiltin_exec, binary_exec.
  step (popNumbers_snoc g st a1 a2 _ _ Hd Ht H1 H2). reflexivity.
Qed.

(** ** [?DUP] *)

(** C2: [?DUP] pops the integer [n] on top of the stack and pushes it
    back once when it is not zero: the depth is then what it was, with no
    additional copy; a zero is dropped, and the stack is one shorter. *)
Theorem QDup_pops_its_argument (g : Globals) st a (n : Z) :
  debug_ g = false ->
  tokens_ g = (st ++ [ptr a])%list ->
  heap g !! a = Some (NumberToken (Integer n)) ->
  QDupBuiltin_exec g = Ret State_success (after_QDup g st n) /\
  (n <> 0 -> length (tokens_ (after_QDup g st n)) = length (tokens_ g)) /\
  (n = 0 -> tokens_ (after_QDup g st n) = st /\
            S (length (tokens_ (after_QDup g st n))) = length (tokens_ g)).
Proof.
  intros Hd Ht Hh. unfold after_QDup. split; [|split; [|intros ->; split]].
  - unfold QDupBuiltin_exec. step (popNumber_snoc g st a _ Hd Ht Hh).
    cbn [Number_integer]. destruct (n =? 0); cbn [negb]; [reflexivity|].
    step (pushNumber_eq (set_tokens_ st g) (Integer n) Hd). reflexivity.
  - intros Hn. apply Z.eqb_neq in Hn. rewrite Hn, Ht. cbn. rewrite !length_app. reflexivity.
  - reflexivity.
  - cbn. rewrite Ht, length_app. cbn. lia.
Qed.

(** ** Copies of a token on the stack *)

Lemma pushDupToken_eq (g : Globals) a t :
  heap g !! a = Some t ->
  pushDupToken (ptr a) g = Ret tt (set_tokens_ (tokens_ g ++ [ptr a]) g).
Proof.
  intros H. unfold pushDupToken. step (deref_eq g a t H). reflexivity.
Qed.

(** The object behind [p] after [inc]: a reference has its offset moved. *)
Lemma Token_inc_ref (g : Globals) a r (k : Z) :
  heap g !! a = Some (VariableRefToken r) ->
  Token_inc (ptr a) (Integer k) g =
    Ret State_success
        (set_heap (<[a := VariableRefToken (mkVariableRef (var_ r) (to_int (ref_ind r + k)))]>
                     (heap g)) g).
Proof.
  intros H. unfold Token_inc. step (deref_eq g a _ H).
  assert (Hi : VarBase_ind (ptr a) g = Ret (ref_ind r) g).
  { unfold VarBase_ind. step (deref_eq g a _ H). reflexivity. }
  step Hi.
  assert (Hs : VarBase_setInd (ptr a) (to_int (ref_ind r + Number_integer (Integer k))) g =
               Ret tt (set_heap (<[a := VariableRefToken
                                          (mkVariableRef (var_ r) (to_int (ref_ind r + k)))]>
                                   (heap g)) g)).
  { unfold VarBase_setInd. step (deref_eq g a _ H). reflexivity. }
  step Hs. reflexivity.
Qed.

(** C7: [DUP] and [OVER] push the pointer they find, for a variable
    reference as for any token: the two slots hold one object, not a
    reference and its copy, and moving the offset through one slot moves
    what the other slot reads. *)
Theorem dup_over_share_the_reference (g : Globals) st a b r (k : Z) :
  debug_ g = false ->
  heap g !! a = Some (VariableRefToken r) ->
  (tokens_ g = (st ++ [ptr a])%list ->
     DupBuiltin_exec g = Ret State_success (set_tokens_ (st ++ [ptr a; ptr a]) g)) /\
  (tokens_ g = (st ++ [ptr a; ptr b])%list ->
     OverBuiltin_exec g = Ret State_success (set_tokens_ (st ++ [ptr a; ptr b; ptr a]) g)) /\
  (exists g', Token_inc (ptr a) (Integer k) g = Ret State_success g' /\
     heap g' !! a = Some (VariableRefToken (mkVariableRef (var_ r) (to_int (ref_ind r + k))))).
Proof.
  intros Hd Ha. split; [|split].
  - intros Ht. unfold DupBuiltin_exec.
    step (tokens_empty_snoc g st (ptr a) Ht).
    step (tokens_back_snoc g st (ptr a) Ht).
    step (pushDupToken_eq g a _ Ha).
    step (debug_token_off "Dup: " (ptr a) (set_tokens_ (tokens_ g ++ [ptr a]) g) Hd).
    rewrite Ht, <- app_assoc. reflexivity.
  - intros Ht. unfold OverBuiltin_exec.
    step (tokens_size_eq g).
    assert (Hs : vec_size (tokens_ g) = vec_size st + 2).
    { rewrite Ht. unfold vec_size. rewrite length_app. cbn. lia. }
    rewrite Hs. destruct (Z.ltb_spec (vec_size st + 2) 2); [unfold vec_size in *; lia|].
    replace (vec_size st + 2 - 2) with (vec_size st) by lia.
    assert (Hat : tokens_at (vec_size st) g = Ret (ptr a) g).
    { apply tokens_at_eq. rewrite Ht.
      change (st ++ [ptr a; ptr b])%list with (st ++ [ptr a] ++ [ptr b])%list.
      rewrite app_assoc, vec_at_app_l by (rewrite vec_size_snoc; unfold vec_size; lia).
      apply vec_at_size_snoc. }
    step Hat. step (pushDupToken_eq g a _ Ha).
    step (debug_token_off "Over: " (ptr a) (set_tokens_ (tokens_ g ++ [ptr a]) g) Hd).
    rewrite Ht, <- !app_assoc. reflexivity.
  - eexists. split; [apply Token_inc_ref; exact Ha|].
    cbn. apply list_lookup_insert_eq. eapply lookup_lt_Some; exact Ha.
Qed.

(** ** The number base *)

Lemma getBase_of_BASE (g : Globals) a var b n :
  ignore_base_ g = false ->
  lookupVariable "BASE" g = Some (ptr a) ->
  heap g !! a = Some (VariableToken var) ->
  Variable_value var = ptr b ->
  heap g !! b = Some (NumberToken n) ->
  getBase g = Ret (Z.min (Z.max (Number_integer n) 2) 36) g.
Proof.
  intros Hi Hl Ha Hv Hb. unfold getBase.
  step (eq_refl (get g)). rewrite Hi, Hl.
  assert (Hg : Variable_getInteger (ptr a) g = Ret (true, Number_integer n) g).
  { unfold Variable_getInteger. step (deref_eq g a _ Ha).
    unfold as_Variable, mret, M_ret. step (eq_refl (ret var g)).
    rewrite Hv. step (deref_eq g b _ Hb). reflexivity. }
  step Hg. reflexivity.
Qed.

(** C4: an integer [v] kept in [BASE] is read as a base between 2 and
    36: as [v] itself when it lies there, as 2 when it is smaller and as 36
    when it is larger. *)
Theorem getBase_clamps (g : Globals) (v : Z) :
  ignore_base_ g = false ->
  BASE_holds g (Integer v) ->
  exists base,
    getBase g = Ret base g /\
    2 <= base <= 36 /\
    (2 <= v <= 36 -> base = v) /\
    (v < 2 -> base = 2) /\
    (36 < v -> base = 36).
Proof.
  intros Hi (a & var & b & Hl & Ha & Hv & Hb).
  exists (Z.min (Z.max v 2) 36). split.
  - apply (getBase_of_BASE g a var b (Integer v)); assumption.
  - lia.
Qed.

(** ** [DECIMAL] *)

(** C1: [DECIMAL] defines [BASE] when it is absent and does nothing else:
    with [BASE] bound, the globals are what they were, and so is the base
    read from them. *)
Theorem Decimal_keeps_a_bound_BASE (g : Globals) var :
  lookupVariable "BASE" g = Some var ->
  DecimalBuiltin_exec g = Ret State_success g.
Proof.
  intros H. unfold DecimalBuiltin_exec.
  step (eq_refl (get g)). rewrite H. reflexivity.
Qed.

Lemma defineVariable_eq (g : Globals) name :
  debug_ g = false ->
  defineVariable name g =
    Ret (ptr (length (heap g)))
        (set_variables_
           (<[name := (default [] (variables_ g !! name) ++ [ptr (length (heap g))])%list]>
              (variables_ g))
           (set_heap (heap g ++ [VariableToken (mkVariable name [] 0 false [])]) g)).
Proof.
  intros Hd. unfold defineVariable.
  step (eq_refl (alloc (VariableToken (mkVariable name [] 0 false [])) g)).
  match goal with |- (modify ?f ≫= _) ?g1 = _ => step (modify_eq f g1) end.
  match goal with |- (when_debug ?b ≫= _) ?g2 = _ => step (when_debug_off b g2 Hd) end.
  reflexivity.
Qed.

(** [DECIMAL] with no [BASE] in the dictionary defines it, holding 10. *)
Lemma Decimal_defines_an_absent_BASE (g : Globals) :
  debug_ g = false ->
  ignore_base_ g = false ->
  lookupVariable "BASE" g = None ->
  exists g',
    DecimalBuiltin_exec g = Ret State_success g' /\
    BASE_holds g' (Integer 10) /\
    getBase g' = Ret 10 g'.
Proof.
  intros Hd Hi Hl.
  set (n := length (heap g)).
  set (g1 := set_heap (heap g ++ [NumberToken (Integer 10)]) g).
  assert (Hn1 : length (heap g1) = S n) by (subst g1 n; cbn; rewrite length_app; cbn; lia).
  pose proof (defineVariable_eq g1 "BASE" Hd) as Hdef. rewrite Hn1 in Hdef.
  match type of Hdef with _ = Ret _ ?x => set (g2 := x) in * end.
  set (var := mkVariable "BASE" [ptr n] 0 false []).
  set (g3 := set_heap (<[S n := VariableToken var]> (heap g2)) g2).
  assert (Hh2 : heap g2 = (heap g ++ [NumberToken (Integer 10)] ++
                           [VariableToken (mkVariable "BASE" [] 0 false [])])%list).
  { subst g2 g1. cbn. rewrite <- app_assoc. reflexivity. }
  assert (Hvar : heap g2 !! S n = Some (VariableToken (mkVariable "BASE" [] 0 false []))).
  { rewrite Hh2, app_assoc. replace (S n) with (length (heap g ++ [NumberToken (Integer 10)]))
      by (rewrite length_app; cbn; subst n; lia).
    apply list_lookup_middle. reflexivity. }
  assert (Hrun : defineVariable_int "BASE" 10 g = Ret (ptr (S n)) g3).
  { unfold defineVariable_int.
    step (eq_refl (alloc (NumberToken (Number_makeInteger 10)) g)).
    unfold defineVariable_token. fold g1. fold n. step Hdef.
    assert (Hadd : Variable_addValue_at (ptr (S n)) (ptr n) g2 = Ret tt g3).
    { unfold Variable_addValue_at. step (deref_eq g2 (S n) _ Hvar). reflexivity. }
    step Hadd. reflexivity. }
  assert (Hh3 : heap g3 = <[S n := VariableToken var]> (heap g2)) by reflexivity.
  assert (Hholds : BASE_holds g3 (Integer 10)).
  { exists (S n), var, n. repeat split.
    - unfold lookupVariable. subst g3 g2. cbn. rewrite lookup_insert_eq. apply last_snoc.
    - rewrite Hh3. apply list_lookup_insert_eq. eapply lookup_lt_Some; exact Hvar.
    - rewrite Hh3, list_lookup_insert_ne by lia. rewrite Hh2.
      apply list_lookup_middle. reflexivity. }
  exists g3. split; [|split].
  - unfold DecimalBuiltin_exec. step (get_eq g). rewrite Hl.
    match goal with |- ((?m ≫= ?k) ≫= _) g = _ =>
      assert (Hm : (m ≫= k) g = Ret tt g3) by (step Hrun; reflexivity) end.
    step Hm. reflexivity.
  - exact Hholds.
  - destruct Hholds as (a & v & b & H1 & H2 & H3 & H4).
    apply (getBase_of_BASE g3 a v b (Integer 10)); assumption.
Qed.

(** ** [FORGET] *)

Lemma lookup_last_nonempty (m : gmap string (list TokenP)) name var :
  match m !! name with None => None | Some vars => last vars end = Some var ->
  exists vars, m !! name = Some (vars ++ [var])%list.
Proof.
  destruct (m !! name) as [vars|]; [|discriminate]. intros H.
  destruct (last_Some vars var) as [[l ->] _]; [exact H|]. eauto.
Qed.

(** The diagnostic that names what was forgotten writes and returns. *)
Lemma debug_name_returns (label name : string) (g : Globals) :
  exists g', when_debug (IgnoreBase (write label;; write name;; write endl)) g = Ret tt g'.
Proof.
  unfold when_debug, isDebug. unfold mbind at 1, M_bind at 1, bind at 1, gets.
  destruct (debug_ g); eexists; reflexivity.
Qed.

Lemma forgetVariable_bound (g : Globals) name vars var :
  debug_ g = false ->
  variables_ g !! name = Some (vars ++ [var])%list ->
  forgetVariable name g = Ret true (set_variables_ (<[name := vars]> (variables_ g)) g).
Proof.
  intros Hd H. unfold forgetVariable. step (eq_refl (get g)). rewrite H.
  destruct (vars ++ [var])%list eqn:E; [destruct vars; discriminate|].
  rewrite <- E, removelast_last.
  step (modify_eq (set_variables_ (<[name := vars]> (variables_ g))) g).
  step (when_debug_off (IgnoreBase (write "Forget Var: ";; write name;; write endl))
          (set_variables_ (<[name := vars]> (variables_ g)) g) Hd).
  reflexivity.
Qed.

Lemma forgetVariable_returns (g : Globals) name vars var :
  variables_ g !! name = Some (vars ++ [var])%list ->
  exists g', forgetVariable name g = Ret true g'.
Proof.
  intros H. unfold forgetVariable. step (eq_refl (get g)). rewrite H.
  destruct (vars ++ [var])%list eqn:E; [destruct vars; discriminate|].
  step (modify_eq (set_variables_ (<[name := removelast (t :: l)]> (variables_ g))) g).
  destruct (debug_name_returns "Forget Var: " name
              (set_variables_ (<[name := removelast (t :: l)]> (variables_ g)) g)) as [g' Hw].
  step Hw. eexists. reflexivity.
Qed.

Lemma forgetProcedure_returns (g : Globals) name procs proc :
  procedures_ g !! name = Some (procs ++ [proc])%list ->
  exists g', forgetProcedure name g = Ret true g'.
Proof.
  intros H. unfold forgetProcedure. step (eq_refl (get g)). rewrite H.
  destruct (procs ++ [proc])%list eqn:E; [destruct procs; discriminate|].
  step (modify_eq (set_procedures_ (<[name := removelast (t :: l)]> (procedures_ g))) g).
  destruct (debug_name_returns "Forget Procedure" name
              (set_procedures_ (<[name := removelast (t :: l)]> (procedures_ g)) g)) as [g' Hw].
  step Hw. eexists. reflexivity.
Qed.

(** C3: when the name read by [FORGET] is bound to a variable, its most
    recent binding is popped and the call returns the error "Unknown
    variable", not success. *)
Theorem Forget_fails_on_a_bound_name (g g1 : Globals) name vars var :
  readWord g = Ret (true, Word_setValue name) g1 ->
  debug_ g1 = false ->
  variables_ g1 !! name = Some (vars ++ [var])%list ->
  ForgetBuiltin_exec g =
    Ret (mkState false "Unknown variable")
        (set_lastError_ (mkState false "Unknown variable")
           (set_variables_ (<[name := vars]> (variables_ g1)) g1)).
Proof.
  intros Hr Hd Hv. unfold ForgetBuiltin_exec. step Hr.
  unfold Word_value, Word_setValue. cbn [word_valid word_str].
  unfold mret, M_ret. step (eq_refl (ret name g1)). step (eq_refl (get g1)).
  unfold lookupVariable. rewrite Hv, last_snoc.
  step (forgetVariable_bound g1 name vars var Hd Hv). reflexivity.
Qed.

(** [FORGET] returns an error whatever it finds: its three ways out that
    return at all return a failed [State]. *)
Lemma Forget_never_succeeds (g g' : Globals) st :
  ForgetBuiltin_exec g = Ret st g' -> valid st = false.
Proof.
  unfold ForgetBuiltin_exec. unfold mbind at 1, M_bind at 1, bind at 1.
  destruct (readWord g) as [[ok w] g1| | |]; try discriminate.
  destruct ok; cbn [negb fst snd].
  2:{ unfold State_error. munfold. intros [= <- _]. reflexivity. }
  unfold mbind at 1, M_bind at 1, bind at 1.
  destruct (Word_value w g1) as [name g2| | |] eqn:Ew; try discriminate.
  assert (g2 = g1) as ->.
  { unfold Word_value in Ew. destruct (word_valid w); [|discriminate].
    unfold ret in Ew. congruence. }
  step (eq_refl (get g1)).
  destruct (lookupVariable name g1) as [var|] eqn:Ev.
  - apply lookup_last_nonempty in Ev as [vars Hv].
    destruct (forgetVariable_returns g1 name vars var Hv) as [g3 Hf]. step Hf.
    unfold State_error. munfold. intros [= <- _]. reflexivity.
  - destruct (lookupProcedure name g1) as [proc|] eqn:Ep.
    + apply lookup_last_nonempty in Ep as [procs Hp].
      destruct (forgetProcedure_returns g1 name procs proc Hp) as [g3 Hf]. step Hf.
      unfold State_error. munfold. intros [= <- _]. reflexivity.
    + unfold State_error. munfold. intros [= <- _]. reflexivity.
Qed.

(** ** [ROLL] *)

Lemma to_int_small (z : Z) : INT_MIN <= z <= INT_MAX -> to_int z = z.
Proof. unfold to_int, INT_MIN, INT_MAX. intros H. rewrite Z.mod_small; lia. Qed.

Lemma to_uint_small (z : Z) : 0 <= z < 4294967296 -> to_uint z = z.
Proof. unfold to_uint. intros H. apply Z.mod_small. lia. Qed.

Lemma to_size_t_small (z : Z) : 0 <= z < 4294967296 -> to_size_t z = z.
Proof. unfold to_size_t. intros H. apply Z.mod_small. lia. Qed.

Lemma vec_at_Some {A} (v : list A) (i : Z) :
  0 <= i < vec_size v -> exists x, vec_at v i = Some x.
Proof.
  unfold vec_at, vec_size. intros H. destruct (Z.leb_spec 0 i); [|lia].
  destruct (lookup_lt_is_Some_2 v (Z.to_nat i)) as [x Hx]; [lia|]. eauto.
Qed.

Lemma vec_at_None {A} (v : list A) (i : Z) : vec_size v <= i -> vec_at v i = None.
Proof.
  unfold vec_at, vec_size. intros H. destruct (Z.leb_spec 0 i); [|reflexivity].
  apply lookup_ge_None. lia.
Qed.

Lemma vec_set_Some {A} (v : list A) (i : Z) (x : A) :
  0 <= i < vec_size v ->
  vec_set v i x = Some (<[Z.to_nat i := x]> v).
Proof.
  unfold vec_set, vec_size. intros H.
  destruct (Z.leb_spec 0 i); [|lia].
  destruct (Z.ltb_spec i (Z.of_nat (length v))); [|lia]. reflexivity.
Qed.

(** The loop that closes the gap reads one slot past the last: from
    every start inside the vector it ends in that read. *)
Lemma shift_down_reads_past_the_end (k : nat) : forall (n1 nt : Z) (g : Globals),
  vec_size (tokens_ g) = nt ->
  0 <= n1 < nt ->
  nt < 4294967296 ->
  nt - n1 <= Z.of_nat k ->
  shift_down k n1 nt g = Abend OutOfRange.
Proof.
  induction k as [|k IH]; intros n1 nt g Hs Hn Hnt Hk; [lia|].
  cbn [shift_down]. destruct (Z.ltb_spec n1 nt); [|lia].
  step (eq_refl (get g)). rewrite (to_uint_small (n1 + 1)) by lia.
  destruct (Z.eq_dec (n1 + 1) nt) as [He|He].
  - rewrite vec_at_None by lia. reflexivity.
  - destruct (vec_at_Some (tokens_ g) (n1 + 1)) as [x Hx]; [lia|].
    rewrite Hx. step (defined_Some OutOfRange x g).
    rewrite vec_set_Some by lia. step (defined_Some OutOfRange (<[Z.to_nat n1 := x]> (tokens_ g)) g).
    step (modify_eq (set_tokens_ (<[Z.to_nat n1 := x]> (tokens_ g))) g).
    apply IH; try lia.
    cbn. unfold vec_size in *. rewrite length_insert. exact Hs.
Qed.

(** C9: [ROLL] with an argument [n] between 1 and the depth of the stack
    below it does not stay inside the stack: moving the slots down, its
    loop reads the slot after the last one, which no vector element
    backs. *)
Theorem Roll_reads_past_the_stack (g : Globals) st a (n : Z) :
  debug_ g = false ->
  tokens_ g = (st ++ [ptr a])%list ->
  heap g !! a = Some (NumberToken (Integer n)) ->
  vec_size st <= INT_MAX ->
  1 <= n <= vec_size st ->
  RollBuiltin_exec g = Abend OutOfRange.
Proof.
  intros Hd Ht Hh Hmax Hn. unfold INT_MAX in Hmax.
  assert (Hpos : 0 <= vec_size st) by (unfold vec_size; lia).
  unfold RollBuiltin_exec. step (popNumber_snoc g st a _ Hd Ht Hh).
  cbn [Number_isInteger Number_integer negb].
  step (tokens_size_eq (set_tokens_ st g)). cbn [tokens_ set_tokens_].
  rewrite to_int_small by (unfold INT_MIN, INT_MAX; lia).
  destruct (Z.gtb_spec n (vec_size st)); [lia|].
  rewrite (to_size_t_small (vec_size st - n)) by lia.
  destruct (vec_at_Some st (vec_size st - n)) as [x Hx]; [lia|].
  step (tokens_at_eq (set_tokens_ st g) _ x Hx).
  step (eq_refl (get (set_tokens_ st g))). cbn [tokens_ set_tokens_].
  rewrite to_uint_small by lia.
  apply bind_Abend. apply shift_down_reads_past_the_end; cbn; try lia.
  unfold vec_size in *. lia.
Qed.

(** ** [DO] ... [LOOP] *)

Section DoLoop.

(** The executor the body runs on, the [DO] object and its body, the
    index and limit objects on the return stack, and what one run of the
    body does to the globals. *)
Variable exec : TokenP -> M State.
Variables (self index_ limit_ : nat) (tokens : list TokenP) (rs : list TokenP).
Variable limit : Z.
Variable body : Globals -> Globals.

Hypothesis limit_is_int : limit <= INT_MAX.

(** The body leaves the return stack, the index, the limit and the
    [leave] flag as they are, and does not fail. *)
Hypothesis body_runs : forall (g : Globals) (i : Z),
  in_loop self index_ limit_ tokens rs limit i g ->
  exec_body exec (ptr self) tokens g = Ret State_success (body g) /\
  in_loop self index_ limit_ tokens rs limit i (body g).

Lemma Token_cmp_numbers (g : Globals) a1 a2 n1 n2 :
  heap g !! a1 = Some (NumberToken n1) ->
  heap g !! a2 = Some (NumberToken n2) ->
  Token_cmp (ptr a1) (ptr a2) g = Ret (State_success, Number_cmp n1 n2) g.
Proof.
  intros H1 H2. unfold Token_cmp.
  step (deref_eq g a1 _ H1). step (deref_eq g a2 _ H2). reflexivity.
Qed.

Lemma Token_inc_number (g : Globals) a n i :
  heap g !! a = Some (NumberToken n) ->
  Token_inc (ptr a) i g =
    Ret State_success (set_heap (<[a := NumberToken (Number_inc n i)]> (heap g)) g).
Proof. intros H. unfold Token_inc. step (deref_eq g a _ H). reflexivity. Qed.

Lemma block_leave_Do (g : Globals) a t v :
  heap g !! a = Some (BuiltinToken (mkBuiltin t (DoValue v))) ->
  block_leave (ptr a) g = Ret (do_leave v) g.
Proof. intros H. unfold block_leave. step (deref_eq g a _ H). reflexivity. Qed.

Lemma step_index_eq (g : Globals) (i : Z) :
  heap g !! index_ = Some (NumberToken (Integer i)) ->
  step_index index_ g =
    set_heap (<[index_ := NumberToken (Integer (to_int (i + 1)))]> (heap g)) g.
Proof. intros H. unfold step_index. rewrite H. reflexivity. Qed.

Lemma in_loop_step (g : Globals) (i : Z) :
  index_ <> limit_ -> index_ <> self ->
  INT_MIN <= i < limit ->
  in_loop self index_ limit_ tokens rs limit i g ->
  in_loop self index_ limit_ tokens rs limit (i + 1) (step_index index_ g).
Proof.
  intros Hne1 Hne2 Hi (Hr & Hx & Hl & Hs & Hd).
  rewrite (step_index_eq g i Hx), to_int_small by lia.
  repeat split; cbn.
  - exact Hr.
  - apply list_lookup_insert_eq. eapply lookup_lt_Some; exact Hx.
  - rewrite list_lookup_insert_ne by exact Hne1. exact Hl.
  - rewrite list_lookup_insert_ne by exact Hne2. exact Hs.
  - exact Hd.
Qed.

(** The rounds of the loop: [n] more runs of the body, each followed by
    the step of the index, when the index is [n] below the limit. *)
Lemma DoBuiltin_loop_rounds (b : bool) (n : nat) : forall (k : nat) (i : Z) (g : Globals),
  index_ <> limit_ -> index_ <> self ->
  in_loop self index_ limit_ tokens rs limit i g ->
  INT_MIN <= i ->
  i + Z.of_nat n = limit ->
  (n < k)%nat ->
  DoBuiltin_loop exec k (ptr self) (mkDoTokens tokens false b) true
                 (Number_makeInteger 1) (ptr index_) (ptr limit_) g =
    Ret State_success (Nat.iter n (fun g => step_index index_ (body g)) g).
Proof.
  induction n as [|n IH]; intros k i g Hne1 Hne2 Hin Hi Hn Hk;
    (destruct k as [|k]; [lia|]); cbn [DoBuiltin_loop];
    pose proof Hin as (Hr & Hx & Hl & Hs & Hd).
  - step (Token_cmp_numbers g limit_ index_ _ _ Hl Hx).
    unfold Number_cmp. cbn [Number_isReal Number_integer negb andb].
    replace i with limit by lia. rewrite Z.gtb_ltb, !Z.ltb_irrefl. reflexivity.
  - step (Token_cmp_numbers g limit_ index_ _ _ Hl Hx).
    unfold Number_cmp. cbn [Number_isReal Number_integer negb andb].
    destruct (Z.gtb_spec limit i); [|lia]. cbn [Z.leb Z.compare].
    destruct (body_runs g i Hin) as [Hb Hin'].
    pose proof Hin' as (Hr' & Hx' & Hl' & Hs' & Hd').
    cbn [do_tokens incToken]. step Hb.
    step (block_leave_Do (body g) self _ _ Hs'). cbn [do_leave].
    step (eq_refl (success (Number_makeInteger 1) (body g))).
    step (Token_inc_number (body g) index_ _ (Number_makeInteger 1) Hx').
    rewrite Nat.iter_succ_r.
    assert (Hstep : set_heap (<[index_ := NumberToken (Number_inc (Integer i) (Number_makeInteger 1))]>
                                (heap (body g))) (body g) = step_index index_ (body g)).
    { rewrite (step_index_eq (body g) i Hx'). reflexivity. }
    rewrite Hstep.
    apply (IH k (i + 1)); try assumption; try lia.
    apply in_loop_step; [assumption|assumption|lia|exact Hin'].
Qed.

(** The index at the start of each round. *)
Lemma rounds_in_loop (n : nat) : forall (i : Z) (g : Globals),
  index_ <> limit_ -> index_ <> self ->
  in_loop self index_ limit_ tokens rs limit i g ->
  INT_MIN <= i ->
  i + Z.of_nat n <= limit ->
  in_loop self index_ limit_ tokens rs limit (i + Z.of_nat n)
          (Nat.iter n (fun g => step_index index_ (body g)) g).
Proof.
  induction n as [|n IH]; intros i g Hne1 Hne2 Hin Hi Hn.
  - cbn [Nat.iter nat_rect]. replace (i + Z.of_nat 0) with i by lia. exact Hin.
  - rewrite Nat.iter_succ_r.
    replace (i + Z.of_nat (S n)) with ((i + 1) + Z.of_nat n) by lia.
    apply IH; try assumption; try lia.
    apply in_loop_step; [assumption|assumption|lia|].
    apply (body_runs g i Hin).
Qed.

Lemma IBuiltin_in_loop (g : Globals) (i : Z) :
  in_loop self index_ limit_ tokens rs limit i g ->
  IBuiltin_exec g = Ret State_success (set_tokens_ (tokens_ g ++ [ptr index_]) g) /\
  number_at g (ptr index_) = Some (Integer i).
Proof.
  intros (Hr & Hx & Hl & Hs & Hd). split.
  - unfold IBuiltin_exec. step (get_eq g). rewrite Hr.
    assert (Hsz : vec_size (rs ++ [ptr index_; ptr limit_]) = vec_size rs + 2).
    { unfold vec_size. rewrite length_app. cbn. lia. }
    rewrite Hsz. destruct (Z.ltb_spec (vec_size rs + 2) 2); [unfold vec_size in *; lia|].
    replace (vec_size rs + 2 - 2) with (vec_size rs) by lia.
    change (rs ++ [ptr index_; ptr limit_])%list
      with (rs ++ [ptr index_] ++ [ptr limit_])%list.
    rewrite app_assoc, vec_at_app_l by (rewrite vec_size_snoc; unfold vec_size; lia).
    rewrite vec_at_size_snoc. step (defined_Some OutOfRange (ptr index_) g).
    step (pushToken_eq g (ptr index_) Hd). reflexivity.
  - unfold number_at. rewrite Hx. reflexivity.
Qed.


End DoLoop.

(** ** Digits *)

(** What the proofs use of a digit of [base_chars], checked on each of the
    36. *)
Lemma digit_checks_hold : forallb digit_check (seq 0 36) = true.
Proof. vm_compute. reflexivity. Qed.

Lemma base_chars_size_eq : to_int base_chars_size = 36.
Proof. reflexivity. Qed.

Lemma digit_facts (b d : Z) (c : ascii) :
  2 <= b <= 36 ->
  0 <= d < b ->
  base_chars_at d = Some c ->
  isBaseChar c b = Some d /\
  strchr "+-" c = false /\ isspace c = false /\ Ascii.eqb c "." = false.
Proof.
  intros Hb Hd Hc.
  assert (Hin : In (Z.to_nat d) (seq 0 36)) by (apply in_seq; lia).
  pose proof (proj1 (forallb_forall digit_check (seq 0 36)) digit_checks_hold _ Hin) as Hk.
  unfold digit_check in Hk. rewrite Z2Nat.id, Hc in Hk by lia.
  apply andb_prop in Hk as [Hk Hlow]. apply andb_prop in Hk as [Hk Hfind].
  apply andb_prop in Hk as [Hk Hsign]. apply andb_prop in Hk as [Hdot Hsp].
  apply negb_true_iff in Hlow, Hsign, Hdot, Hsp. apply bool_decide_eq_true in Hfind.
  repeat split; try assumption.
  unfold isBaseChar. rewrite base_chars_size_eq.
  destruct (Z.ltb_spec b 2); [lia|]. destruct (Z.gtb_spec b 36); [lia|]. cbn [orb].
  rewrite Hlow, Hfind.
  rewrite to_int_small by (unfold INT_MIN, INT_MAX; lia).
  rewrite Z2Nat.id by lia. destruct (Z.geb_spec d b); [lia|]. reflexivity.
Qed.

Lemma is_digit_facts (b : Z) (c : ascii) :
  2 <= b <= 36 ->
  is_digit b c ->
  exists d, 0 <= d < b /\ base_chars_at d = Some c /\ isBaseChar c b = Some d /\
            strchr "+-" c = false /\ isspace c = false /\ Ascii.eqb c "." = false.
Proof.
  intros Hb (d & Hd & Hc). exists d.
  destruct (digit_facts b d c Hb Hd Hc) as (? & ? & ? & ?). repeat split; assumption || lia.
Qed.

Lemma minus_is_no_digit (b : Z) : isBaseChar "-" b = None.
Proof.
  unfold isBaseChar. destruct (_ || _); [reflexivity|]. reflexivity.
Qed.

Lemma base_chars_at_digit (b d : Z) :
  2 <= b <= 36 -> 0 <= d < b -> exists c, base_chars_at d = Some c /\ is_digit b c.
Proof.
  intros Hb Hd.
  assert (Hin : In (Z.to_nat d) (seq 0 36)) by (apply in_seq; lia).
  pose proof (proj1 (forallb_forall digit_check (seq 0 36)) digit_checks_hold _ Hin) as Hk.
  unfold digit_check in Hk. rewrite Z2Nat.id in Hk by lia.
  destruct (base_chars_at d) as [c|] eqn:Hc; [|discriminate].
  exists c. split; [reflexivity|]. exists d. split; [lia|exact Hc].
Qed.

(** ** The value of a string of digits *)

Lemma digits_value_app (b : Z) (p q : string) : forall acc,
  digits_value b (p ++ q) acc = digits_value b q (digits_value b p acc).
Proof. induction p as [|c p IH]; intros acc; cbn; [reflexivity|apply IH]. Qed.

Lemma digits_value_ge (b : Z) (p : string) : forall acc,
  2 <= b <= 36 -> all_digits b p -> 0 <= acc -> acc <= digits_value b p acc.
Proof.
  induction p as [|c p IH]; intros acc Hb Hp Hacc; cbn; [lia|].
  destruct Hp as [Hc Hp]. destruct (is_digit_facts b c Hb Hc) as (d & Hd & _ & Hv & _).
  rewrite Hv. cbn [from_option id].
  assert (H1 : acc <= acc * b + d) by nia.
  pose proof (IH (acc * b + d) Hb Hp ltac:(lia)). lia.
Qed.

(** [toBaseInteger] reads a string of digits as its value, as long as the
    value is an [int]. *)
Lemma toBaseInteger_loop_digits (b : Z) (p : string) : forall acc,
  2 <= b <= 36 -> all_digits b p -> 0 <= acc ->
  digits_value b p acc <= INT_MAX ->
  toBaseInteger_loop p b acc = inr (digits_value b p acc).
Proof.
  induction p as [|c p IH]; intros acc Hb Hp Hacc Hmax; cbn; [reflexivity|].
  destruct Hp as [Hc Hp]. destruct (is_digit_facts b c Hb Hc) as (d & Hd & _ & Hv & _).
  cbn in Hmax. rewrite Hv in *. cbn [from_option id] in *.
  assert (Hle : acc * b + d <= INT_MAX).
  { assert (H1 : 0 <= acc * b + d) by nia.
    pose proof (digits_value_ge b p (acc * b + d) Hb Hp H1). lia. }
  unfold INT_MAX in Hle.
  assert (Hl1 : to_long (b * acc) = b * acc).
  { unfold to_long. rewrite Z.mod_small; nia. }
  rewrite Hl1.
  assert (Hl2 : to_long (b * acc + d) = b * acc + d).
  { unfold to_long. rewrite Z.mod_small; nia. }
  rewrite Hl2. replace (b * acc + d - d) with (acc * b) by lia.
  assert (Hl3 : to_long (acc * b) = acc * b).
  { unfold to_long. rewrite Z.mod_small; nia. }
  rewrite Hl3, Z.quot_mul by lia. rewrite Z.eqb_refl. cbn [negb].
  replace (b * acc + d) with (acc * b + d) by lia.
  apply IH; try assumption; nia.
Qed.

(** ** Strings *)

Lemma string_app_cons (x : ascii) (a b : string) : String x a ++ b = String x (a ++ b).
Proof. reflexivity. Qed.

Lemma string_app_assoc (a b c : string) : (a ++ b) ++ c = a ++ (b ++ c).
Proof.
  induction a as [|x a IH]; [reflexivity|]. rewrite !string_app_cons. f_equal. exact IH.
Qed.

Lemma string_app_nil_r (a : string) : a ++ "" = a.
Proof. induction a as [|x a IH]; [reflexivity|]. rewrite string_app_cons. f_equal. exact IH. Qed.

Lemma string_length_app (a b : string) :
  String.length (a ++ b) = (String.length a + String.length b)%nat.
Proof.
  induction a as [|x a IH]; [reflexivity|]. rewrite string_app_cons. cbn. f_equal. exact IH.
Qed.

Lemma string_push_app (a b : string) (c : ascii) : string_push a c ++ b = a ++ String c b.
Proof. unfold string_push. rewrite string_app_assoc. reflexivity. Qed.

Lemma string_get_app (pre suf : string) (c : ascii) :
  String.get (String.length pre) (pre ++ String c suf) = Some c.
Proof. induction pre as [|x pre IH]; [reflexivity|]. rewrite string_app_cons. cbn. exact IH. Qed.

Lemma string_at_app (pre suf : string) (c : ascii) :
  string_at (pre ++ String c suf) (String.length pre) = Some c.
Proof. unfold string_at. rewrite string_get_app. reflexivity. Qed.

Lemma all_digits_app (b : Z) (p q : string) :
  all_digits b p -> all_digits b q -> all_digits b (p ++ q).
Proof.
  induction p as [|c p IH]; intros Hp Hq; [exact Hq|].
  destruct Hp as [Hc Hp]. split; [exact Hc|]. apply IH; assumption.
Qed.

(** ** [toBaseString] on a number that is not negative *)

(** The loop leaves the leading digit [m'] and has written the digits [p]
    of the rest in front of [s]: read back from any [acc], they shift it
    by their length and add their own value [r]. *)
Lemma toBaseString_loop_digits (b : Z) (k : nat) : forall (m : Z) (s : string),
  2 <= b <= 36 ->
  0 <= m < 2 ^ Z.of_nat k ->
  exists m' p r,
    toBaseString_loop k b m s = Some (m', p ++ s) /\
    0 <= m' < b /\
    all_digits b p /\
    0 <= r /\
    m = m' * b ^ Z.of_nat (String.length p) + r /\
    forall acc, digits_value b p acc = acc * b ^ Z.of_nat (String.length p) + r.
Proof.
  induction k as [|k IH]; intros m s Hb Hm.
  - exists m, "", 0. cbn [toBaseString_loop].
    change (2 ^ Z.of_nat 0) with 1 in Hm.
    destruct (Z.geb_spec m b); [lia|].
    repeat split; try lia; cbn; lia.
  - cbn [toBaseString_loop]. destruct (Z.geb_spec m b) as [Hge|Hlt].
    + rewrite Z.rem_mod_nonneg, Z.quot_div_nonneg by lia.
      assert (Hn : 0 <= m mod b < b) by (apply Z.mod_pos_bound; lia).
      destruct (base_chars_at_digit b (m mod b) Hb Hn) as (c & Hc & Hd).
      rewrite Hc. cbn [mbind option_bind].
      assert (Hq : 0 <= m / b < 2 ^ Z.of_nat k).
      { split; [apply Z.div_pos; lia|].
        apply Z.div_lt_upper_bound; [lia|].
        rewrite Nat2Z.inj_succ, Z.pow_succ_r in Hm by lia. nia. }
      destruct (IH (m / b) (String c s) Hb Hq) as (m' & p & r & Hl & Hm' & Hp & Hr & Hv & Hacc).
      exists m', (p ++ String c ""), (r * b + m mod b).
      assert (Hlen : Z.of_nat (String.length (p ++ String c "")) =
                     Z.of_nat (String.length p) + 1).
      { rewrite string_length_app. cbn. lia. }
      rewrite Hlen, Z.pow_add_r, Z.pow_1_r by lia.
      refine (conj _ (conj Hm' (conj _ (conj _ (conj _ _))))).
      * rewrite Hl, string_app_assoc. reflexivity.
      * apply all_digits_app; [exact Hp|]. split; [exact Hd|exact I].
      * apply Z.add_nonneg_nonneg; [apply Z.mul_nonneg_nonneg|]; lia.
      * rewrite (Z.div_mod m b) at 1 by lia. rewrite Hv at 1. ring.
      * intros acc. rewrite digits_value_app, Hacc. cbn [digits_value].
        destruct (digit_facts b (m mod b) c Hb Hn Hc) as (Hv' & _).
        rewrite Hv'. cbn [from_option id]. ring.
    + exists m, "", 0. repeat split; try lia; cbn; lia.
Qed.

(** The digits [toBaseString] writes for a number that is not negative
    read back as the number. *)
Lemma toBaseString_nonneg (b m : Z) :
  2 <= b <= 36 ->
  0 <= m <= INT_MAX ->
  exists str,
    toBaseString b m = Some str /\
    str <> "" /\
    all_digits b str /\
    digits_value b str 0 = m.
Proof.
  intros Hb Hm. unfold toBaseString. rewrite base_chars_size_eq.
  destruct (Z.ltb_spec b 2); [lia|]. destruct (Z.gtb_spec b 36); [lia|]. cbn [orb].
  destruct (Z.ltb_spec m 0); [lia|].
  destruct (toBaseString_loop_digits b 32 m "" Hb) as (m' & p & r & Hl & Hm' & Hp & Hr & Hv & Hacc).
  { unfold INT_MAX in Hm. change (2 ^ Z.of_nat 32) with 4294967296. lia. }
  rewrite Hl. cbn [mbind option_bind].
  destruct (base_chars_at_digit b m' Hb Hm') as (c & Hc & Hd).
  rewrite Hc. cbn [mbind option_bind]. rewrite string_app_nil_r.
  exists (String c p). repeat split; try assumption; [discriminate|].
  cbn [digits_value]. destruct (digit_facts b m' c Hb Hm' Hc) as (Hv' & _).
  rewrite Hv', Hacc. cbn [from_option id]. lia.
Qed.

(** ** Reading digits from a line *)

Lemma Line_isValid_inside (pre suf : string) (c : ascii) (len : nat) :
  len = String.length (pre ++ String c suf) ->
  Line_isValid (mkLine (pre ++ String c suf) (String.length pre) len) = true.
Proof.
  intros ->. unfold Line_isValid. cbn [pos_ len_]. apply Nat.ltb_lt.
  rewrite string_length_app. cbn. lia.
Qed.

Lemma Line_isValid_at_end (str : string) :
  Line_isValid (mkLine str (String.length str) (String.length str)) = false.
Proof. unfold Line_isValid. cbn [pos_ len_]. apply Nat.ltb_irrefl. Qed.

Lemma Line_lookChar_inside (pre suf : string) (c : ascii) (len : nat) :
  Line_lookChar (mkLine (pre ++ String c suf) (String.length pre) len) = Some c.
Proof. unfold Line_lookChar. cbn [str_ pos_]. apply string_at_app. Qed.

(** The digit loop of [readNumberToken] takes the digits [p] in front of
    it and stops at the end of the line or at the first character that
    is no digit. *)
Lemma read_base_chars_digits (b : Z) (p : string) :
  forall (k : nat) (pre suf acc : string) (len : nat),
  2 <= b <= 36 ->
  all_digits b p ->
  (String.length p <= k)%nat ->
  suf = "" \/ (exists c suf', suf = String c suf' /\ isBaseChar c b = None) ->
  len = String.length (pre ++ p ++ suf) ->
  read_base_chars k b (mkLine (pre ++ p ++ suf) (String.length pre) len) acc =
    Some (mkLine (pre ++ p ++ suf) (String.length pre + String.length p) len, acc ++ p).
Proof.
  induction p as [|c p IH]; intros k pre suf acc len Hb Hp Hk Hsuf Hlen.
  - change ("" ++ suf) with suf in *. rewrite string_app_nil_r, Nat.add_0_r.
    destruct Hsuf as [-> | (c & suf' & -> & Hc)].
    + rewrite string_app_nil_r in *. subst len.
      destruct k; cbn [read_base_chars]; rewrite Line_isValid_at_end; reflexivity.
    + destruct k; cbn [read_base_chars];
        rewrite (Line_isValid_inside pre suf' c len Hlen);
        unfold Line_isBaseChar; rewrite Line_lookChar_inside; cbn [fmap option_fmap option_map];
        rewrite Hc; reflexivity.
  - destruct Hp as [Hc Hp]. destruct (is_digit_facts b c Hb Hc) as (d & Hd & _ & Hv & _).
    destruct k as [|k]; [cbn in Hk; lia|]. cbn [read_base_chars].
    rewrite string_app_cons in *.
    rewrite (Line_isValid_inside pre (p ++ suf) c len Hlen).
    unfold Line_isBaseChar at 1. rewrite Line_lookChar_inside.
    cbn [fmap option_fmap option_map mbind option_bind]. rewrite Hv.
    unfold Line_getChar. rewrite Line_lookChar_inside. cbn [mbind option_bind].
    unfold Line_skipChar. cbn [str_ pos_ len_].
    assert (Hstr : pre ++ String c (p ++ suf) = (pre ++ String c "") ++ p ++ suf).
    { rewrite string_app_assoc. reflexivity. }
    assert (Hpos : S (String.length pre) = String.length (pre ++ String c "")).
    { rewrite string_length_app. cbn. lia. }
    rewrite Hstr, Hpos.
    rewrite (IH k (pre ++ String c "") suf (string_push acc c) len Hb Hp); try assumption.
    + rewrite string_push_app. do 2 f_equal. rewrite string_length_app. cbn.
      f_equal. lia.
    + cbn in Hk. lia.
    + rewrite <- Hstr. exact Hlen.
Qed.

(** A line of digits only is read to its end, as an integer without a
    sign. *)
Lemma scanNumber_digits (b : Z) (c : ascii) (p : string) :
  2 <= b <= 36 ->
  all_digits b (String c p) ->
  scanNumber b (Line_new (String c p)) =
    Some (mkLine (String c p) (String.length (String c p)) (String.length (String c p)),
          inr (1, String c p, false)).
Proof.
  intros Hb Hp. pose proof Hp as [Hc _].
  destruct (is_digit_facts b c Hb Hc) as (d & Hd & _ & Hv & Hsign & Hsp & Hdot).
  unfold scanNumber, Line_new. cbn [pos_].
  set (len := String.length (String c p)).
  assert (H1 : Line_isOneOf (mkLine (String c p) 0 len) "+-" = Some false).
  { change (Some (strchr "+-" c) = Some false). rewrite Hsign. reflexivity. }
  rewrite H1. cbn [mbind option_bind].
  assert (H2 : Line_isBaseChar (mkLine (String c p) 0 len) b = Some true).
  { change (Some (bool_decide (is_Some (isBaseChar c b))) = Some true).
    rewrite Hv. reflexivity. }
  rewrite H2. cbn [mbind option_bind negb len_].
  pose proof (read_base_chars_digits b (String c p) len "" "" "" len Hb Hp (le_n _)
                (or_introl eq_refl)) as H3.
  rewrite string_app_nil_r in H3. cbn [String.length Nat.add] in H3.
  change ("" ++ String c p) with (String c p) in H3.
  rewrite H3 by reflexivity. cbn [mbind option_bind].
  match goal with |- context [valid_and ?l] =>
    assert (H4 : Line_isValid l = false) by apply (Line_isValid_at_end (String c p))
  end.
  unfold valid_and. rewrite H4. cbn [mbind option_bind]. rewrite H4.
  cbn [mbind option_bind]. rewrite H4. reflexivity.
Qed.

(** Digits followed by a minus sign are no number: the sign is left over
    after the digits, and the line is rewound. *)
Lemma scanNumber_trailing_minus (b : Z) (c : ascii) (p : string) :
  2 <= b <= 36 ->
  all_digits b (String c p) ->
  scanNumber b (Line_new (String c p ++ "-")) =
    Some (mkLine (String c p ++ "-") 0 (String.length (String c p ++ "-")),
          inl "Not a number").
Proof.
  intros Hb Hp. pose proof Hp as [Hc _].
  destruct (is_digit_facts b c Hb Hc) as (d & Hd & _ & Hv & Hsign & Hsp & Hdot).
  unfold scanNumber, Line_new. cbn [pos_].
  set (len := String.length (String c p ++ "-")).
  rewrite string_app_cons.
  assert (H1 : Line_isOneOf (mkLine (String c (p ++ "-")) 0 len) "+-" = Some false).
  { change (Some (strchr "+-" c) = Some false). rewrite Hsign. reflexivity. }
  rewrite H1. cbn [mbind option_bind].
  assert (H2 : Line_isBaseChar (mkLine (String c (p ++ "-")) 0 len) b = Some true).
  { change (Some (bool_decide (is_Some (isBaseChar c b))) = Some true).
    rewrite Hv. reflexivity. }
  rewrite H2. cbn [mbind option_bind negb len_].
  assert (Hk : (String.length (String c p) <= len)%nat).
  { subst len. rewrite string_length_app. lia. }
  pose proof (read_base_chars_digits b (String c p) len "" "-" "" len Hb Hp Hk
                (or_intror (ex_intro _ "-"%char (ex_intro _ "" (conj eq_refl (minus_is_no_digit b))))))
    as H3.
  change ("" ++ String c p ++ "-") with (String c (p ++ "-")) in H3.
  cbn [String.length Nat.add] in H3.
  change ("" ++ String c p) with (String c p) in H3.
  rewrite H3 by (subst len; rewrite string_app_cons; reflexivity).
  cbn [mbind option_bind].
  set (line := mkLine (String c (p ++ "-")) (S (String.length p)) len).
  assert (H4 : Line_isValid line = true).
  { subst line. rewrite <- string_app_cons.
    apply (Line_isValid_inside (String c p) "" "-"). reflexivity. }
  assert (H5 : Line_lookChar line = Some "-"%char).
  { subst line. rewrite <- string_app_cons.
    apply (Line_lookChar_inside (String c p) "" "-"). }
  unfold valid_and. rewrite H4.
  unfold Line_isChar. rewrite H5. cbn [fmap option_fmap option_map mbind option_bind].
  change (Ascii.eqb "-" ".") with false. cbn [mbind option_bind].
  rewrite H4. unfold Line_isOneOf. rewrite H5.
  cbn [fmap option_fmap option_map mbind option_bind].
  change (strchr "Ee" "-") with false. cbn [mbind option_bind].
  rewrite H4. unfold Line_isSpace. rewrite H5.
  cbn [fmap option_fmap option_map mbind option_bind].
  change (negb (isspace "-")) with true. cbn [mbind option_bind].
  reflexivity.
Qed.

(** ** Writing a number and reading it back *)

(** For a negative number the sign is written first and every digit then
    put in front of what is written: the sign ends up last. *)
Lemma toBaseString_negative (b n : Z) :
  2 <= b <= 36 ->
  INT_MIN < n < 0 ->
  exists c p,
    toBaseString b n = Some (String c p ++ "-") /\ all_digits b (String c p).
Proof.
  intros Hb Hn. unfold INT_MIN in Hn. unfold toBaseString. rewrite base_chars_size_eq.
  destruct (Z.ltb_spec b 2); [lia|]. destruct (Z.gtb_spec b 36); [lia|]. cbn [orb].
  destruct (Z.ltb_spec n 0); [|lia].
  rewrite to_int_small by (unfold INT_MIN, INT_MAX; lia).
  destruct (toBaseString_loop_digits b 32 (- n) (string_push "" "-") Hb)
    as (m' & p & r & Hl & Hm' & Hp & _).
  { change (2 ^ Z.of_nat 32) with 4294967296. lia. }
  rewrite Hl. cbn [mbind option_bind].
  destruct (base_chars_at_digit b m' Hb Hm') as (c & Hc & Hd).
  rewrite Hc. cbn [mbind option_bind].
  exists c, p. split; [reflexivity|]. split; assumption.
Qed.

Lemma toBaseString_INT_MIN (b : Z) : 2 <= b <= 36 -> toBaseString b INT_MIN = None.
Proof.
  intros Hb. unfold toBaseString. rewrite base_chars_size_eq.
  destruct (Z.ltb_spec b 2); [lia|]. destruct (Z.gtb_spec b 36); [lia|]. cbn [orb].
  change (INT_MIN <? 0) with true. change (to_int (- INT_MIN)) with INT_MIN.
  cbn [toBaseString_loop]. destruct (Z.geb_spec INT_MIN b); [unfold INT_MIN in *; lia|].
  reflexivity.
Qed.

Lemma toBaseInteger_digits (g : Globals) (b : Z) (str : string) :
  2 <= b <= 36 ->
  all_digits b str ->
  0 <= digits_value b str 0 <= INT_MAX ->
  toBaseInteger str b g = Ret (State_success, digits_value b str 0) g.
Proof.
  intros Hb Hp Hv. unfold toBaseInteger, toBaseInteger_pure. rewrite base_chars_size_eq.
  destruct (Z.ltb_spec b 2); [lia|]. destruct (Z.gtb_spec b 36); [lia|]. cbn [orb].
  rewrite (toBaseInteger_loop_digits b str 0 Hb Hp) by lia.
  destruct (Z.gtb_spec (digits_value b str 0) INT_MAX); [lia|].
  destruct (Z.ltb_spec (digits_value b str 0) INT_MIN); [unfold INT_MIN in *; lia|].
  reflexivity.
Qed.

Lemma readNumberToken_digits (g : Globals) (b : Z) (c : ascii) (p : string) :
  getBase g = Ret b g ->
  2 <= b <= 36 ->
  all_digits b (String c p) ->
  0 <= digits_value b (String c p) 0 <= INT_MAX ->
  readNumberToken (String c p) g =
    Ret (State_success, ptr (length (heap g)))
        (set_heap (heap g ++ [NumberToken (Integer (digits_value b (String c p) 0))]) g).
Proof.
  intros Hg Hb Hp Hv. unfold readNumberToken.
  assert (Hline : readNumberToken_line (Line_new (String c p)) g =
    Ret (State_success,
         (ptr (length (heap g)),
          mkLine (String c p) (String.length (String c p)) (String.length (String c p))))
        (set_heap (heap g ++ [NumberToken (Integer (digits_value b (String c p) 0))]) g)).
  { unfold readNumberToken_line. step Hg.
    rewrite (scanNumber_digits b c p Hb Hp).
    step (defined_Some OutOfRange
            (mkLine (String c p) (String.length (String c p)) (String.length (String c p)),
             @inr string _ (1, String c p, false)) g).
    step (toBaseInteger_digits g b (String c p) Hb Hp Hv).
    rewrite Z.mul_1_l.
    assert (Hl : to_long (digits_value b (String c p) 0) = digits_value b (String c p) 0).
    { unfold to_long, INT_MAX in *. rewrite Z.mod_small; lia. }
    rewrite Hl, to_int_small by (unfold INT_MIN; lia).
    reflexivity. }
  step Hline. reflexivity.
Qed.

Lemma readNumberToken_trailing_minus (g : Globals) (b : Z) (c : ascii) (p : string) :
  getBase g = Ret b g ->
  2 <= b <= 36 ->
  all_digits b (String c p) ->
  readNumberToken (String c p ++ "-") g =
    Ret (mkState false "Not a number", null)
        (set_lastError_ (mkState false "Not a number") g).
Proof.
  intros Hg Hb Hp. unfold readNumberToken.
  assert (Hline : readNumberToken_line (Line_new (String c p ++ "-")) g =
    Ret (mkState false "Not a number",
         (null, mkLine (String c p ++ "-") 0 (String.length (String c p ++ "-"))))
        (set_lastError_ (mkState false "Not a number") g)).
  { unfold readNumberToken_line. step Hg.
    rewrite (scanNumber_trailing_minus b c p Hb Hp). reflexivity. }
  step Hline. reflexivity.
Qed.

(** C5: a number written by [toBaseString] is read back by the number
    parser under the same base exactly when it is not negative.  The
    digits of a negative number come out in front of its sign, which the
    parser refuses, and for [INT_MIN] the digit table is indexed outside
    its range. *)
Theorem number_round_trip (g : Globals) (b n : Z) :
  getBase g = Ret b g ->
  2 <= b <= 36 ->
  INT_MIN <= n <= INT_MAX ->
  (0 <= n ->
     exists str,
       toBaseString b n = Some str /\
       readNumberToken str g =
         Ret (State_success, ptr (length (heap g)))
             (set_heap (heap g ++ [NumberToken (Integer n)]) g)) /\
  (INT_MIN < n < 0 ->
     exists str,
       toBaseString b n = Some str /\
       readNumberToken str g =
         Ret (mkState false "Not a number", null)
             (set_lastError_ (mkState false "Not a number") g)) /\
  (n = INT_MIN -> toBaseString b n = None).
Proof.
  intros Hg Hb Hn. split; [|split].
  - intros Hpos.
    destruct (toBaseString_nonneg b n Hb ltac:(lia)) as (str & Hs & Hne & Hp & Hv).
    exists str. split; [exact Hs|].
    destruct str as [|c p]; [congruence|].
    rewrite <- Hv. apply readNumberToken_digits; try assumption. rewrite Hv. lia.
  - intros Hneg.
    destruct (toBaseString_negative b n Hb Hneg) as (c & p & Hs & Hp).
    exists (String c p ++ "-"). split; [exact Hs|].
    apply (readNumberToken_trailing_minus g b); assumption.
  - intros ->. apply toBaseString_INT_MIN. exact Hb.
Qed.

End Properties.

(** * The properties on concrete inputs

    The runs below are on [integral_platform]. *)

#[local] Existing Instance integral_platform.
#[local] Existing Instance M_ret.
#[local] Existing Instance M_bind.

(** ** [.] on an empty stack *)

Lemma print_on_empty_stack_witness :
  exists g',
    PrintBuiltin_exec (stack_state [] []) = Ret (mkState false "STACK EMPTY") g' /\
    cout g' = cout (stack_state [] []) ++ "0" ++ endl /\
    lastError_ g' = mkState false "STACK EMPTY" /\
    tokens_ g' = [].
Proof. apply (print_on_empty_stack (stack_state [] [])). reflexivity. Defined.

(** The line [.] typed first in a session: "0" on the output, the
    message on the error output. *)
Lemma print_on_empty_stack_run :
  cout (globals_of (session ["."])) = "0" ++ endl /\
  cerr (globals_of (session ["."])) = "STACK EMPTY" ++ endl /\
  tokens_ (globals_of (session ["."])) = [].
Proof. vm_compute. repeat split; reflexivity. Qed.

(** ** [MOD] by zero *)

Lemma mod_by_zero_asserts_witness :
  ModBuiltin_exec
    (stack_state [NumberToken (Integer 7); NumberToken (Integer 0)] [ptr 0; ptr 1]) =
  Abend AssertionFailed.
Proof.
  apply (mod_by_zero_asserts
           (stack_state [NumberToken (Integer 7); NumberToken (Integer 0)] [ptr 0; ptr 1])
           [] 0 1 7); reflexivity.
Defined.

(** The session [7 0 MOD] ends in the failed assertion; nothing is
    reported. *)
Lemma mod_by_zero_run : session ["7 0 MOD"] = Abend AssertionFailed.
Proof. vm_compute. reflexivity. Qed.

(** ** [?DUP] *)

Lemma QDup_pops_its_argument_witness :
  QDupBuiltin_exec (stack_state [NumberToken (Integer 5)] [ptr 0]) =
    Ret State_success
        (stack_state [NumberToken (Integer 5); NumberToken (Integer 5)] [ptr 1]) /\
  QDupBuiltin_exec (stack_state [NumberToken (Integer 0)] [ptr 0]) =
    Ret State_success (stack_state [NumberToken (Integer 0)] []).
Proof.
  split.
  - apply (proj1 (QDup_pops_its_argument
                    (stack_state [NumberToken (Integer 5)] [ptr 0]) [] 0 5 eq_refl eq_refl eq_refl)).
  - apply (proj1 (QDup_pops_its_argument
                    (stack_state [NumberToken (Integer 0)] [ptr 0]) [] 0 0 eq_refl eq_refl eq_refl)).
Defined.

(** After [5 ?DUP] the stack holds one token, after [0 ?DUP] none. *)
Lemma QDup_run :
  length (tokens_ (globals_of (session ["5 ?DUP"]))) = 1%nat /\
  length (tokens_ (globals_of (session ["0 ?DUP"]))) = 0%nat.
Proof. vm_compute. split; reflexivity. Qed.

(** ** [DUP] and [OVER] on a reference *)

Lemma dup_over_share_the_reference_witness :
  DupBuiltin_exec (stack_state reference_objects [ptr 1]) =
    Ret State_success (set_tokens_ [ptr 1; ptr 1] (stack_state reference_objects [ptr 1])) /\
  OverBuiltin_exec (stack_state reference_objects [ptr 1; ptr 2]) =
    Ret State_success
        (set_tokens_ [ptr 1; ptr 2; ptr 1] (stack_state reference_objects [ptr 1; ptr 2])) /\
  exists g',
    Token_inc (ptr 1) (Integer 1) (stack_state reference_objects [ptr 1; ptr 1]) =
      Ret State_success g' /\
    heap g' !! 1%nat = Some (VariableRefToken (mkVariableRef (ptr 0) 2)).
Proof.
  split; [|split].
  - apply (proj1 (dup_over_share_the_reference
                    (stack_state reference_objects [ptr 1]) [] 1 2
                    (mkVariableRef (ptr 0) 1) 1 eq_refl eq_refl)).
    reflexivity.
  - apply (proj1 (proj2 (dup_over_share_the_reference
                           (stack_state reference_objects [ptr 1; ptr 2]) [] 1 2
                           (mkVariableRef (ptr 0) 1) 1 eq_refl eq_refl))).
    reflexivity.
  - apply (proj2 (proj2 (dup_over_share_the_reference
                           (stack_state reference_objects [ptr 1; ptr 1]) [] 1 2
                           (mkVariableRef (ptr 0) 1) 1 eq_refl eq_refl))).
Defined.

(** A loop over references that keeps what [I DUP] pushes: the four
    slots hold one pointer, so each reads the offset the loop ended
    with, 2; copies made by [DUP] would read 0 and 1. *)
Lemma dup_shares_the_reference_run :
  let g := globals_of (session ["VARIABLE X"; "X 2 + X 0 + DO I DUP LOOP"]) in
  tokens_ g = [ptr 87; ptr 87; ptr 87; ptr 87] /\
  heap g !! 87%nat = Some (VariableRefToken (mkVariableRef (ptr 81) 2)).
Proof. vm_compute. split; reflexivity. Qed.

(** ** [BASE] *)

Lemma getBase_clamps_witness :
  exists base,
    getBase (globals_of (session ["40 BASE !"])) =
      Ret base (globals_of (session ["40 BASE !"])) /\
    2 <= base <= 36 /\
    (2 <= 40 <= 36 -> base = 40) /\
    (40 < 2 -> base = 2) /\
    (36 < 40 -> base = 36).
Proof.
  apply (getBase_clamps (globals_of (session ["40 BASE !"])) 40).
  - vm_compute. reflexivity.
  - exists 1%nat, (mkVariable "BASE" [ptr 80] 0 false []), 80%nat.
    vm_compute. repeat split; reflexivity.
Defined.

(** With 1 stored in [BASE] the base read is 2, not 10, and [101] is
    read as the binary number 5, where base 10 reads 101. *)
Lemma base_out_of_range_is_not_ten :
  BASE_holds (globals_of (session ["1 BASE !"])) (Integer 1) /\
  ~ 2 <= 1 <= 36 /\
  getBase (globals_of (session ["1 BASE !"])) = Ret 2 (globals_of (session ["1 BASE !"])) /\
  getBase (globals_of (session ["1 BASE !"])) <> Ret 10 (globals_of (session ["1 BASE !"])) /\
  (exists p, tokens_ (globals_of (session ["1 BASE ! 101"])) = [p] /\
             number_at (globals_of (session ["1 BASE ! 101"])) p = Some (Integer 5)) /\
  (exists p, tokens_ (globals_of (session ["101"])) = [p] /\
             number_at (globals_of (session ["101"])) p = Some (Integer 101)).
Proof.
  assert (Hget : getBase (globals_of (session ["1 BASE !"])) =
                 Ret 2 (globals_of (session ["1 BASE !"]))).
  { apply (getBase_of_BASE _ 1 (mkVariable "BASE" [ptr 80] 0 false []) 80 (Integer 1));
      vm_compute; reflexivity. }
  split; [|split; [|split; [|split; [|split]]]].
  - exists 1%nat, (mkVariable "BASE" [ptr 80] 0 false []), 80%nat.
    vm_compute. repeat split; reflexivity.
  - lia.
  - exact Hget.
  - rewrite Hget. intros [=].
  - exists (ptr 81). vm_compute. split; reflexivity.
  - exists (ptr 80). vm_compute. split; reflexivity.
Qed.

(** ** [DECIMAL] *)

Lemma Decimal_keeps_a_bound_BASE_witness :
  DecimalBuiltin_exec (globals_of (session ["16 BASE !"])) =
    Ret State_success (globals_of (session ["16 BASE !"])).
Proof.
  apply (Decimal_keeps_a_bound_BASE (globals_of (session ["16 BASE !"])) (ptr 1)).
  vm_compute. reflexivity.
Defined.

(** After [16 BASE !] and [DECIMAL] the base read is still 16. *)
Lemma Decimal_run :
  value_of (getBase (globals_of (session ["16 BASE ! DECIMAL"]))) = Some 16 /\
  value_of (getBase (globals_of (session ["16 BASE !"; "DECIMAL"]))) = Some 16.
Proof. vm_compute. split; reflexivity. Qed.

(** ** [FORGET] *)

Lemma Forget_fails_on_a_bound_name_witness :
  ForgetBuiltin_exec before_forget =
    Ret (mkState false "Unknown variable")
        (set_lastError_ (mkState false "Unknown variable")
           (set_variables_
              (<["X" := []]> (variables_ (set_line_ (mkLine "X" 1 1) before_forget)))
              (set_line_ (mkLine "X" 1 1) before_forget))).
Proof.
  apply (Forget_fails_on_a_bound_name before_forget
           (set_line_ (mkLine "X" 1 1) before_forget) "X" [] (ptr 81)).
  - vm_compute. reflexivity.
  - vm_compute. reflexivity.
  - vm_compute. reflexivity.
Defined.

(** The session [VARIABLE X FORGET X] reports "Unknown variable", and [X]
    is bound no more. *)
Lemma Forget_run :
  let g := globals_of (session ["VARIABLE X FORGET X"]) in
  cerr g = "Unknown variable" ++ endl /\ lookupVariable "X" g = None.
Proof. vm_compute. split; reflexivity. Qed.

(** ** [ROLL] *)

Lemma Roll_reads_past_the_stack_witness :
  RollBuiltin_exec
    (stack_state [NumberToken (Integer 1); NumberToken (Integer 2);
                  NumberToken (Integer 3); NumberToken (Integer 2)]
                 [ptr 0; ptr 1; ptr 2; ptr 3]) =
  Abend OutOfRange.
Proof.
  apply (Roll_reads_past_the_stack
           (stack_state [NumberToken (Integer 1); NumberToken (Integer 2);
                         NumberToken (Integer 3); NumberToken (Integer 2)]
                        [ptr 0; ptr 1; ptr 2; ptr 3])
           [ptr 0; ptr 1; ptr 2] 3 2).
  - reflexivity.
  - reflexivity.
  - reflexivity.
  - vm_compute. discriminate.
  - vm_compute. split; discriminate.
Defined.

Lemma Roll_run : session ["1 2 3 2 ROLL"] = Abend OutOfRange.
Proof. vm_compute. reflexivity. Qed.

(** ** Round trips *)

Lemma number_round_trip_witness :
  let g := globals_of (session ["16 BASE !"]) in
  (exists str,
     toBaseString 16 255 = Some str /\
     readNumberToken str g =
       Ret (State_success, ptr (length (heap g)))
           (set_heap (heap g ++ [NumberToken (Integer 255)]) g)) /\
  (exists str,
     toBaseString 16 (-255) = Some str /\
     readNumberToken str g =
       Ret (mkState false "Not a number", null)
           (set_lastError_ (mkState false "Not a number") g)).
Proof.
  assert (Hg : getBase (globals_of (session ["16 BASE !"])) =
               Ret 16 (globals_of (session ["16 BASE !"]))).
  { apply (getBase_of_BASE _ 1 (mkVariable "BASE" [ptr 80] 0 false []) 80 (Integer 16));
      vm_compute; reflexivity. }
  assert (Hb : 2 <= 16 <= 36) by lia.
  split.
  - apply (proj1 (number_round_trip _ 16 255 Hg Hb ltac:(unfold INT_MIN, INT_MAX; lia))). lia.
  - apply (proj1 (proj2 (number_round_trip _ 16 (-255) Hg Hb
                           ltac:(unfold INT_MIN, INT_MAX; lia)))).
    unfold INT_MIN. lia.
Defined.

(** What [toBaseString] writes. *)
Lemma toBaseString_run :
  toBaseString 16 255 = Some "FF" /\
  toBaseString 16 (-255) = Some "FF-" /\
  toBaseString 10 (-1) = Some "1-" /\
  toBaseString 10 INT_MIN = None.
Proof. vm_compute. repeat split; reflexivity. Qed.

(** [-255 16 BASE ! .] prints the digits before the sign. *)
Lemma print_negative_run :
  cout (globals_of (session ["-255 16 BASE ! ."])) = "FF- ".
Proof. vm_compute. reflexivity. Qed.

(** ** [DO] ... [LOOP] *)


(** [3 0 DO I . LOOP] prints the indices 0, 1 and 2; the tokens [I]
    leaves on the stack are one object, which holds 3 in the end. *)
Lemma Do_loop_run :
  cout (globals_of (session ["3 0 DO I . LOOP"])) = "0 1 2 " /\
  (let g := globals_of (session ["3 0 DO I LOOP"]) in
   exists p, tokens_ g = [p; p; p] /\ number_at g p = Some (Integer 3)).
Proof.
  split; [vm_compute; reflexivity|].
  exists (ptr 83). vm_compute. split; reflexivity.
Qed.
